(** * Gated Graph Transformer Network: loss construction and aggregation

    A shallow embedding of [model.py] (class [Model]) and of
    [transformation_modules/aggregate_representation.py], over the real
    numbers.  Tensors are nested lists, the outermost list being axis 0;
    Theano's elementwise operations with broadcasting are written as maps
    and zips along the axes they act on.  Floating-point rounding is not
    modelled: [+], [*], [log], [exp] and [tanh] are the real functions. *)

From Stdlib Require Import Reals RList Lra Lia List ZArith Bool Arith.
From Stdlib Require String.
From Stdlib Require Import Permutation.
Import ListNotations.
Open Scope R_scope.
Import String.StringSyntax.
Delimit Scope string_scope with string.
Bind Scope string_scope with String.string.

(** ** Tensor helpers *)

(** [T.sum] of a vector. *)
Definition Rsum (l : list R) : R := fold_right Rplus 0 l.

(** Elementwise binary operation on two tensors of the same length. *)
Fixpoint map2 {A B C : Type} (f : A -> B -> C) (la : list A) (lb : list B)
  : list C :=
  match la, lb with
  | a :: la', b :: lb' => f a b :: map2 f la' lb'
  | _, _ => []
  end.

(** [T.sum(rows, axis=0)] for a matrix with [width] columns. *)
Definition vsum (width : nat) (rows : list (list R)) : list R :=
  fold_right (map2 Rplus) (repeat 0 width) rows.

(** [x.reshape([-1, w])] for a rank-3 tensor whose last axis has length [w]:
    the two leading axes are merged. *)
Definition flatten_rows {A : Type} (t : list (list A)) : list A := concat t.

(** [x.reshape([n_batch, n_nodes, w])] for a matrix with [n_batch * n_nodes]
    rows. *)
Definition reshape3 {A : Type} (n_batch n_nodes : nat) (flat : list A)
  : list (list A) :=
  map (fun b => firstn n_nodes (skipn (b * n_nodes) flat)) (seq 0 n_batch).

(** The list [[f 0; ...; f (n-1)]]. *)
Definition tabulate {A : Type} (n : nat) (f : nat -> A) : list A :=
  map f (seq 0 n).

(** A rank-4 tensor of shape [(a, b, c, d)]. *)
Definition tensor4_shape (a b c d : nat) (x : list (list (list (list R))))
  : Prop :=
  length x = a /\
  forall i, (i < a)%nat ->
    length (nth i x []) = b /\
    forall j, (j < b)%nat ->
      length (nth j (nth i x []) []) = c /\
      forall k, (k < c)%nat ->
        length (nth k (nth j (nth i x []) []) []) = d.

(** [T.dot(ipt, weights)]: [ipt] has one row per example, [weights] one row
    per input feature and [cols] columns. *)
Definition T_dot (cols : nat) (ipt weights : list (list R)) : list (list R) :=
  map (fun x => vsum cols (map2 (fun xk wk => map (Rmult xk) wk) x weights))
      ipt.

(** [T.nnet.softmax] of one row. *)
Definition softmax (row : list R) : list R :=
  map (fun x => exp x / Rsum (map exp row)) row.

(** ** GraphState (fields of one batch of graphs) *)

Record GraphState : Type := mkGraphState {
  node_strengths : list (list R);               (* (n_batch, n_nodes) *)
  node_ids : list (list (list R));              (* (n_batch, n_nodes, num_node_ids) *)
  node_states : list (list (list R));           (* (n_batch, n_nodes, node_state_size) *)
  edge_strengths : list (list (list (list R)))  (* (n_batch, n_nodes, n_nodes, num_edge_types) *)
}.

(** Modelled from the spec: [GraphState.n_batch] and [GraphState.n_nodes]
    (graph_state.py), the lengths of axes 0 and 1 of [node_strengths]. *)
Definition n_batch (g : GraphState) : nat := length (node_strengths g).
Definition n_nodes (g : GraphState) : nat :=
  match node_strengths g with
  | [] => 0%nat
  | row :: _ => length row
  end.

(** ** AggregateRepresentationTransformation *)

Section AggregateRepresentation.

(** [util.EPSILON], a small positive constant. *)
Variable EPSILON : R.

(** Modelled from the spec: [util.do_layer], the affine map
    [activation_fn(T.dot(ipt, weights) + biases)]. *)
Definition do_layer (activation_fn : R -> R)
           (ipt weights : list (list R)) (biases : list R)
  : list (list R) :=
  map (fun row => map activation_fn (map2 Rplus row biases))
      (T_dot (length biases) ipt weights).

(** The transformation's fields. *)
Variable representation_width : nat.
Variable representation_W : list (list R).
Variable representation_b : list R.

(** The activation of one node: the affine map at the node's observation
    [[node_ids, node_states]]. *)
Definition node_activation (obs : list R) : list R :=
  nth 0 (do_layer (fun x => x) [obs] representation_W representation_b) [].

Definition flat_obs (gstate : GraphState) : list (list R) :=
  map2 (@app R) (flatten_rows (node_ids gstate))
                (flatten_rows (node_states gstate)).

Definition flat_activations (gstate : GraphState) : list (list R) :=
  do_layer (fun x => x) (flat_obs gstate) representation_W representation_b.

Definition activations (gstate : GraphState) : list (list (list R)) :=
  reshape3 (n_batch gstate) (n_nodes gstate) (flat_activations gstate).

Definition activation_strengths (gstate : GraphState) : list (list R) :=
  map (map (fun a => nth 0 a 0)) (activations gstate).

Definition existence_penalty (gstate : GraphState) : list (list R) :=
  map (map (fun s => ln (s + EPSILON))) (node_strengths gstate).

Definition selector (gstate : GraphState) : list (list R) :=
  map softmax
      (map2 (map2 Rplus) (activation_strengths gstate)
            (existence_penalty gstate)).

Definition representations (gstate : GraphState) : list (list (list R)) :=
  map (map (fun a => map tanh (tl a))) (activations gstate).

Definition process (gstate : GraphState) : list (list R) :=
  map2 (fun sel reps =>
          vsum representation_width
               (map2 (fun s r => map (Rmult s) r) sel reps))
       (selector gstate) (representations gstate).

(** The activations of the nodes of batch element [i]. *)
Definition node_activations (g : GraphState) (i : nat) : list (list R) :=
  map2 (fun ids st => node_activation (ids ++ st))
       (nth i (node_ids g) []) (nth i (node_states g) []).

(** The unnormalised attention weight of node [j] when node [n] has
    strength 1 and every other node strength 0. *)
Definition one_node_weight (acts : list (list R)) (n j : nat) : R :=
  (if (j =? n)%nat then 1 + EPSILON else EPSILON)
  * exp (nth 0 (nth j acts []) 0).

End AggregateRepresentation.

(** The shapes of the fields that [process] reads. *)
Definition aggregate_shapes (g : GraphState) : Prop :=
  length (node_ids g) = n_batch g /\
  length (node_states g) = n_batch g /\
  Forall (fun r => length r = n_nodes g) (node_strengths g) /\
  Forall (fun r => length r = n_nodes g) (node_ids g) /\
  Forall (fun r => length r = n_nodes g) (node_states g).

(** The aggregate of one batch element as a function of its nodes, each
    given by its strength, identity and state: the [tanh] of the nodes'
    representations weighted by the softmax of their penalised logits. *)
Definition aggregate_nodes (EPSILON : R) (representation_width : nat)
           (W : list (list R)) (b : list R)
           (nodes : list (R * (list R * list R))) : list R :=
  let act := fun n : R * (list R * list R) =>
    node_activation W b (fst (snd n) ++ snd (snd n)) in
  let weight := fun n : R * (list R * list R) =>
    exp (nth 0 (act n) 0 + ln (fst n + EPSILON)) in
  let total := Rsum (map weight nodes) in
  vsum representation_width
       (map (fun n => map (fun x => weight n / total * tanh x) (tl (act n)))
            nodes).

(** The nodes of batch element [i]. *)
Definition nodes_of (g : GraphState) (i : nat)
  : list (R * (list R * list R)) :=
  combine (nth i (node_strengths g) [])
          (combine (nth i (node_ids g) []) (nth i (node_states g) [])).

(** A batch of one graph with two nodes, the first of strength 1 and the
    second of strength 0, and an aggregator with [representation_width = 1]. *)
Definition two_node_state : GraphState :=
  mkGraphState [[1; 0]] [[[1]; [1]]] [[[0]; [1]]]
               [[[[0]; [0]]; [[0]; [0]]]].
Definition example_W : list (list R) := [[0; 0]; [0; 1]].
Definition example_b : list R := [0; 0].
Definition example_EPSILON : R := 1 / 100000000.

(** ** Library functions used by [model.py] *)

(** [itertools.permutations(iterable, r)]: the [r]-length arrangements of
    the elements of [l], in lexicographic order of their positions. *)
Fixpoint selections {A : Type} (l : list A) : list (A * list A) :=
  match l with
  | [] => []
  | x :: xs => (x, xs) :: map (fun yr => (fst yr, x :: snd yr)) (selections xs)
  end.

Fixpoint permutations_r {A : Type} (r : nat) (l : list A) : list (list A) :=
  match r with
  | O => [[]]
  | S r' =>
      flat_map (fun xr => map (cons (fst xr)) (permutations_r r' (snd xr)))
               (selections l)
  end.

Definition permutations {A : Type} (l : list A) : list (list A) :=
  permutations_r (length l) l.

(** [range(n)]. *)
Definition range (n : nat) : list nat := seq 0 n.

(** [T.max] along an axis that is not empty. *)
Definition T_max (row : list R) : R := MaxRlist row.

(** [T.argmax] along an axis: the first position holding the maximum. *)
Fixpoint T_argmax (row : list R) : nat :=
  match row with
  | [] => 0%nat
  | x :: rest =>
      match rest with
      | [] => 0%nat
      | _ => if Rle_dec (MaxRlist rest) x then 0%nat else S (T_argmax rest)
      end
  end.

(** [T.gammaln] at an integer argument [z >= 1]: [log((z-1)!)].  (At
    [z <= 0] the gamma function has poles; those arguments are outside this
    model.) *)
Definition T_gammaln (z : Z) : R := ln (INR (fact (Z.to_nat (z - 1)))).

(** [T.isclose(a, b)] with Theano's default tolerances. *)
Definition isclose_rtol : R := 1 / 100000.
Definition isclose_atol : R := 1 / 100000000.
Definition T_isclose (a b : R) : bool :=
  if Rle_dec (Rabs (a - b)) (isclose_atol + isclose_rtol * Rabs b)
  then true else false.

(** [T.cast(x, 'bool')]. *)
Definition cast_bool (x : R) : bool :=
  if Req_dec_T x 0 then false else true.

(** [T.nnet.binary_crossentropy(output, target)], elementwise. *)
Definition binary_crossentropy (output target : R) : R :=
  - (target * ln output + (1 - target) * ln (1 - output)).

(** [T.nnet.categorical_crossentropy(coding_dist, true_dist)] for one row. *)
Definition categorical_crossentropy (coding_dist true_dist : list R) : R :=
  - Rsum (map2 (fun t c => t * ln c) true_dist coding_dist).

(** [x.swapaxes(0,1)] (also [dimshuffle([1,0,...])]) of a tensor whose axis 1
    has length [n1]. *)
Definition swapaxes01 {A : Type} (n1 : nat) (t : list (list A))
  : list (list A) :=
  map (fun j =>
         flat_map (fun row => match nth_error row j with
                              | Some x => [x]
                              | None => []
                              end) t)
      (seq 0 n1).

(** Sums over the trailing axes of a tensor. *)
Definition Rsum2 (m : list (list R)) : R := Rsum (map Rsum m).
Definition Rsum3 (t : list (list (list R))) : R := Rsum (map Rsum2 t).

(** ** New-node matching loss and edge loss (the scoring code of [_iter_fn]) *)

Section Scoring.

(** [util.EPSILON]. *)
Variable EPSILON : R.

(** [util.independent_best] on one entry and [util.categorical_best] on
    one distribution (util.py is not part of the sources at hand). *)
Variable independent_best : R -> R.
Variable categorical_best : list R -> list R.

(** Modelled from the spec: [util.reduce_log_sum(tensor, 1)], the
    log-sum-exp along axis 1. *)
Definition reduce_log_sum (t : list (list R)) : list R :=
  map (fun row => ln (Rsum (map exp row))) t.

Variable new_nodes_per_iter : nat.

Definition perm_idxs : list (list nat) :=
  permutations (range new_nodes_per_iter).

(** [x[:, perm_idxs]] (advanced indexing along axis 1).  Every index is
    below [new_nodes_per_iter], the length of axis 1 of [x]. *)
Definition index_perms {A : Type} (d : A) (x : list (list A))
  : list (list (list A)) :=
  map (fun row => map (map (fun i => nth i row d)) perm_idxs) x.

Definition bernoulli_ll (c s : R) : R :=
  c * ln (s + EPSILON) + (1 - c) * ln (1 - s + EPSILON).

Definition categorical_ll (c x : R) : R := c * ln (x + EPSILON).

(** [permuted_correct_str * T.log(ext_new_str + EPSILON)
     + (1-permuted_correct_str) * T.log(1-ext_new_str + EPSILON)];
    [ext_new_str] is [new_strengths] broadcast along the permutation axis. *)
Definition strength_ll (permuted_correct_str : list (list (list R)))
           (new_strengths : list (list R)) : list (list (list R)) :=
  map2 (fun pcs ns => map (fun pc => map2 bernoulli_ll pc ns) pcs)
       permuted_correct_str new_strengths.

(** [permuted_correct_ids * T.log(ext_new_ids + EPSILON)]. *)
Definition ids_ll (permuted_correct_ids : list (list (list (list R))))
           (new_ids : list (list (list R))) : list (list (list (list R))) :=
  map2 (fun pci ni => map (fun pc => map2 (map2 categorical_ll) pc ni) pci)
       permuted_correct_ids new_ids.

(** [T.sum(strength_ll, axis=2) + T.sum(ids_ll, axis=[2,3])]. *)
Definition reduced_perm_lls
           (new_strengths : list (list R)) (new_ids : list (list (list R)))
           (correct_new_strengths : list (list R))
           (correct_new_node_ids : list (list (list R))) : list (list R) :=
  let permuted_correct_str := index_perms 0 correct_new_strengths in
  let permuted_correct_ids := index_perms [] correct_new_node_ids in
  map2 (map2 Rplus)
       (map (map Rsum) (strength_ll permuted_correct_str new_strengths))
       (map (map Rsum2) (ids_ll permuted_correct_ids new_ids)).

Definition node_loss (best_node_match_only : bool)
           (new_strengths : list (list R)) (new_ids : list (list (list R)))
           (correct_num_new_nodes : list Z)
           (correct_new_strengths : list (list R))
           (correct_new_node_ids : list (list (list R))) : list R :=
  let lls := reduced_perm_lls new_strengths new_ids
                              correct_new_strengths correct_new_node_ids in
  if best_node_match_only then
    map (fun row => - T_max row) lls
  else
    let full_ll := reduce_log_sum lls in
    let log_rep_factor :=
      map (fun c => T_gammaln (Z.of_nat new_nodes_per_iter - c + 1))
          correct_num_new_nodes in
    let scaled_ll := map2 Rminus full_ll log_rep_factor in
    map Ropp scaled_ll.

Definition node_accuracy
           (new_strengths : list (list R)) (new_ids : list (list (list R)))
           (correct_new_strengths : list (list R))
           (correct_new_node_ids : list (list (list R))) : list bool :=
  let lls := reduced_perm_lls new_strengths new_ids
                              correct_new_strengths correct_new_node_ids in
  let best_match_idx := map T_argmax lls in
  let best_correct_str :=
    map2 (fun pcs i => nth i pcs [])
         (index_perms 0 correct_new_strengths) best_match_idx in
  let best_correct_ids :=
    map2 (fun pci i => nth i pci [])
         (index_perms [] correct_new_node_ids) best_match_idx in
  let snapped_strengths := map (map independent_best) new_strengths in
  let snapped_ids :=
    map2 (map2 (fun ids s => map (fun x => x * s) ids))
         (map (map categorical_best) new_ids) snapped_strengths in
  let close_strengths :=
    map (forallb (fun b => b))
        (map2 (map2 T_isclose) best_correct_str snapped_strengths) in
  let close_ids :=
    map (forallb (forallb (fun b => b)))
        (map2 (map2 (map2 T_isclose)) best_correct_ids snapped_ids) in
  map2 andb close_strengths close_ids.

(** The log-likelihood of one batch element's candidates when candidate
    slot [i] is matched with the ground-truth slot [sigma[i]]: the Bernoulli
    terms of the strengths plus the categorical terms of the identities. *)
Definition permutation_ll (new_strengths : list R) (new_ids : list (list R))
           (correct_strengths : list R) (correct_ids : list (list R))
           (sigma : list nat) : R :=
  Rsum (map2 (fun j s => bernoulli_ll (nth j correct_strengths 0) s)
             sigma new_strengths)
  + Rsum (map2 (fun j ids =>
                  Rsum (map2 categorical_ll (nth j correct_ids []) ids))
               sigma new_ids).

(** The shapes of the tensors that the new-node matching reads, for a batch
    of [batch] elements. *)
Definition node_matching_shapes (batch : nat)
           (new_strengths : list (list R)) (new_ids : list (list (list R)))
           (correct_num_new_nodes : list Z)
           (correct_new_strengths : list (list R))
           (correct_new_node_ids : list (list (list R))) : Prop :=
  length new_strengths = batch /\ length new_ids = batch /\
  length correct_num_new_nodes = batch /\
  length correct_new_strengths = batch /\
  length correct_new_node_ids = batch /\
  Forall (fun r => length r = new_nodes_per_iter) new_strengths /\
  Forall (fun r => length r = new_nodes_per_iter) new_ids /\
  Forall (fun r => length r = new_nodes_per_iter) correct_new_strengths /\
  Forall (fun r => length r = new_nodes_per_iter) correct_new_node_ids.

(** One term of the edge loss: the log-likelihood of the ground-truth edge
    of type [t] from node [i] to node [j] in batch element [b], times the
    strengths of the two nodes. *)
Definition edge_term (gstate : GraphState)
           (correct_edges : list (list (list (list R))))
           (b i j t : nat) : R :=
  bernoulli_ll (nth t (nth j (nth i (nth b correct_edges []) []) []) 0)
               (nth t (nth j (nth i (nth b (edge_strengths gstate) []) [])
                           []) 0)
  * nth i (nth b (node_strengths gstate) []) 0
  * nth j (nth b (node_strengths gstate) []) 0.

(** [correct_edges[:,:n,:n,:]]. *)
Definition crop_edges (n : nat) (correct_edges : list (list (list (list R))))
  : list (list (list (list R))) :=
  map (fun m => map (firstn n) (firstn n m)) correct_edges.

Definition edge_lls (cropped_correct_edges strengths
                     : list (list (list (list R))))
  : list (list (list (list R))) :=
  map2 (map2 (map2 (map2 bernoulli_ll))) cropped_correct_edges strengths.

(** [x * util.shape_padaxes(node_strengths,[2,3])]: entry [b,i,j,t] is
    multiplied by the strength of node [i]. *)
Definition mul_mask_src (x : list (list (list (list R))))
           (strengths : list (list R)) : list (list (list (list R))) :=
  map2 (fun xb sb => map2 (fun row si => map (map (fun v => v * si)) row)
                          xb sb)
       x strengths.

(** [x * util.shape_padaxes(node_strengths,[1,3])]: entry [b,i,j,t] is
    multiplied by the strength of node [j]. *)
Definition mul_mask_dest (x : list (list (list (list R))))
           (strengths : list (list R)) : list (list (list (list R))) :=
  map2 (fun xb sb => map (fun row => map2 (fun col sj =>
                                             map (fun v => v * sj) col)
                                          row sb)
                         xb)
       x strengths.

Definition masked_edge_lls (gstate : GraphState)
           (correct_edges : list (list (list (list R))))
  : list (list (list (list R))) :=
  let cropped_correct_edges := crop_edges (n_nodes gstate) correct_edges in
  mul_mask_dest
    (mul_mask_src (edge_lls cropped_correct_edges (edge_strengths gstate))
                  (node_strengths gstate))
    (node_strengths gstate).

(** [-T.sum(masked_edge_lls, axis=[1,2,3])]. *)
Definition edge_loss (gstate : GraphState)
           (correct_edges : list (list (list (list R)))) : list R :=
  map (fun m => - Rsum3 m) (masked_edge_lls gstate correct_edges).

(** [T.invert(T.cast(mask_src * mask_dest,'bool'))], shape
    [(n_batch, n_nodes, n_nodes, 1)] with the last axis dropped. *)
Definition ok_mask (strengths : list (list R)) : list (list (list bool)) :=
  map (fun sb => map (fun si => map (fun sj => negb (cast_bool (si * sj)))
                                    sb)
                     sb)
      strengths.

Definition edge_accuracy (gstate : GraphState)
           (correct_edges : list (list (list (list R)))) : list bool :=
  let cropped_correct_edges := crop_edges (n_nodes gstate) correct_edges in
  let snapped_edges :=
    map (map (map (map independent_best))) (edge_strengths gstate) in
  let close_edges :=
    map2 (map2 (map2 (map2 T_isclose))) cropped_correct_edges snapped_edges in
  map (forallb (forallb (forallb (fun b => b))))
      (map2 (map2 (map2 (fun close ok => map (fun c => orb c ok) close)))
            close_edges (ok_mask (node_strengths gstate))).

(** Whether the snapped edge of type [t] from node [i] to node [j] in
    batch element [b] counts as correct: it is close to the ground truth,
    or one of the two nodes does not exist. *)
Definition edge_ok (gstate : GraphState)
           (correct_edges : list (list (list (list R))))
           (b i j t : nat) : bool :=
  T_isclose (nth t (nth j (nth i (nth b correct_edges []) []) []) 0)
            (independent_best
               (nth t (nth j (nth i (nth b (edge_strengths gstate) []) [])
                           []) 0))
  || negb (cast_bool (nth i (nth b (node_strengths gstate) []) 0
                      * nth j (nth b (node_strengths gstate) []) 0)).

End Scoring.

(** The shapes of the tensors that the edge loss reads: a batch of [batch]
    graphs of [n] nodes with [t] edge types, and ground-truth edges padded
    to [p >= n] nodes. *)
Definition edge_shapes (batch n t p : nat) (g : GraphState)
           (correct_edges : list (list (list (list R)))) : Prop :=
  n_batch g = batch /\ n_nodes g = n /\ (n <= p)%nat /\
  (forall b, (b < batch)%nat -> length (nth b (node_strengths g) []) = n) /\
  tensor4_shape batch n n t (edge_strengths g) /\
  tensor4_shape batch p p t correct_edges.

(** ** GraphState operations

    [graph_state.py] is not among the sources at hand; its operations follow
    the specification's data model. *)

Record GraphStateSpec : Type := mkGraphStateSpec {
  num_node_ids : nat;
  node_state_size : nat;
  num_edge_types : nat
}.

Definition zeros (n : nat) : list R := repeat 0 n.

Definition one_hot (n i : nat) : list R :=
  map (fun j => if Nat.eqb j i then 1 else 0) (seq 0 n).

(** Modelled from the spec: [GraphState.create_empty] (graph_state.py), a
    state with [n_nodes = 0]. *)
Definition create_empty (batch : nat) (spec : GraphStateSpec) : GraphState :=
  mkGraphState (repeat [] batch) (repeat [] batch) (repeat [] batch)
               (repeat [] batch).

(** Modelled from the spec: [GraphState.create_full_unique] (graph_state.py):
    [n_nodes = num_ids], each node's identity is the one-hot basis vector for
    its index, strength 1, state zero (and no edges). *)
Definition create_full_unique (batch : nat) (spec : GraphStateSpec)
  : GraphState :=
  let n := num_node_ids spec in
  mkGraphState
    (repeat (repeat 1 n) batch)
    (repeat (map (one_hot n) (seq 0 n)) batch)
    (repeat (repeat (zeros (node_state_size spec)) n) batch)
    (repeat (repeat (repeat (zeros (num_edge_types spec)) n) n) batch).

(** Modelled from the spec: [GraphState.with_additional_nodes]
    (graph_state.py): [k] nodes are appended; their states are zero and the
    edge tensor is zero-padded for the new rows and columns.  [spec] stands
    for the widths Theano reads off the tensors' shapes. *)
Definition with_additional_nodes (spec : GraphStateSpec) (g : GraphState)
           (new_strengths : list (list R)) (new_ids : list (list (list R)))
  : GraphState :=
  let k := match new_strengths with [] => 0%nat | row :: _ => length row end in
  let n := n_nodes g in
  let no_edge := zeros (num_edge_types spec) in
  mkGraphState
    (map2 (@app R) (node_strengths g) new_strengths)
    (map2 (@app (list R)) (node_ids g) new_ids)
    (map (fun st => st ++ repeat (zeros (node_state_size spec)) k)
         (node_states g))
    (map (fun m => map (fun row => row ++ repeat no_edge k) m
                   ++ repeat (repeat no_edge (n + k)) k)
         (edge_strengths g)).

(** Modelled from the spec: [GraphState.with_updates] (graph_state.py),
    functional field replacement, for the two fields [model.py] replaces. *)
Definition with_updates_edge_strengths (g : GraphState)
           (e : list (list (list (list R)))) : GraphState :=
  mkGraphState (node_strengths g) (node_ids g) (node_states g) e.

Definition with_updates_node_states (g : GraphState)
           (s : list (list (list R))) : GraphState :=
  mkGraphState (node_strengths g) (node_ids g) s (edge_strengths g).

(** ** Values that cross the boundary of [theano.scan] *)

(** A tensor of unknown rank (a dropout mask). *)
#[warnings="-register-all"]
Inductive Tensor : Type :=
| Scalar (x : R)
| Stack (rows : list Tensor).

(** The slices of a tensor along axis 0. *)
Definition axis0 (t : Tensor) : list Tensor :=
  match t with
  | Scalar _ => []
  | Stack rows => rows
  end.

(** The entries of the Python lists [sequences], [outputs_info], [stuff]
    and [retvals]. *)
Inductive Slot : Type :=
| Tensor1 (x : list R)
| Tensor2 (x : list (list R))
| Tensor3 (x : list (list (list R)))
| Tensor4 (x : list (list (list (list R))))
| ITensor1 (x : list Z)
| BTensor1 (x : list bool)
| IScalar (n : nat)
| Mask (m : Tensor).

Definition pad_to {A : Type} (n : nat) (d : A) (l : list A) : list A :=
  l ++ repeat d (n - length l).

(** The fields of a state zero-padded to [pad_size] nodes: padding nodes
    have strength zero, a zero identity and state, and no edges. *)
Definition padded_state (spec : GraphStateSpec) (pad_size : nat)
           (g : GraphState) : GraphState :=
  let no_edge := zeros (num_edge_types spec) in
  mkGraphState
    (map (pad_to pad_size 0) (node_strengths g))
    (map (pad_to pad_size (zeros (num_node_ids spec))) (node_ids g))
    (map (pad_to pad_size (zeros (node_state_size spec))) (node_states g))
    (map (fun m => pad_to pad_size (repeat no_edge pad_size)
                          (map (pad_to pad_size no_edge) m))
         (edge_strengths g)).

(** Modelled from the spec: [GraphState.flatten_to_const_size]
    (graph_state.py): the four fields zero-padded to [pad_size] nodes,
    followed by the true node count. *)
Definition flatten_to_const_size (spec : GraphStateSpec) (pad_size : nat)
           (g : GraphState) : list Slot :=
  let padded := padded_state spec pad_size g in
  [ Tensor2 (node_strengths padded);
    Tensor3 (node_ids padded);
    Tensor3 (node_states padded);
    Tensor4 (edge_strengths padded);
    IScalar (n_nodes g) ].


(** Modelled from the spec: [GraphState.unflatten_from_const_size]
    (graph_state.py): the padded fields cropped back to the node count. *)
Definition unflatten_from_const_size (flat : list Slot) : option GraphState :=
  match flat with
  | [Tensor2 s; Tensor3 ids; Tensor3 st; Tensor4 e; IScalar n] =>
      Some (mkGraphState (map (firstn n) s) (map (firstn n) ids)
                         (map (firstn n) st)
                         (map (fun m => map (firstn n) (firstn n m)) e))
  | _ => None
  end.

(** ** theano.scan *)

Definition obind {A B : Type} (x : option A) (k : A -> option B) : option B :=
  match x with
  | Some a => k a
  | None => None
  end.

Notation "x <- e ;; k" := (obind e (fun x => k))
  (at level 61, e at next level, right associativity).
Notation "' p <- e ;; k" := (obind e (fun p => k))
  (at level 61, p pattern, e at next level, right associativity).

(** The number of steps: the length of the shortest sequence. *)
Definition n_steps (sequences : list (list Slot)) : nat :=
  match sequences with
  | [] => 0%nat
  | s :: rest => fold_left Nat.min (map (@length Slot) rest) (length s)
  end.

(** The entries of [outs] that are fed back to the next step: those whose
    [outputs_info] entry is an initial value and not [None]. *)
Fixpoint recurrent_outputs (outputs_info : list (option Slot))
         (outs : list Slot) : list Slot :=
  match outputs_info, outs with
  | Some _ :: oi, o :: os => o :: recurrent_outputs oi os
  | None :: oi, _ :: os => recurrent_outputs oi os
  | _, _ => []
  end.

Definition initial_outputs (outputs_info : list (option Slot)) : list Slot :=
  flat_map (fun oi => match oi with Some v => [v] | None => [] end)
           outputs_info.

(** One call of [fn] per step, on the step's slice of every sequence, the
    values fed back from the step before and the non-sequences. *)
Fixpoint scan_loop (fn : list Slot -> option (list Slot))
         (outputs_info : list (option Slot)) (non_sequences : list Slot)
         (slices : list (list Slot)) (carried : list Slot)
  : option (list (list Slot)) :=
  match slices with
  | [] => Some []
  | sl :: rest =>
      outs <- fn (sl ++ carried ++ non_sequences) ;;
      more <- scan_loop fn outputs_info non_sequences rest
                        (recurrent_outputs outputs_info outs) ;;
      Some (outs :: more)
  end.

(** [theano.scan(fn, sequences, outputs_info, non_sequences)]: the result
    has one entry per output of [fn], holding that output for every step. *)
Definition theano_scan (fn : list Slot -> option (list Slot))
           (sequences : list (list Slot)) (outputs_info : list (option Slot))
           (non_sequences : list Slot) : option (list (list Slot)) :=
  rows <- scan_loop fn outputs_info non_sequences
                    (swapaxes01 (n_steps sequences) sequences)
                    (initial_outputs outputs_info) ;;
  Some (swapaxes01 (length outputs_info) rows).

(** ** Python lists and dictionaries *)

(** [l[-1]]. *)
Definition py_last {A : Type} (l : list A) : option A :=
  nth_error l (length l - 1).

(** [l[:-n]] and [l[-n:]] for [n > 0]. *)
Definition py_drop_last {A : Type} (n : nat) (l : list A) : list A :=
  firstn (length l - n) l.
Definition py_take_last {A : Type} (n : nat) (l : list A) : list A :=
  skipn (length l - n) l.

(** [[f(x) for x in l]] where [f] may raise. *)
Fixpoint traverse {A B : Type} (f : A -> option B) (l : list A)
  : option (list B) :=
  match l with
  | [] => Some []
  | x :: xs => y <- f x ;; ys <- traverse f xs ;; Some (y :: ys)
  end.

(** [d[key] = value] on a dictionary, which keeps insertion order. *)
Fixpoint dict_set (key : String.string) (value : R)
         (d : list (String.string * R)) : list (String.string * R) :=
  match d with
  | [] => [(key, value)]
  | (k, v) :: rest =>
      if String.eqb k key then (k, value) :: rest
      else (k, v) :: dict_set key value rest
  end.

Fixpoint dict_get (key : String.string) (d : list (String.string * R))
  : option R :=
  match d with
  | [] => None
  | (k, v) :: rest => if String.eqb k key then Some v else dict_get key rest
  end.

(** Reading a slot at the type the code uses it at. *)
Definition as_tensor1 (s : Slot) : option (list R) :=
  match s with Tensor1 x => Some x | _ => None end.
Definition as_tensor2 (s : Slot) : option (list (list R)) :=
  match s with Tensor2 x => Some x | _ => None end.
Definition as_tensor3 (s : Slot) : option (list (list (list R))) :=
  match s with Tensor3 x => Some x | _ => None end.
Definition as_tensor4 (s : Slot) : option (list (list (list (list R)))) :=
  match s with Tensor4 x => Some x | _ => None end.
Definition as_btensor1 (s : Slot) : option (list bool) :=
  match s with BTensor1 x => Some x | _ => None end.
Definition as_iscalar (s : Slot) : option nat :=
  match s with IScalar n => Some n | _ => None end.
Definition as_mask (s : Slot) : option Tensor :=
  match s with Mask m => Some m | _ => None end.

(** [T.all(x, 0)] for a boolean matrix with [cols] columns. *)
Definition all_axis0 (cols : nat) (x : list (list bool)) : list bool :=
  map (fun b => forallb (fun row => nth b row true) x) (seq 0 cols).

(** [T.sum(x, dtype='floatX')] for a boolean vector. *)
Definition count_true (x : list bool) : R :=
  Rsum (map (fun b : bool => if b then 1 else 0) x).

(** [T.extra_ops.repeat(x, n, 0)]. *)
Definition repeat_axis0 {A : Type} (n : nat) (x : list A) : list A :=
  flat_map (fun row => repeat row n) x.

(** [x.swapaxes(0,1).reshape([-1] + x.shape[2:])] for the per-step values
    [x] of one field of the flattened graph state. *)
Definition merge_steps (batch : nat) (col : list Slot) : option Slot :=
  match col with
  | Tensor2 _ :: _ =>
      xs <- traverse as_tensor2 col ;;
      Some (Tensor2 (concat (swapaxes01 batch xs)))
  | Tensor3 _ :: _ =>
      xs <- traverse as_tensor3 col ;;
      Some (Tensor3 (concat (swapaxes01 batch xs)))
  | Tensor4 _ :: _ =>
      xs <- traverse as_tensor4 col ;;
      Some (Tensor4 (concat (swapaxes01 batch xs)))
  | _ => None
  end.

(** ** The model's configuration *)

Inductive ModelOutputFormat : Type := category | subset | sequence.

(** The value passed as [output_format]: a member of the enumeration, or any
    other Python object. *)
Inductive OutputFormatArg : Type :=
| Member (f : ModelOutputFormat)
| NotMember (repr : String.string).


(** [output_format == ModelOutputFormat.f]. *)
Definition output_format_is (v : OutputFormatArg) (f : ModelOutputFormat)
  : bool :=
  match v, f with
  | Member category, category => true
  | Member subset, subset => true
  | Member sequence, sequence => true
  | _, _ => false
  end.

(** The arguments of [Model.__init__], which it stores as attributes. *)
Record Config : Type := mkConfig {
  num_input_words : nat;
  num_output_words : nat;
  graphspec : GraphStateSpec;   (* num_node_ids, node_state_size, num_edge_types *)
  input_repr_size : nat;
  output_repr_size : nat;
  propose_repr_size : nat;
  propagate_repr_size : nat;
  new_nodes_per_iter : nat;
  output_format : OutputFormatArg;
  final_propagate : nat;
  word_node_mapping : list (nat * nat);
  dynamic_nodes : bool;
  nodes_mutable : bool;
  wipe_node_state : bool;
  best_node_match_only : bool;
  intermediate_propagate : nat;
  sequence_representation : bool;
  dropout_keep : R;
  use_old_aggregate : bool;
  train_with_graph : bool;
  train_with_query : bool;
  setup : bool;
  check_mode : option String.string;
  learning_rate : R
}.

(** [len(self.word_node_mapping) > 0]. *)
Definition has_word_node_mapping (self : Config) : bool :=
  (0 <? length (word_node_mapping self))%nat.

(** The inputs of the compiled functions. *)
Record Inputs : Type := mkInputs {
  input_words : list (list (list Z));                     (* (n_batch, n_sentence, sentence_len) *)
  query_words : list (list Z);                            (* (n_batch, query_len) *)
  correct_output : list (list (list R));                  (* (n_batch, ?, num_output_words) *)
  graph_num_new_nodes : list (list Z);                    (* (n_batch, n_sentence) *)
  graph_new_node_strengths : list (list (list R));        (* (n_batch, n_sentence, new_nodes_per_iter) *)
  graph_new_node_ids : list (list (list (list R)));       (* (n_batch, n_sentence, new_nodes_per_iter, num_node_ids) *)
  graph_new_edges : list (list (list (list (list R))))    (* (n_batch, n_sentence, pad, pad, num_edge_types) *)
}.

(** The ground truth of one step, as [_scan_fn] hands it to [_iter_fn]. *)
Record CorrectGraph : Type := mkCorrectGraph {
  correct_num_new_nodes : list Z;
  correct_new_strengths : list (list R);
  correct_new_node_ids : list (list (list R));
  correct_edges : list (list (list (list R)))
}.

(** What [_iter_fn] returns: the state alone, or the state with the step's
    losses and accuracy. *)
Inductive IterResult : Type :=
| IterState (gstate : GraphState)
| IterScored (gstate : GraphState) (node_loss : option (list R))
             (edge_loss : list R) (overall_accuracy : option (list bool)).

(** What one supervised step hands back to the scan: the padding size and
    the state it flattens, the step's losses and its accuracy. *)
Record ScoredStep : Type := mkScoredStep {
  step_pad : nat;
  step_gstate : GraphState;
  step_node_loss : option (list R);
  step_edge_loss : list R;
  step_accuracy : option (list bool)
}.

(** The losses and the accuracy of a step that has them. *)
Definition step_node_loss_value (st : ScoredStep) : list R :=
  match step_node_loss st with Some l => l | None => [] end.
Definition step_accuracy_value (st : ScoredStep) : list bool :=
  match step_accuracy st with Some a => a | None => [] end.

(** What [_build] returns ([full_flat_gstates] and [max_seq_len], which only
    the test functions read, are left out). *)
Record BuildResult (Rng : Type) : Type := mkBuildResult {
  full_loss : R;
  final_output : list (list (list R));
  graph_accurate_list : option (list bool);
  info : list (String.string * R);
  srng_after : Rng
}.
Arguments mkBuildResult {Rng}.
Arguments full_loss {Rng}.
Arguments final_output {Rng}.
Arguments graph_accurate_list {Rng}.
Arguments info {Rng}.
Arguments srng_after {Rng}.

(** ** Model.setup: [_iter_fn], [_scan_fn], [_build] and the train function *)

(** The collaborators of [Model]: the constants and helpers of [util], the
    transformation modules ([transformation_modules]), the sampling of
    dropout masks from the random stream [self.srng], and the optimizer
    ([adam.py]).  [Params] holds the values of the shared parameters,
    [OptState] the optimizer's own state and [Rng] the state of the random
    stream. *)
Class Collaborators : Type := {
  Params : Type;
  OptState : Type;
  Rng : Type;
  EPSILON : R;
  independent_best : R -> R;
  categorical_best : list R -> list R;
  input_transformer_process :
    Params -> list (list Z) -> list (list R) * list (list (list R));
  node_state_updater_process :
    Params -> GraphState -> list (list R) -> option (list Tensor) ->
    GraphState * option (list Tensor);
  direct_reference_updater_process :
    Params -> GraphState -> option (list (list (list R))) ->
    option (list Tensor) -> GraphState * option (list Tensor);
  intermediate_propagator_process_multiple :
    Params -> GraphState -> nat -> option (list Tensor) ->
    GraphState * option (list Tensor);
  new_node_adder_get_candidates :
    Params -> GraphState -> list (list R) -> nat -> option (list Tensor) ->
    list (list R) * list (list (list R)) * option (list Tensor);
  edge_state_updater_process :
    Params -> GraphState -> list (list R) -> option (list Tensor) ->
    GraphState * option (list Tensor);
  query_node_state_updater_process :
    Params -> GraphState -> list (list R) -> option (list Tensor) ->
    GraphState * option (list Tensor);
  query_direct_reference_updater_process :
    Params -> GraphState -> option (list (list (list R))) ->
    option (list Tensor) -> GraphState * option (list Tensor);
  final_propagator_process_multiple :
    Params -> GraphState -> nat -> option (list Tensor) ->
    GraphState * option (list Tensor);
  aggregator_process :
    Params -> GraphState -> option (list Tensor) ->
    list (list R) * option (list Tensor);
  aggregate_summarizer_process :
    Params -> list (list (list R)) -> option (list Tensor) ->
    list (list R) * option (list Tensor);
  output_processor_process :
    Params -> list (list R) -> option nat -> list (list (list R));
  output_processor_snap_to_best :
    list (list (list R)) -> list (list (list R));
  make_dropout_mask : list nat -> R -> Rng -> Tensor * Rng;
  node_state_updater_dropout_masks :
    Rng -> option Tensor -> list Tensor * Rng;
  direct_reference_updater_dropout_masks :
    Rng -> option Tensor -> list Tensor * Rng;
  intermediate_propagator_dropout_masks :
    Rng -> option Tensor -> list Tensor * Rng;
  new_node_adder_dropout_masks : Rng -> list Tensor * Rng;
  edge_state_updater_dropout_masks : Rng -> list Tensor * Rng;
  query_node_state_updater_dropout_masks :
    Rng -> option Tensor -> list Tensor * Rng;
  query_direct_reference_updater_dropout_masks :
    Rng -> option Tensor -> list Tensor * Rng;
  final_propagator_dropout_masks :
    Rng -> option Tensor -> list Tensor * Rng;
  aggregator_dropout_masks : Rng -> list Tensor * Rng;
  aggregate_summarizer_dropout_masks : Rng -> list Tensor * Rng;
  (** [Adam(loss, params, lr)]: the update of the parameters for a loss
      given as a function of them. *)
  Adam : (Params -> option R) -> Params -> OptState -> R -> Params * OptState
}.

Section Model.

Context {collaborators : Collaborators}.

(** The constructed model's attributes. *)
Variable self : Config.

Section Build.

(** The arguments of [_build] and the values it closes over. *)
Variable with_correct_graph snap_to_best using_dropout evaluate_accuracy
  : bool.
Variable params : Params.
Variable iter_dropouts : list Tensor.

Definition _iter_fn (input_repr : list (list R))
           (ref_matrix : option (list (list (list R))))
           (gstate : GraphState) (correct : option CorrectGraph)
           (dropout_masks : option (list Tensor)) : option IterResult :=
  let '(gstate, dropout_masks) :=
    if nodes_mutable self
    then node_state_updater_process params gstate input_repr dropout_masks
    else (gstate, dropout_masks) in
  let '(gstate, dropout_masks) :=
    if has_word_node_mapping self
    then direct_reference_updater_process params gstate ref_matrix
                                          dropout_masks
    else (gstate, dropout_masks) in
  let '(gstate, dropout_masks) :=
    if negb (intermediate_propagate self =? 0)%nat
    then intermediate_propagator_process_multiple
           params gstate (intermediate_propagate self) dropout_masks
    else (gstate, dropout_masks) in
  '(gstate, node_loss, node_accuracy, dropout_masks) <-
    (if dynamic_nodes self then
       let '(new_strengths, new_ids, dropout_masks) :=
         new_node_adder_get_candidates params gstate input_repr
                                       (new_nodes_per_iter self)
                                       dropout_masks in
       if with_correct_graph then
         c <- correct ;;
         let node_loss :=
           node_loss EPSILON (new_nodes_per_iter self)
                     (best_node_match_only self) new_strengths new_ids
                     (correct_num_new_nodes c) (correct_new_strengths c)
                     (correct_new_node_ids c) in
         let node_accuracy :=
           if evaluate_accuracy
           then Some (node_accuracy EPSILON independent_best
                                    categorical_best
                                    (new_nodes_per_iter self)
                                    new_strengths new_ids
                                    (correct_new_strengths c)
                                    (correct_new_node_ids c))
           else None in
         Some (with_additional_nodes (graphspec self) gstate
                                     (correct_new_strengths c)
                                     (correct_new_node_ids c),
               Some node_loss, node_accuracy, dropout_masks)
       else if snap_to_best then
         let snapped_strengths := map (map independent_best) new_strengths in
         let snapped_ids := map (map categorical_best) new_ids in
         Some (with_additional_nodes (graphspec self) gstate
                                     snapped_strengths snapped_ids,
               None, None, dropout_masks)
       else
         Some (with_additional_nodes (graphspec self) gstate
                                     new_strengths new_ids,
               None, None, dropout_masks)
     else Some (gstate, None, None, dropout_masks)) ;;
  let '(gstate, dropout_masks) :=
    edge_state_updater_process params gstate input_repr dropout_masks in
  if with_correct_graph then
    c <- correct ;;
    let cropped_correct_edges :=
      crop_edges (n_nodes gstate) (correct_edges c) in
    let edge_loss := edge_loss EPSILON gstate (correct_edges c) in
    let overall_accuracy :=
      if evaluate_accuracy then
        let edge_accuracy :=
          edge_accuracy independent_best gstate (correct_edges c) in
        Some (match node_accuracy with
              | None => edge_accuracy
              | Some node_accuracy => map2 andb node_accuracy edge_accuracy
              end)
      else None in
    Some (IterScored
            (with_updates_edge_strengths gstate cropped_correct_edges)
            node_loss edge_loss overall_accuracy)
  else if snap_to_best then
    let snapped_edges :=
      map (map (map (map independent_best))) (edge_strengths gstate) in
    Some (IterState (with_updates_edge_strengths gstate snapped_edges))
  else
    Some (IterState gstate).

(** [_scan_fn(input_repr, *stuff)], with
    [stuff = [ref_matrix?], [*correct_graph_stuff?], [dropout_masks?],
    *flat_graph_state, pad_graph_size]. *)
Definition _scan_fn (input_repr : Slot) (stuff : list Slot)
  : option (list Slot) :=
  input_repr <- as_tensor2 input_repr ;;
  '(ref_matrix, stuff) <-
    (if has_word_node_mapping self then
       match stuff with
       | Tensor3 m :: rest => Some (Some m, rest)
       | _ => None
       end
     else Some (None, stuff)) ;;
  '(correct, stuff) <-
    (if with_correct_graph then
       match stuff with
       | ITensor1 c_num_new_nodes :: Tensor2 c_new_strengths
           :: Tensor3 c_new_node_ids :: Tensor4 c_edges :: rest =>
           Some (Some (mkCorrectGraph c_num_new_nodes c_new_strengths
                                      c_new_node_ids c_edges), rest)
       | _ => None
       end
     else Some (None, stuff)) ;;
  '(dropout_masks, stuff) <-
    (if using_dropout then
       masks <- traverse as_mask (firstn (length iter_dropouts) stuff) ;;
       Some (Some masks, skipn (length iter_dropouts) stuff)
     else Some (None, stuff)) ;;
  let flat_graph_state := py_drop_last 1 stuff in
  pad_graph_size <- obind (py_last stuff) as_iscalar ;;
  gstate <- unflatten_from_const_size flat_graph_state ;;
  r <- _iter_fn input_repr ref_matrix gstate correct dropout_masks ;;
  match r with
  | IterScored gstate node_loss edge_loss overall_accuracy =>
      if with_correct_graph then
        let retvals :=
          flatten_to_const_size (graphspec self) pad_graph_size gstate in
        retvals <-
          (if dynamic_nodes self
           then node_loss <- node_loss ;;
                Some (retvals ++ [Tensor1 node_loss])
           else Some retvals) ;;
        let retvals := retvals ++ [Tensor1 edge_loss] in
        if evaluate_accuracy
        then overall_accuracy <- overall_accuracy ;;
             Some (retvals ++ [BTensor1 overall_accuracy])
        else Some retvals
      else None
  | IterState gstate =>
      if with_correct_graph then None
      else Some (flatten_to_const_size (graphspec self) pad_graph_size
                                       gstate)
  end.

(** A call of [_iter_fn] that returned the losses [node_loss] and
    [edge_loss] and the accuracy [overall_accuracy]. *)
Definition scored_step (node_loss : option (list R)) (edge_loss : list R)
           (overall_accuracy : option (list bool)) : Prop :=
  exists input_repr ref_matrix gstate correct dropout_masks gstate',
    _iter_fn input_repr ref_matrix gstate correct dropout_masks
    = Some (IterScored gstate' node_loss edge_loss overall_accuracy).

(** The function that [_build] hands to [theano.scan]: [_scan_fn], called
    with the step's arguments. *)
Definition scan_body (args : list Slot) : option (list Slot) :=
  match args with
  | input_repr :: stuff => _scan_fn input_repr stuff
  | [] => None
  end.

(** The values [_scan_fn] appends to the flattened state in a supervised
    step. *)
Definition scored_tail (node_loss : option (list R)) (edge_loss : list R)
           (overall_accuracy : option (list bool)) : list Slot :=
  (if dynamic_nodes self
   then match node_loss with Some l => [Tensor1 l] | None => [] end
   else [])
  ++ [Tensor1 edge_loss]
  ++ (if evaluate_accuracy
      then match overall_accuracy with Some a => [BTensor1 a] | None => [] end
      else []).

(** The values [_scan_fn] returns for a supervised step. *)
Definition scored_row (st : ScoredStep) : list Slot :=
  flatten_to_const_size (graphspec self) (step_pad st) (step_gstate st)
  ++ scored_tail (step_node_loss st) (step_edge_loss st) (step_accuracy st).

(** A supervised step whose losses and accuracy a call of [_iter_fn]
    returned. *)
Definition scored_step_ok (st : ScoredStep) : Prop :=
  scored_step (step_node_loss st) (step_edge_loss st) (step_accuracy st) /\
  (dynamic_nodes self = true -> step_node_loss st <> None) /\
  (evaluate_accuracy = true -> step_accuracy st <> None).

(** The columns that the scan returns for supervised steps after the five
    fields of the flattened states: the node losses (with dynamic nodes),
    the edge losses and (when evaluated) the accuracies. *)
Definition scored_columns (steps : list ScoredStep) : list (list Slot) :=
  (if dynamic_nodes self
   then [map (fun st => Tensor1 (step_node_loss_value st)) steps]
   else [])
  ++ [map (fun st => Tensor1 (step_edge_loss st)) steps]
  ++ (if evaluate_accuracy
      then [map (fun st => BTensor1 (step_accuracy_value st)) steps]
      else []).

End Build.

(** [x.shape[1]]. *)
Definition axis1_length {A : Type} (x : list (list A)) : nat :=
  match x with
  | [] => 0%nat
  | row :: _ => length row
  end.

(** The block [if using_dropout: ... else: ...] of [_build]: the masks for
    the recurrence, [states_mask], and the random stream afterwards. *)
Definition sample_iter_dropouts (using_dropout : bool) (srng : Rng)
  : list Tensor * option Tensor * Rng :=
  if using_dropout then
    let '(states_mask, srng) :=
      make_dropout_mask [node_state_size (graphspec self)]
                        (dropout_keep self) srng in
    let '(m1, srng) :=
      if nodes_mutable self
      then node_state_updater_dropout_masks srng (Some states_mask)
      else ([], srng) in
    let '(m2, srng) :=
      if has_word_node_mapping self
      then direct_reference_updater_dropout_masks srng (Some states_mask)
      else ([], srng) in
    let '(m3, srng) :=
      if negb (intermediate_propagate self =? 0)%nat
      then intermediate_propagator_dropout_masks srng (Some states_mask)
      else ([], srng) in
    let '(m4, srng) :=
      if dynamic_nodes self
      then new_node_adder_dropout_masks srng
      else ([], srng) in
    let '(m5, srng) := edge_state_updater_dropout_masks srng in
    (m1 ++ m2 ++ m3 ++ m4 ++ m5, Some states_mask, srng)
  else ([], None, srng).

Definition pad_graph_size_of (n_sentences : nat) : nat :=
  if dynamic_nodes self
  then (n_sentences * new_nodes_per_iter self + 1)%nat
  else num_node_ids (graphspec self).

(** The lists [sequences] and [outputs_info] that [_build] hands to
    [theano.scan]. *)
Definition scan_sequences (with_correct_graph using_dropout : bool)
           (inputs : Inputs) (input_reprs : list (list (list R)))
           (ref_matrices : list (list (list (list R))))
           (iter_dropouts : list Tensor) : list (list Slot) :=
  let n_sentences := axis1_length (input_words inputs) in
  let prepped_input := swapaxes01 n_sentences input_reprs in
  let sequences := [map Tensor2 prepped_input] in
  let sequences :=
    if has_word_node_mapping self
    then sequences ++ [map Tensor3 (swapaxes01 n_sentences ref_matrices)]
    else sequences in
  let sequences :=
    if with_correct_graph
    then sequences
           ++ [map ITensor1
                   (swapaxes01 (axis1_length (graph_num_new_nodes inputs))
                               (graph_num_new_nodes inputs));
               map Tensor2
                   (swapaxes01 (axis1_length (graph_new_node_strengths inputs))
                               (graph_new_node_strengths inputs));
               map Tensor3
                   (swapaxes01 (axis1_length (graph_new_node_ids inputs))
                               (graph_new_node_ids inputs));
               map Tensor4
                   (swapaxes01 (axis1_length (graph_new_edges inputs))
                               (graph_new_edges inputs))]
    else sequences in
  if using_dropout
  then sequences ++ map (fun m => map Mask (axis0 m)) iter_dropouts
  else sequences.

Definition scan_outputs_info (with_correct_graph evaluate_accuracy : bool)
           (n_batch n_sentences : nat) : list (option Slot) :=
  let initial_gstate :=
    if dynamic_nodes self
    then create_empty n_batch (graphspec self)
    else create_full_unique n_batch (graphspec self) in
  let outputs_info :=
    map (@Some Slot)
        (flatten_to_const_size (graphspec self)
                               (pad_graph_size_of n_sentences)
                               initial_gstate) in
  if with_correct_graph
  then outputs_info
         ++ (if dynamic_nodes self then [None] else [])
         ++ (if evaluate_accuracy then [None] else [])
         ++ [None]
  else outputs_info.

(** The reduction of the scan's outputs to the graph losses: the lines
    from [graph_accurate_list = None] to [all_flat_gstates = all_scan_out].
    Returns [all_flat_gstates], [graph_accurate_list], [avg_graph_loss]
    (when it is defined) and [info]. *)
Definition reduce_scan (with_correct_graph evaluate_accuracy : bool)
           (n_batch n_sentences : nat) (all_scan_out : list (list Slot))
  : option (list (list Slot) * option (list bool) * option R
            * list (String.string * R)) :=
  let info : list (String.string * R) := [] in
  if with_correct_graph then
    '(all_scan_out, graph_accurate_list, info) <-
      (if evaluate_accuracy then
         full_graph_accuracy <-
           obind (py_last all_scan_out) (traverse as_btensor1) ;;
         let all_scan_out := py_drop_last 1 all_scan_out in
         let graph_accurate_list := all_axis0 n_batch full_graph_accuracy in
         Some (all_scan_out, Some graph_accurate_list,
               dict_set "graph_accuracy"%string
                        (count_true graph_accurate_list / INR n_batch) info)
       else Some (all_scan_out, None, info)) ;;
    if dynamic_nodes self then
      let all_flat_gstates := py_drop_last 2 all_scan_out in
      match py_take_last 2 all_scan_out with
      | [node_loss; edge_loss] =>
          node_loss <- traverse as_tensor1 node_loss ;;
          edge_loss <- traverse as_tensor1 edge_loss ;;
          let reduced_node_loss := Rsum2 node_loss / INR n_batch in
          let reduced_edge_loss := Rsum2 edge_loss / INR n_batch in
          let avg_graph_loss :=
            (reduced_node_loss + reduced_edge_loss) / INR n_sentences in
          Some (all_flat_gstates, graph_accurate_list, Some avg_graph_loss,
                dict_set "edge_loss"%string reduced_edge_loss
                         (dict_set "node_loss"%string reduced_node_loss info))
      | _ => None
      end
    else
      let all_flat_gstates := py_drop_last 1 all_scan_out in
      edge_loss <- obind (py_last all_scan_out) (traverse as_tensor1) ;;
      let reduced_edge_loss := Rsum2 edge_loss / INR n_batch in
      let avg_graph_loss := reduced_edge_loss / INR n_sentences in
      Some (all_flat_gstates, graph_accurate_list, Some avg_graph_loss,
            dict_set "edge_loss"%string reduced_edge_loss info)
  else Some (all_scan_out, None, None, info).

(** A loss summed over steps and batch elements and divided by the batch
    size. *)
Definition reduced_loss (batch : nat) (losses : list (list R)) : R :=
  Rsum2 losses / INR batch.

(** What [_build] reports in [info] after supervised steps. *)
Definition scored_info (evaluate_accuracy : bool) (batch : nat)
           (steps : list ScoredStep) : list (String.string * R) :=
  (if evaluate_accuracy
   then [("graph_accuracy"%string,
          count_true (all_axis0 batch (map step_accuracy_value steps))
          / INR batch)]
   else [])
  ++ (if dynamic_nodes self
      then [("node_loss"%string,
             reduced_loss batch (map step_node_loss_value steps))]
      else [])
  ++ [("edge_loss"%string, reduced_loss batch (map step_edge_loss steps))].

(** The query-answer loss of an output: the summed cross-entropy against
    the correct output, divided by the batch size. *)
Definition query_loss_of (final_output correct_output : list (list (list R)))
           (batch : nat) : R :=
  (if output_format_is (output_format self) subset
   then Rsum3 (map2 (map2 (map2 binary_crossentropy)) final_output
                    correct_output)
   else Rsum (map2 categorical_crossentropy (concat final_output)
                   (concat correct_output)))
  / INR batch.

(** The block [if self.train_with_query: ... else: ...] of [_build]:
    [final_output], [query_loss] (when it is defined), [info] and the
    random stream afterwards. *)
Definition answer_query (snap_to_best : bool) (params : Params)
           (inputs : Inputs) (n_batch n_sentences : nat)
           (final_gstate : GraphState) (query_repr : list (list R))
           (query_ref_matrix : list (list (list R)))
           (states_mask : option Tensor)
           (info : list (String.string * R)) (srng : Rng)
  : list (list (list R)) * option R * list (String.string * R) * Rng :=
  if train_with_query self then
    let final_gstate :=
      if wipe_node_state self
      then with_updates_node_states
             final_gstate
             (map (map (map (fun _ => 0))) (node_states final_gstate))
      else final_gstate in
    let '(qnsu_dropout_masks, srng) :=
      query_node_state_updater_dropout_masks srng states_mask in
    let '(query_gstate, _) :=
      query_node_state_updater_process params final_gstate query_repr
                                       (Some qnsu_dropout_masks) in
    let '(query_gstate, srng) :=
      if has_word_node_mapping self then
        let '(qdru_dropout_masks, srng) :=
          query_direct_reference_updater_dropout_masks srng states_mask in
        let '(query_gstate, _) :=
          query_direct_reference_updater_process
            params query_gstate (Some query_ref_matrix)
            (Some qdru_dropout_masks) in
        (query_gstate, srng)
      else (query_gstate, srng) in
    let '(fp_dropout_masks, srng) :=
      final_propagator_dropout_masks srng states_mask in
    let '(propagated_gstate, _) :=
      final_propagator_process_multiple params query_gstate
                                        (final_propagate self)
                                        (Some fp_dropout_masks) in
    let '(agg_dropout_masks, srng) := aggregator_dropout_masks srng in
    let '(aggregated_repr, _) :=
      aggregator_process params propagated_gstate (Some agg_dropout_masks) in
    let '(aggregated_repr, srng) :=
      if sequence_representation self then
        let agg_repr_seq := reshape3 n_batch n_sentences aggregated_repr in
        let '(aggsum_dropout_masks, srng) :=
          aggregate_summarizer_dropout_masks srng in
        let '(aggregated_repr, _) :=
          aggregate_summarizer_process params agg_repr_seq
                                       (Some aggsum_dropout_masks) in
        (aggregated_repr, srng)
      else (aggregated_repr, srng) in
    let max_seq_len := axis1_length (correct_output inputs) in
    let final_output :=
      if output_format_is (output_format self) sequence
      then output_processor_process params aggregated_repr (Some max_seq_len)
      else output_processor_process params aggregated_repr None in
    let final_output :=
      if snap_to_best then output_processor_snap_to_best final_output
      else final_output in
    let query_loss :=
      if output_format_is (output_format self) subset then
        let elemwise_loss :=
          map2 (map2 (map2 binary_crossentropy)) final_output
               (correct_output inputs) in
        Rsum3 elemwise_loss
      else
        let flat_final_output := concat final_output in
        let flat_correct_output := concat (correct_output inputs) in
        let timewise_loss :=
          map2 categorical_crossentropy flat_final_output
               flat_correct_output in
        Rsum timewise_loss in
    let query_loss := query_loss / INR n_batch in
    (final_output, Some query_loss, dict_set "query_loss"%string query_loss info,
     srng)
  else ([], None, info, srng).

Definition _build (with_correct_graph snap_to_best using_dropout
                   evaluate_accuracy : bool)
           (params : Params) (inputs : Inputs) (srng : Rng)
  : option (BuildResult Rng) :=
  let n_batch := length (input_words inputs) in
  let n_sentences := axis1_length (input_words inputs) in
  let flat_input_words := concat (input_words inputs) in
  let '(flat_input_reprs, flat_ref_matrices) :=
    input_transformer_process params flat_input_words in
  let input_reprs := reshape3 n_batch n_sentences flat_input_reprs in
  let ref_matrices := reshape3 n_batch n_sentences flat_ref_matrices in
  let '(query_repr, query_ref_matrix) :=
    input_transformer_process params (query_words inputs) in
  let '(iter_dropouts, states_mask, srng) :=
    sample_iter_dropouts using_dropout srng in
  let pad_graph_size := pad_graph_size_of n_sentences in
  let sequences :=
    scan_sequences with_correct_graph using_dropout inputs input_reprs
                   ref_matrices iter_dropouts in
  let outputs_info :=
    scan_outputs_info with_correct_graph evaluate_accuracy n_batch
                      n_sentences in
  all_scan_out <-
    theano_scan
      (scan_body with_correct_graph snap_to_best using_dropout
                 evaluate_accuracy params iter_dropouts)
      sequences outputs_info [IScalar pad_graph_size] ;;
  '(all_flat_gstates, graph_accurate_list, avg_graph_loss, info) <-
    reduce_scan with_correct_graph evaluate_accuracy n_batch n_sentences
                all_scan_out ;;
  '(final_flat_gstate, query_repr, query_ref_matrix) <-
    (if sequence_representation self then
       merged <- traverse (merge_steps n_batch)
                          (py_drop_last 1 all_flat_gstates) ;;
       biggest <- obind (py_last all_flat_gstates) py_last ;;
       Some (merged ++ [biggest],
             repeat_axis0 n_sentences query_repr,
             repeat_axis0 n_sentences query_ref_matrix)
     else
       last_step <- traverse py_last all_flat_gstates ;;
       Some (last_step, query_repr, query_ref_matrix)) ;;
  final_gstate <- unflatten_from_const_size final_flat_gstate ;;
  let '(final_output, query_loss, info, srng) :=
    answer_query snap_to_best params inputs n_batch n_sentences final_gstate
                 query_repr query_ref_matrix states_mask info srng in
  let full_loss := 0 in
  full_loss <-
    (if with_correct_graph
     then avg_graph_loss <- avg_graph_loss ;; Some (full_loss + avg_graph_loss)
     else Some full_loss) ;;
  full_loss <-
    (if train_with_query self
     then query_loss <- query_loss ;; Some (full_loss + query_loss)
     else Some full_loss) ;;
  Some (mkBuildResult full_loss final_output graph_accurate_list info srng).

(** The shared state a training call reads and updates. *)
Record ModelState : Type := mkModelState {
  state_params : Params;
  state_opt : OptState;
  state_srng : Rng;
  learning_rate_var : R
}.

(** [self.train_fn]: the function compiled from
    [_build(self.train_with_graph, False, True, False)] with the updates
    [Adam(train_loss, self.params, lr=self.learning_rate_var)].  Its
    outputs are [[train_loss] + list(train_info.values())]. *)
Definition train_fn (st : ModelState) (inputs : Inputs)
  : option (list R * ModelState) :=
  r <- _build (train_with_graph self) false true false
              (state_params st) inputs (state_srng st) ;;
  let train_loss := fun params =>
    option_map full_loss
               (_build (train_with_graph self) false true false
                       params inputs (state_srng st)) in
  let '(params', opt') :=
    Adam train_loss (state_params st) (state_opt st)
         (learning_rate_var st) in
  Some (full_loss r :: map snd (info r),
        mkModelState params' opt' (srng_after r) (learning_rate_var st)).

(** [self.info_keys = list(train_info.keys())]. *)
Definition info_keys (st : ModelState) (inputs : Inputs)
  : list String.string :=
  match _build (train_with_graph self) false true false
               (state_params st) inputs (state_srng st) with
  | Some r => map fst (info r)
  | None => []
  end.

(** [Model.train]: the loss, the [info] dictionary and the state after
    the update. *)
Definition Model_train (st : ModelState) (inputs : Inputs)
  : option (R * list (String.string * R) * ModelState) :=
  '(stuff, st') <- train_fn st inputs ;;
  match stuff with
  | loss :: rest => Some (loss, combine (info_keys st inputs) rest, st')
  | [] => None
  end.

End Model.

(** ** Model.__init__ *)

(** What the constructor does, in order: it creates transformation modules
    and shared variables, and [setup] builds the computation graphs and
    compiles them. *)
Inductive Event : Type :=
| NewModule (attribute class : String.string)
| NewRandomStreams
| NewSharedLearningRate
| BuildGraph (with_correct_graph snap_to_best using_dropout
              evaluate_accuracy : bool)
| CompileFunction (attribute : String.string).

Inductive Exception : Type :=
| AssertionError (message : String.string).

(** [Model.setup]: four calls of [_build] and the five compiled functions. *)
Definition Model_setup (self : Config) : list Event :=
  [ BuildGraph (train_with_graph self) false true false;
    CompileFunction "train_fn"%string;
    BuildGraph (train_with_graph self) false false true;
    CompileFunction "eval_fn"%string;
    CompileFunction "debug_test_fn"%string;
    BuildGraph false false false false;
    CompileFunction "fuzzy_test_fn"%string;
    BuildGraph false true false false;
    CompileFunction "snap_test_fn"%string ].

Definition output_processor_class (f : ModelOutputFormat) : String.string :=
  match f with
  | category => "OutputCategoryTransformation"%string
  | subset => "OutputSetTransformation"%string
  | sequence => "OutputSequenceTransformation"%string
  end.

(** The end of the constructor, from [self.srng = ...] on. *)
Definition finish_init (self : Config) (done : list Event)
  : list Event * option Exception :=
  (done ++ [NewRandomStreams; NewSharedLearningRate]
        ++ (if setup self then Model_setup self else []),
   None).

(** [Model.__init__]: the events up to the end of the constructor or up to
    the exception that ends it. *)
Definition __init__ (self : Config) : list Event * option Exception :=
  let done :=
    [NewModule "input_transformer" "InputSequenceDirectTransformation"] in
  let done :=
    if nodes_mutable self
    then done ++ [NewModule "node_state_updater"
                            "NodeStateUpdateTransformation"]
    else done in
  let done :=
    if has_word_node_mapping self
    then done ++ [NewModule "direct_reference_updater"
                            "DirectReferenceUpdateTransformation"]
    else done in
  let done :=
    if negb (intermediate_propagate self =? 0)%nat
    then done ++ [NewModule "intermediate_propagator"
                            "PropagationTransformation"]
    else done in
  let done :=
    if dynamic_nodes self
    then done ++ [NewModule "new_node_adder" "NewNodesInformTransformation"]
    else done in
  let done :=
    done ++ [NewModule "edge_state_updater" "EdgeStateUpdateTransformation"] in
  if train_with_query self then
    let done :=
      done ++ [NewModule "query_node_state_updater"
                         "NodeStateUpdateTransformation"] in
    let done :=
      if has_word_node_mapping self
      then done ++ [NewModule "query_direct_reference_updater"
                              "DirectReferenceUpdateTransformation"]
      else done in
    let done :=
      done ++ [NewModule "final_propagator" "PropagationTransformation"] in
    let done :=
      done ++ [NewModule "aggregator"
                         (if use_old_aggregate self
                          then "AggregateRepresentationTransformationSoftmax"
                          else "AggregateRepresentationTransformation")] in
    let done :=
      if sequence_representation self
      then done ++ [NewModule "aggregate_summarizer"
                              "SequenceAggregateSummaryTransformation"]
      else done in
    match output_format self with
    | NotMember repr =>
        (done,
         Some (AssertionError
                 (String.append "Invalid output format " repr)))
    | Member f =>
        finish_init self
          (done ++ [NewModule "output_processor" (output_processor_class f)])
    end
  else finish_init self done.

(** An event that builds or compiles a computation graph. *)
Definition builds_graph (e : Event) : bool :=
  match e with
  | BuildGraph _ _ _ _ => true
  | CompileFunction _ => true
  | _ => false
  end.

(** ** Example configurations *)

(** A batch of one graph whose second node is absent; two sets of
    ground-truth edges, padded to three nodes, that differ only on the edge
    from node 0 to node 1. *)
Definition absent_node_state : GraphState :=
  mkGraphState [[1; 0]] [[[1; 0]; [0; 1]]] [[[0]; [0]]]
               [[[[1 / 2]; [1 / 4]]; [[1 / 3]; [1 / 5]]]].
Definition example_correct_edges : list (list (list (list R))) :=
  [[[[1]; [0]; [0]]; [[0]; [0]; [0]]; [[0]; [0]; [0]]]].
Definition example_correct_edges' : list (list (list (list R))) :=
  [[[[1]; [1]; [0]]; [[0]; [0]; [0]]; [[0]; [0]; [0]]]].

(** One step of one batch element with two candidate slots and no true
    new node. *)
Definition example_new_strengths : list (list R) := [[1 / 2; 1 / 4]].
Definition example_new_ids : list (list (list R)) :=
  [[[1 / 2; 1 / 2]; [1 / 4; 3 / 4]]].


(** Collaborators that leave the graph state as it is, propose every new
    node with strength 1/2 and a uniform identity, and answer every query
    with a uniform output. *)
Definition example_collaborators : Collaborators := {|
  Params := unit;
  OptState := unit;
  Rng := nat;
  EPSILON := example_EPSILON;
  independent_best := fun x => if Rle_dec (1 / 2) x then 1 else 0;
  categorical_best := fun ids => ids;
  input_transformer_process :=
    fun _ words => (map (fun _ => [0]) words, map (fun _ => []) words);
  node_state_updater_process := fun _ g _ masks => (g, masks);
  direct_reference_updater_process := fun _ g _ masks => (g, masks);
  intermediate_propagator_process_multiple := fun _ g _ masks => (g, masks);
  new_node_adder_get_candidates :=
    fun _ g _ k masks =>
      (map (fun _ => repeat (1 / 2) k) (node_strengths g),
       map (fun _ => repeat [1 / 2; 1 / 2] k) (node_strengths g),
       masks);
  edge_state_updater_process :=
    fun _ g _ masks =>
      (with_updates_edge_strengths
         g (map (map (map (map (fun _ => 1 / 2)))) (edge_strengths g)),
       masks);
  query_node_state_updater_process := fun _ g _ masks => (g, masks);
  query_direct_reference_updater_process := fun _ g _ masks => (g, masks);
  final_propagator_process_multiple := fun _ g _ masks => (g, masks);
  aggregator_process :=
    fun _ g masks => (map (fun _ => [0]) (node_strengths g), masks);
  aggregate_summarizer_process :=
    fun _ seq masks => (map (fun _ => [0]) seq, masks);
  output_processor_process :=
    fun _ repr _ => map (fun _ => [[1 / 2; 1 / 2]]) repr;
  output_processor_snap_to_best := fun out => out;
  make_dropout_mask := fun _ _ rng => (Stack [Stack [Scalar 1]], S rng);
  node_state_updater_dropout_masks := fun rng _ => ([], rng);
  direct_reference_updater_dropout_masks := fun rng _ => ([], rng);
  intermediate_propagator_dropout_masks := fun rng _ => ([], rng);
  new_node_adder_dropout_masks := fun rng => ([], rng);
  edge_state_updater_dropout_masks := fun rng => ([], rng);
  query_node_state_updater_dropout_masks := fun rng _ => ([], rng);
  query_direct_reference_updater_dropout_masks := fun rng _ => ([], rng);
  final_propagator_dropout_masks := fun rng _ => ([], rng);
  aggregator_dropout_masks := fun rng => ([], rng);
  aggregate_summarizer_dropout_masks := fun rng => ([], rng);
  Adam := fun _ params opt _ => (params, opt)
|}.

(** A model with one new node per sentence, two node ids, one state entry
    and one edge type, trained on the graph and on the query. *)
Definition example_config : Config :=
  mkConfig 10 2 (mkGraphStateSpec 2 1 1) 1 1 1 1 1 (Member category) 1 []
           true true true true 0 false 1 false true true true None
           (2 / 10000).

(** One story of two sentences; the first adds a node, the second none. *)
Definition example_inputs : Inputs :=
  mkInputs [[[1%Z]; [2%Z]]] [[1%Z]] [[[1; 0]]]
           [[1%Z; 0%Z]]
           [[[1]; [0]]]
           [[[[1; 0]]; [[0; 0]]]]
           [[[[[0]; [0]; [0]]; [[0]; [0]; [0]]; [[0]; [0]; [0]]];
             [[[0]; [1]; [0]]; [[0]; [0]; [0]]; [[0]; [0]; [0]]]]].

(** The same model trained on the query alone, and the same story with
    another graph ground truth. *)
Definition query_only_config : Config :=
  mkConfig 10 2 (mkGraphStateSpec 2 1 1) 1 1 1 1 1 (Member category) 1 []
           true true true true 0 false 1 false false true true None
           (2 / 10000).

Definition example_inputs' : Inputs :=
  mkInputs [[[1%Z]; [2%Z]]] [[1%Z]] [[[1; 0]]]
           [[0%Z; 1%Z]]
           [[[0]; [1]]]
           [[[[0; 0]]; [[0; 1]]]]
           [[[[[0]; [0]; [0]]; [[0]; [0]; [0]]; [[0]; [0]; [0]]];
             [[[0]; [0]; [0]]; [[0]; [0]; [0]]; [[0]; [0]; [0]]]]].

Definition example_state : @ModelState example_collaborators :=
  @mkModelState example_collaborators tt tt 0%nat (2 / 10000).

(** [two_node_state] with both nodes of strength 1. *)
Definition uniform_state : GraphState :=
  mkGraphState [[1; 1]] [[[1]; [1]]] [[[0]; [1]]]
               [[[[0]; [0]]; [[0]; [0]]]].

(** [two_node_state] with its two nodes in the other order. *)
Definition two_node_state_swapped : GraphState :=
  mkGraphState [[0; 1]] [[[1]; [1]]] [[[1]; [0]]]
               [[[[0]; [0]]; [[0]; [0]]]].

(** A batch of one graph with two nodes of strength 1 whose edge strengths
    equal the ground truth [example_correct_edges] on these nodes, and that
    ground truth without its padding. *)
Definition exact_edge_state : GraphState :=
  mkGraphState [[1; 1]] [[[1; 0]; [0; 1]]] [[[0]; [0]]]
               [[[[1]; [0]]; [[0]; [0]]]].
Definition example_correct_edges_cropped : list (list (list (list R))) :=
  [[[[1]; [0]]; [[0]; [0]]]].

(** A ground truth with one new node, in the first or in the second of the
    two slots. *)
Definition example_one_new_node : list Z := [1%Z].
Definition example_first_slot_strengths : list (list R) := [[1; 0]].
Definition example_first_slot_ids : list (list (list R)) :=
  [[[1; 0]; [0; 0]]].
Definition example_second_slot_strengths : list (list R) := [[0; 1]].
Definition example_second_slot_ids : list (list (list R)) :=
  [[[0; 0]; [1; 0]]].

(** The arguments of one unsupervised step on an empty graph, the input
    representations of a story of two sentences, and a dropout mask whose
    two entries along axis 0 differ. *)
Definition example_step_arguments : list Slot :=
  flatten_to_const_size (mkGraphStateSpec 2 1 1) 3
                        (create_empty 1 (mkGraphStateSpec 2 1 1))
  ++ [IScalar 3].
Definition example_input_reprs : list (list (list R)) := [[[0]; [0]]].
Definition example_mask : Tensor := Stack [Scalar 1; Scalar 0].

(** The ground truth of a step that adds one node. *)
Definition example_correct_graph : CorrectGraph :=
  mkCorrectGraph [1%Z] [[1]] [[[1; 0]]]
                 [[[[0]; [0]; [0]]; [[0]; [0]; [0]]; [[0]; [0]; [0]]]].

(** [absent_node_state] with other node states. *)
Definition absent_node_state_other_states : GraphState :=
  mkGraphState [[1; 0]] [[[1; 0]; [0; 1]]] [[[5]; [7]]]
               [[[[1 / 2]; [1 / 4]]; [[1 / 3]; [1 / 5]]]].

(** The node strengths of two stories after each of three sentences, and
    the representations of the two queries. *)
Definition example_step_strengths : list (list (list R)) :=
  [[[1]; [2]]; [[3]; [4]]; [[5]; [6]]].
Definition example_query_reprs : list (list R) := [[10]; [20]].

(** The edge loss of batch element [b] in the wording of the
    specification: the negative sum, over all node pairs and edge types, of
    the binary cross-entropy between the predicted and the ground-truth edge
    strength times the strengths of the two nodes. *)
Definition claimed_edge_loss (n t : nat) (gstate : GraphState)
           (correct_edges : list (list (list (list R)))) (b : nat) : R :=
  - Rsum (tabulate n (fun i => Rsum (tabulate n (fun j =>
      Rsum (tabulate t (fun k =>
        binary_crossentropy
          (nth k (nth j (nth i (nth b (edge_strengths gstate) []) []) []) 0)
          (nth k (nth j (nth i (nth b correct_edges []) []) []) 0)
        * nth i (nth b (node_strengths gstate) []) 0
        * nth j (nth b (node_strengths gstate) []) 0)))))).

(** A batch of one graph with one node of strength 1 whose edge to itself
    is predicted with strength 1/2, and the ground truth that has this
    edge. *)
Definition half_edge_state : GraphState :=
  mkGraphState [[1]] [[[1]]] [[[0]]] [[[[1 / 2]]]].
Definition half_edge_truth : list (list (list (list R))) := [[[[1]]]].






(** ** The recurrence written out

    What [theano.scan] computes in [_build], step by step: step [t] calls
    [_iter_fn] on the slices at position [t] of the sequences and on the
    state that the step before flattened, and flattens the state it
    returns. *)

(** The parts of what [_iter_fn] returns. *)
Definition iter_result_state (r : IterResult) : GraphState :=
  match r with
  | IterState g => g
  | IterScored g _ _ _ => g
  end.
Definition iter_result_node_loss (r : IterResult) : list R :=
  match r with
  | IterScored _ (Some l) _ _ => l
  | _ => []
  end.
Definition iter_result_edge_loss (r : IterResult) : list R :=
  match r with
  | IterScored _ _ l _ => l
  | IterState _ => []
  end.
Definition iter_result_accuracy (r : IterResult) : list bool :=
  match r with
  | IterScored _ _ _ (Some a) => a
  | _ => []
  end.

Section Unrolled.

Context {collaborators : Collaborators}.
Variable self : Config.

(** A state after it was flattened to [pad] nodes at the end of a step (or
    before the first one) and unflattened at the start of the next. *)
Definition across_scan (pad : nat) (g : GraphState) : GraphState :=
  match unflatten_from_const_size
          (flatten_to_const_size (graphspec self) pad g) with
  | Some g' => g'
  | None => g
  end.

Variable with_correct_graph snap_to_best using_dropout evaluate_accuracy
  : bool.
Variable params : Params.
Variable iter_dropouts : list Tensor.
Variable inputs : Inputs.
Variable input_reprs : list (list (list R)).
Variable ref_matrices : list (list (list (list R))).

(** The arguments of step [t]: [sequence[t]] for each of the scan's
    sequences. *)
Definition step_input_repr (t : nat) : list (list R) :=
  nth t (swapaxes01 (axis1_length (input_words inputs)) input_reprs) [].

Definition step_ref_matrix (t : nat) : option (list (list (list R))) :=
  if has_word_node_mapping self
  then Some (nth t (swapaxes01 (axis1_length (input_words inputs))
                               ref_matrices) [])
  else None.

Definition step_correct_graph (t : nat) : CorrectGraph :=
  mkCorrectGraph
    (nth t (swapaxes01 (axis1_length (graph_num_new_nodes inputs))
                       (graph_num_new_nodes inputs)) [])
    (nth t (swapaxes01 (axis1_length (graph_new_node_strengths inputs))
                       (graph_new_node_strengths inputs)) [])
    (nth t (swapaxes01 (axis1_length (graph_new_node_ids inputs))
                       (graph_new_node_ids inputs)) [])
    (nth t (swapaxes01 (axis1_length (graph_new_edges inputs))
                       (graph_new_edges inputs)) []).

Definition step_correct (t : nat) : option CorrectGraph :=
  if with_correct_graph then Some (step_correct_graph t) else None.

Definition step_dropout_masks (t : nat) : option (list Tensor) :=
  if using_dropout
  then Some (map (fun m => nth t (axis0 m) (Scalar 0)) iter_dropouts)
  else None.

(** The values that the scan hands to [_scan_fn] at step [t], before the
    state carried over. *)
Definition step_slots (t : nat) : list Slot :=
  [Tensor2 (step_input_repr t)]
  ++ match step_ref_matrix t with
     | Some m => [Tensor3 m]
     | None => []
     end
  ++ match step_correct t with
     | Some c => [ITensor1 (correct_num_new_nodes c);
                  Tensor2 (correct_new_strengths c);
                  Tensor3 (correct_new_node_ids c);
                  Tensor4 (correct_edges c)]
     | None => []
     end
  ++ match step_dropout_masks t with
     | Some masks => map Mask masks
     | None => []
     end.

(** The steps [ts] from the state [gstate], every state crossing the scan's
    boundary at [pad] nodes. *)
Fixpoint unrolled_steps (pad : nat) (ts : list nat) (gstate : GraphState)
  : option (list IterResult) :=
  match ts with
  | [] => Some []
  | t :: rest =>
      r <- _iter_fn self with_correct_graph snap_to_best evaluate_accuracy
                    params (step_input_repr t) (step_ref_matrix t) gstate
                    (step_correct t) (step_dropout_masks t) ;;
      more <- unrolled_steps pad rest (across_scan pad (iter_result_state r)) ;;
      Some (r :: more)
  end.

(** What [_scan_fn] returns for a step with the result [r]. *)
Definition iter_result_row (pad : nat) (r : IterResult) : list Slot :=
  flatten_to_const_size (graphspec self) pad (iter_result_state r)
  ++ match r with
     | IterState _ => []
     | IterScored _ node_loss edge_loss overall_accuracy =>
         scored_tail self evaluate_accuracy node_loss edge_loss
                     overall_accuracy
     end.

(** A result that [_scan_fn] hands back to the scan: the state alone in an
    unsupervised build; in a supervised one the losses and the accuracy
    that the build asks for. *)
Definition iter_result_ok (r : IterResult) : Prop :=
  match r with
  | IterState _ => with_correct_graph = false
  | IterScored _ node_loss _ overall_accuracy =>
      with_correct_graph = true /\
      (dynamic_nodes self = true -> node_loss <> None) /\
      (evaluate_accuracy = true -> overall_accuracy <> None)
  end.

End Unrolled.

Section BuildSteps.

Context {collaborators : Collaborators}.
Variable self : Config.
Variable with_correct_graph snap_to_best using_dropout evaluate_accuracy
  : bool.
Variable params : Params.
Variable inputs : Inputs.
Variable srng : Rng.

(** The state before the first sentence. *)
Definition initial_gstate : GraphState :=
  if dynamic_nodes self
  then create_empty (length (input_words inputs)) (graphspec self)
  else create_full_unique (length (input_words inputs)) (graphspec self).

(** The first part of [_build]: the input representations, the dropout
    masks and the call of [theano.scan]. *)
Definition build_input_reprs : list (list (list R)) :=
  reshape3 (length (input_words inputs)) (axis1_length (input_words inputs))
           (fst (input_transformer_process params
                                           (concat (input_words inputs)))).

Definition build_ref_matrices : list (list (list (list R))) :=
  reshape3 (length (input_words inputs)) (axis1_length (input_words inputs))
           (snd (input_transformer_process params
                                           (concat (input_words inputs)))).

Definition build_iter_dropouts : list Tensor :=
  fst (fst (sample_iter_dropouts self using_dropout srng)).

Definition build_sequences : list (list Slot) :=
  scan_sequences self with_correct_graph using_dropout inputs
                 build_input_reprs build_ref_matrices build_iter_dropouts.

Definition build_scan : option (list (list Slot)) :=
  theano_scan
    (scan_body self with_correct_graph snap_to_best using_dropout
               evaluate_accuracy params build_iter_dropouts)
    build_sequences
    (scan_outputs_info self with_correct_graph evaluate_accuracy
                       (length (input_words inputs))
                       (axis1_length (input_words inputs)))
    [IScalar (pad_graph_size_of self (axis1_length (input_words inputs)))].

(** The steps of the build's scan, one per entry of its shortest
    sequence. *)
Definition build_steps : option (list IterResult) :=
  let pad := pad_graph_size_of self (axis1_length (input_words inputs)) in
  unrolled_steps self with_correct_graph snap_to_best using_dropout
                 evaluate_accuracy params build_iter_dropouts inputs
                 build_input_reprs build_ref_matrices pad
                 (seq 0 (n_steps build_sequences))
                 (across_scan self pad initial_gstate).

End BuildSteps.

(** * Properties *)

(** ** Lists and sums *)

Lemma map2_length {A B C : Type} (f : A -> B -> C) (la : list A)
      (lb : list B) :
  length (map2 f la lb) = Nat.min (length la) (length lb).
Proof.
  revert lb; induction la as [| a la IH]; intros [| b lb]; simpl; auto.
Qed.

Lemma map2_nth {A B C : Type} (f : A -> B -> C) (la : list A) (lb : list B)
      (da : A) (db : B) (dc : C) (i : nat) :
  (i < length la)%nat -> (i < length lb)%nat ->
  nth i (map2 f la lb) dc = f (nth i la da) (nth i lb db).
Proof.
  revert lb i; induction la as [| a la IH]; intros [| b lb] [| i] Ha Hb;
    simpl in *; try lia; auto.
  apply IH; lia.
Qed.

Lemma map2_map_l {A A' B C : Type} (f : A' -> B -> C) (g : A -> A')
      (la : list A) (lb : list B) :
  map2 f (map g la) lb = map2 (fun a b => f (g a) b) la lb.
Proof.
  revert lb; induction la as [| a la IH]; intros [| b lb]; simpl; auto.
  now rewrite IH.
Qed.

Lemma map2_map_r {A B B' C : Type} (f : A -> B' -> C) (g : B -> B')
      (la : list A) (lb : list B) :
  map2 f la (map g lb) = map2 (fun a b => f a (g b)) la lb.
Proof.
  revert lb; induction la as [| a la IH]; intros [| b lb]; simpl; auto.
  now rewrite IH.
Qed.

Lemma map_map2 {A B C D : Type} (g : C -> D) (f : A -> B -> C)
      (la : list A) (lb : list B) :
  map g (map2 f la lb) = map2 (fun a b => g (f a b)) la lb.
Proof.
  revert lb; induction la as [| a la IH]; intros [| b lb]; simpl; auto.
  now rewrite IH.
Qed.

Lemma map2_ext_in {A B C : Type} (f g : A -> B -> C) (la : list A)
      (lb : list B) :
  (forall a b, In a la -> In b lb -> f a b = g a b) ->
  map2 f la lb = map2 g la lb.
Proof.
  revert lb; induction la as [| a la IH]; intros [| b lb] H; simpl; auto.
  f_equal; [apply H; now left | apply IH].
  intros; apply H; now right.
Qed.

Lemma map2_same {A C : Type} (f : A -> A -> C) (l : list A) :
  map2 f l l = map (fun a => f a a) l.
Proof. induction l; simpl; congruence. Qed.

Lemma map2_app {A B C : Type} (f : A -> B -> C) (la la' : list A)
      (lb lb' : list B) :
  length la = length lb ->
  map2 f (la ++ la') (lb ++ lb') = map2 f la lb ++ map2 f la' lb'.
Proof.
  revert lb; induction la as [| a la IH]; intros [| b lb] H; simpl in *;
    try discriminate; auto.
  f_equal; apply IH; lia.
Qed.


Lemma Rsum_map_scale (c : R) (l : list R) :
  Rsum (map (fun x => x * c) l) = Rsum l * c.
Proof. induction l as [| x l IH]; simpl; [lra | rewrite IH; lra]. Qed.

Lemma Rsum_map_div {A : Type} (f : A -> R) (c : R) (l : list A) :
  Rsum (map (fun x => f x / c) l) = Rsum (map f l) / c.
Proof.
  induction l as [| x l IH]; simpl; [unfold Rdiv; lra |].
  rewrite IH; unfold Rdiv; lra.
Qed.

Lemma Rsum_pos (l : list R) :
  l <> [] -> Forall (fun x => 0 < x) l -> 0 < Rsum l.
Proof.
  intros Hne Hall; induction Hall as [| x l Hx Hall IH]; [congruence |].
  simpl. destruct l as [| y l]; [simpl; lra |].
  assert (0 < Rsum (y :: l)) by (apply IH; discriminate). lra.
Qed.

Lemma Rsum_ext_in {A : Type} (f g : A -> R) (l : list A) :
  (forall x, In x l -> f x = g x) -> Rsum (map f l) = Rsum (map g l).
Proof. intros H; f_equal; now apply map_ext_in. Qed.

(** [softmax] yields weights that sum to one. *)
Lemma softmax_sums_to_one (row : list R) :
  row <> [] -> Rsum (softmax row) = 1.
Proof.
  intros Hne. unfold softmax. rewrite Rsum_map_div.
  assert (0 < Rsum (map exp row)).
  { apply Rsum_pos; [destruct row; [congruence | discriminate] |].
    apply Forall_forall; intros x Hx; apply in_map_iff in Hx.
    destruct Hx as [y [<- _]]; apply exp_pos. }
  field; lra.
Qed.

Lemma reshape3_concat {A : Type} (n : nat) (rows : list (list A)) :
  Forall (fun r => length r = n) rows ->
  reshape3 (length rows) n (concat rows) = rows.
Proof.
  unfold reshape3. intros Hall.
  induction Hall as [| r rows Hr Hall IH]; [reflexivity |].
  cbn [length concat seq map]. f_equal.
  - simpl. rewrite firstn_app, Hr, Nat.sub_diag. simpl.
    rewrite app_nil_r. rewrite <- Hr. apply firstn_all.
  - rewrite <- seq_shift, map_map. rewrite <- IH at 2.
    apply map_ext. intros b. f_equal.
    rewrite skipn_app. simpl Nat.mul.
    replace (n + b * n - length r)%nat with (b * n)%nat by lia.
    rewrite skipn_all2 by lia. reflexivity.
Qed.

Lemma concat_map2 {A B C : Type} (f : A -> B -> C) (xs : list (list A))
      (ys : list (list B)) :
  Forall2 (fun x y => length x = length y) xs ys ->
  map2 f (concat xs) (concat ys) = concat (map2 (map2 f) xs ys).
Proof.
  induction 1 as [| x y xs ys Hxy Hall IH]; [reflexivity |].
  simpl. rewrite map2_app by assumption. now rewrite IH.
Qed.

(** ** Aggregate representation *)

Section AggregateProperties.

Variable EPSILON : R.
Hypothesis EPSILON_pos : 0 < EPSILON.
Variable representation_width : nat.
Variable W : list (list R).
Variable b : list R.

Lemma Forall2_same_length {A B : Type} (n : nat) (xs : list (list A))
      (ys : list (list B)) :
  length xs = length ys ->
  Forall (fun r => length r = n) xs -> Forall (fun r => length r = n) ys ->
  Forall2 (fun x y => length x = length y) xs ys.
Proof.
  revert ys; induction xs as [| x xs IH]; intros [| y ys] Hl Hx Hy;
    simpl in *; try discriminate; constructor.
  - inversion Hx; inversion Hy; congruence.
  - apply IH; [lia | now inversion Hx | now inversion Hy].
Qed.

Lemma Forall_map2_length {A B C : Type} (f : A -> B -> C) (n : nat)
      (xs : list (list A)) (ys : list (list B)) :
  Forall (fun r => length r = n) xs -> Forall (fun r => length r = n) ys ->
  Forall (fun r => length r = n) (map2 (map2 f) xs ys).
Proof.
  intros Hx; revert ys; induction Hx as [| x xs Hx Hxs IH];
    intros [| y ys] Hy; simpl; constructor.
  - inversion Hy; subst. rewrite map2_length. lia.
  - apply IH. now inversion Hy.
Qed.

Lemma activations_nodewise (g : GraphState) :
  aggregate_shapes g ->
  activations W b g
  = map2 (map2 (fun ids st => node_activation W b (ids ++ st)))
         (node_ids g) (node_states g).
Proof.
  intros (Hids & Hst & Hs & Hi & Ht).
  unfold activations, flat_activations, flat_obs, do_layer, T_dot,
    flatten_rows.
  rewrite (concat_map2 _ _ _ (Forall2_same_length _ _ _ (eq_trans Hids (eq_sym Hst)) Hi Ht)).
  rewrite map_map, concat_map.
  assert (Hl : length (map (map (fun x => map (fun x0 : R => x0)
             (map2 Rplus (vsum (length b) (map2 (fun xk wk => map (Rmult xk) wk) x W)) b)))
             (map2 (map2 (@app R)) (node_ids g) (node_states g))) = n_batch g).
  { rewrite length_map, map2_length. lia. }
  rewrite <- Hl. rewrite reshape3_concat.
  - rewrite map_map2. apply map2_ext_in. intros x y _ _.
    rewrite map_map2. reflexivity.
  - apply Forall_forall. intros r Hr. apply in_map_iff in Hr.
    destruct Hr as [r' [<- Hr']]. rewrite length_map.
    pose proof (Forall_map2_length (@app R) _ _ _ Hi Ht) as Hall.
    rewrite Forall_forall in Hall. now apply Hall.
Qed.

Lemma map_nth_lt {A B : Type} (f : A -> B) (l : list A) (d : A) (d' : B)
      (i : nat) :
  (i < length l)%nat -> nth i (map f l) d' = f (nth i l d).
Proof.
  revert i; induction l as [| x l IH]; intros [| i] H; simpl in *;
    try lia; auto.
  apply IH; lia.
Qed.

Lemma Forall_nth_length {A : Type} (n i : nat) (xs : list (list A)) :
  Forall (fun r => length r = n) xs -> (i < length xs)%nat ->
  length (nth i xs []) = n.
Proof.
  intros H Hi. rewrite Forall_forall in H. apply H. now apply nth_In.
Qed.

Lemma node_activations_length (g : GraphState) (i : nat) :
  aggregate_shapes g -> (i < n_batch g)%nat ->
  length (node_activations W b g i) = n_nodes g.
Proof.
  intros (Hids & Hst & Hs & Hi & Ht) Hb. unfold node_activations.
  rewrite map2_length, !(Forall_nth_length (n_nodes g)) by (auto; lia). lia.
Qed.

Lemma activations_nth (g : GraphState) (i : nat) :
  aggregate_shapes g -> (i < n_batch g)%nat ->
  nth i (activations W b g) [] = node_activations W b g i.
Proof.
  intros Hg Hb. rewrite activations_nodewise by assumption.
  destruct Hg as (Hids & Hst & _).
  unfold node_activations. apply map2_nth; lia.
Qed.

Lemma selector_nth (g : GraphState) (i : nat) :
  aggregate_shapes g -> (i < n_batch g)%nat ->
  nth i (selector EPSILON W b g) []
  = softmax (map2 (fun a s => nth 0 a 0 + ln (s + EPSILON))
                  (node_activations W b g i) (nth i (node_strengths g) [])).
Proof.
  intros Hg Hb. unfold selector, activation_strengths, existence_penalty.
  assert (Hla : length (activations W b g) = n_batch g).
  { rewrite activations_nodewise by assumption.
    destruct Hg as (Hids & Hst & _). rewrite map2_length. lia. }
  rewrite map_nth_lt with (d := [])
    by (rewrite map2_length, !length_map; unfold n_batch in *; lia).
  f_equal.
  rewrite map2_nth with (da := []) (db := [])
    by (rewrite length_map; unfold n_batch in *; lia).
  rewrite !map_nth_lt with (d := []) by (unfold n_batch in *; lia).
  rewrite activations_nth by assumption.
  rewrite map2_map_l, map2_map_r. reflexivity.
Qed.

Lemma process_nth (g : GraphState) (i : nat) :
  aggregate_shapes g -> (i < n_batch g)%nat ->
  nth i (process EPSILON representation_width W b g) []
  = vsum representation_width
         (map2 (fun w a => map (fun x => w * tanh x) (tl a))
               (nth i (selector EPSILON W b g) []) (node_activations W b g i)).
Proof.
  intros Hg Hb. unfold process, representations.
  assert (Hla : length (activations W b g) = n_batch g).
  { rewrite activations_nodewise by assumption.
    destruct Hg as (Hids & Hst & _). rewrite map2_length. lia. }
  assert (Hls : length (selector EPSILON W b g) = n_batch g).
  { unfold selector, activation_strengths, existence_penalty.
    rewrite length_map, map2_length, !length_map. unfold n_batch in *. lia. }
  rewrite map2_nth with (da := []) (db := [])
    by (rewrite ?length_map; lia).
  f_equal.
  rewrite map_nth_lt with (d := []) by lia.
  rewrite activations_nth by assumption.
  rewrite map2_map_r. apply map2_ext_in. intros w a _ _.
  now rewrite map_map.
Qed.

(** With the existence penalty the softmax weighs node [j] by
    [(strength_j + EPSILON) * exp(logit_j)]. *)
Lemma softmax_existence_penalty (acts : list (list R)) (ss : list R) :
  Forall (fun s => 0 <= s) ss ->
  softmax (map2 (fun a s => nth 0 a 0 + ln (s + EPSILON)) acts ss)
  = let u := map2 (fun a s => (s + EPSILON) * exp (nth 0 a 0)) acts ss in
    map (fun x => x / Rsum u) u.
Proof.
  intros Hss. unfold softmax. cbv zeta.
  assert (He : map exp (map2 (fun a s => nth 0 a 0 + ln (s + EPSILON)) acts ss)
               = map2 (fun a s => (s + EPSILON) * exp (nth 0 a 0)) acts ss).
  { rewrite map_map2. apply map2_ext_in. intros a s _ Hs.
    rewrite Forall_forall in Hss. specialize (Hss s Hs).
    rewrite exp_plus, exp_ln by lra. lra. }
  rewrite He. set (Z := Rsum _). rewrite <- He, map_map. reflexivity.
Qed.

Lemma node_activation_length (obs : list R) :
  (length (node_activation W b obs) <= length b)%nat.
Proof.
  unfold node_activation, do_layer, T_dot. simpl.
  rewrite length_map, map2_length. lia.
Qed.

Lemma map2_Rplus_zeros (v : list R) (n : nat) :
  (length v <= n)%nat -> map2 Rplus v (repeat 0 n) = v.
Proof.
  revert n; induction v as [| x v IH]; intros [| n] H; simpl in *;
    try lia; auto.
  rewrite IH by lia. f_equal. lra.
Qed.

(** C1 (amended): in a graph state where, for batch element [i], node [n]
    has strength 1 and every other node has strength 0, the attention
    weights sum to 1; node [n] has weight [(1+EPSILON) * exp(logit_n) / Z]
    and every other node [j] the weight [EPSILON * exp(logit_j) / Z], which
    is positive, not zero ([Z] is the sum of these numerators); the output
    is the weighted sum of the [tanh] of the nodes' raw representations,
    and it equals the [tanh] of node [n]'s raw representation when [n] is
    the only node. *)
Theorem aggregate_one_existing_node (g : GraphState) (i n : nat) :
  aggregate_shapes g -> (i < n_batch g)%nat -> (n < n_nodes g)%nat ->
  (forall j, (j < n_nodes g)%nat ->
             nth j (nth i (node_strengths g) []) 0
             = if (j =? n)%nat then 1 else 0) ->
  let acts := node_activations W b g i in
  let weights := nth i (selector EPSILON W b g) [] in
  let Z := Rsum (map (one_node_weight EPSILON acts n) (seq 0 (n_nodes g))) in
  Rsum weights = 1 /\
  (forall j, (j < n_nodes g)%nat ->
             nth j weights 0 = one_node_weight EPSILON acts n j / Z /\
             0 < nth j weights 0) /\
  nth i (process EPSILON representation_width W b g) []
  = vsum representation_width
         (map2 (fun w a => map (fun x => w * tanh x) (tl a)) weights acts) /\
  (n_nodes g = 1%nat -> length b = S representation_width ->
   nth i (process EPSILON representation_width W b g) []
   = map tanh (tl (nth 0 acts []))).
Proof.
  intros Hg Hi Hn Hone acts weights Z.
  pose proof (node_activations_length g i Hg Hi) as Hla. fold acts in Hla.
  assert (Hls : length (nth i (node_strengths g) []) = n_nodes g).
  { destruct Hg as (_ & _ & Hs & _). apply Forall_nth_length; auto. }
  assert (Hss : Forall (fun s => 0 <= s) (nth i (node_strengths g) [])).
  { apply Forall_forall. intros s Hs.
    apply In_nth with (d := 0) in Hs. destruct Hs as [j [Hj <-]].
    rewrite Hone by lia. destruct (j =? n)%nat; lra. }
  assert (Hu : map2 (fun a s => (s + EPSILON) * exp (nth 0 a 0)) acts
                    (nth i (node_strengths g) [])
               = map (one_node_weight EPSILON acts n) (seq 0 (n_nodes g))).
  { apply nth_ext with (d := 0) (d' := 0).
    - rewrite map2_length, length_map, length_seq. lia.
    - rewrite map2_length. intros j Hj.
      rewrite map2_nth with (da := []) (db := 0) by lia.
      rewrite map_nth_lt with (d := 0%nat) by (rewrite length_seq; lia).
      rewrite seq_nth by lia. simpl. unfold one_node_weight.
      rewrite Hone by lia. destruct (j =? n)%nat; f_equal; lra. }
  assert (Hw : weights = map (fun j => one_node_weight EPSILON acts n j / Z)
                             (seq 0 (n_nodes g))).
  { unfold weights. rewrite selector_nth by assumption.
    rewrite softmax_existence_penalty by assumption. cbv zeta.
    fold acts. rewrite Hu. fold Z. now rewrite map_map. }
  assert (Hpos : forall j, 0 < one_node_weight EPSILON acts n j).
  { intros j. unfold one_node_weight.
    apply Rmult_lt_0_compat; [destruct (j =? n)%nat; lra | apply exp_pos]. }
  assert (HZ : 0 < Z).
  { apply Rsum_pos.
    - destruct (n_nodes g); [lia | discriminate].
    - apply Forall_forall. intros x Hx. apply in_map_iff in Hx.
      destruct Hx as [j [<- _]]. apply Hpos. }
  assert (Hsum : Rsum weights = 1).
  { rewrite Hw, Rsum_map_div. fold Z. field. lra. }
  assert (Hproc := process_nth g i Hg Hi). fold acts weights in Hproc.
  repeat split; auto.
  - rewrite Hw. rewrite map_nth_lt with (d := 0%nat)
      by (rewrite length_seq; lia).
    now rewrite seq_nth by lia.
  - rewrite Hw. rewrite map_nth_lt with (d := 0%nat)
      by (rewrite length_seq; lia).
    rewrite seq_nth by lia. simpl.
    apply Rdiv_lt_0_compat; auto.
  - intros H1 Hb. rewrite Hproc.
    assert (Hlw : length weights = 1%nat)
      by (rewrite Hw, length_map, length_seq; lia).
    destruct weights as [| w [| ? ?]]; try discriminate.
    destruct acts as [| a [| ? ?]] eqn:Ea; simpl in Hla; try lia.
    simpl in Hsum. assert (w = 1) by lra. subst w.
    simpl. unfold vsum. simpl.
    assert (Ha : (length a <= S representation_width)%nat).
    { assert (In a (node_activations W b g i)) as Hin
        by (fold acts; rewrite Ea; now left).
      unfold node_activations in Hin.
      clear - Hin Hb. rewrite <- Hb.
      revert Hin. generalize (nth i (node_states g) []).
      induction (nth i (node_ids g) []) as [| x xs IH]; intros [| y ys] Hin;
        simpl in *; try contradiction.
      destruct Hin as [<- | Hin]; [apply node_activation_length | eauto]. }
    rewrite map2_Rplus_zeros
      by (rewrite length_map; destruct a; simpl in *; lia).
    rewrite <- (map_map tanh (fun x => 1 * x)).
    rewrite map_ext with (g := fun x => x) by (intros; lra).
    now rewrite map_id.
Qed.

End AggregateProperties.

Lemma aggregate_one_existing_node_witness :
  0 < example_EPSILON /\
  let g := two_node_state in
  let acts := node_activations example_W example_b g 0 in
  let weights := nth 0 (selector example_EPSILON example_W example_b g) [] in
  let Z := Rsum (map (one_node_weight example_EPSILON acts 0)
                     (seq 0 (n_nodes g))) in
  Rsum weights = 1 /\
  (forall j, (j < n_nodes g)%nat ->
             nth j weights 0 = one_node_weight example_EPSILON acts 0 j / Z /\
             0 < nth j weights 0) /\
  nth 0 (process example_EPSILON 1 example_W example_b g) []
  = vsum 1 (map2 (fun w a => map (fun x => w * tanh x) (tl a)) weights acts) /\
  (n_nodes g = 1%nat -> length example_b = 2%nat ->
   nth 0 (process example_EPSILON 1 example_W example_b g) []
   = map tanh (tl (nth 0 acts []))).
Proof.
  assert (He : 0 < example_EPSILON) by (unfold example_EPSILON; lra).
  split; [exact He |].
  apply (aggregate_one_existing_node example_EPSILON He 1 example_W example_b
                                     two_node_state 0 0).
  - unfold aggregate_shapes, n_batch, n_nodes; simpl;
      repeat split; repeat constructor.
  - unfold n_batch; simpl; lia.
  - unfold n_nodes; simpl; lia.
  - unfold n_nodes; intros [| [| j]] Hj; simpl in *; try reflexivity; lia.
Defined.

Lemma tanh_0 : tanh 0 = 0.
Proof. unfold tanh. rewrite sinh_0, cosh_0. lra. Qed.

Lemma cosh_pos (x : R) : 0 < cosh x.
Proof.
  unfold cosh. pose proof (exp_pos x). pose proof (exp_pos (- x)). lra.
Qed.

Lemma tanh_pos (x : R) : 0 < x -> 0 < tanh x.
Proof.
  intros Hx. unfold tanh. apply Rdiv_lt_0_compat; [| apply cosh_pos].
  rewrite <- sinh_0. now apply sinh_lt.
Qed.

(** C1, as stated, fails: node 0 has strength 1, node 1 strength 0, yet the
    output is not the [tanh] of node 0's raw representation, because node 1
    keeps the weight [EPSILON / (1 + 2 * EPSILON)]. *)
Lemma aggregate_zero_strength_node_not_excluded :
  node_strengths two_node_state = [[1; 0]] /\
  process example_EPSILON 1 example_W example_b two_node_state
  <> [map tanh (tl (node_activation example_W example_b ([1] ++ [0])))].
Proof.
  split; [reflexivity |].
  cbv -[exp ln tanh Rplus Rmult Rdiv Rinv Ropp Rminus IZR example_EPSILON].
  intros H. injection H as H.
  replace (1 * 0 + (0 * 0 + 0) + 0) with 0 in H by lra.
  replace (1 * 0 + (1 * 0 + 0) + 0) with 0 in H by lra.
  replace (1 * 0 + (0 * 1 + 0) + 0) with 0 in H by lra.
  replace (1 * 0 + (1 * 1 + 0) + 0) with 1 in H by lra.
  assert (He : 0 < example_EPSILON) by (unfold example_EPSILON; lra).
  rewrite !Rplus_0_l, !exp_ln, tanh_0 in H by lra.
  pose proof (tanh_pos 1 Rlt_0_1) as Ht.
  assert (Hw : 0 < example_EPSILON / (1 + example_EPSILON + (example_EPSILON + 0)))
    by (apply Rdiv_lt_0_compat; lra).
  pose proof (Rmult_lt_0_compat _ _ Hw Ht). lra.
Qed.



(** ** itertools.permutations *)

Lemma selections_length {A : Type} (l : list A) :
  length (selections l) = length l.
Proof. induction l; simpl; [| rewrite length_map]; congruence. Qed.

Lemma in_selections {A : Type} (l : list A) (x : A) (r : list A) :
  In (x, r) (selections l) <->
  exists l1 l2, l = l1 ++ x :: l2 /\ r = l1 ++ l2.
Proof.
  revert x r; induction l as [| a l IH]; intros x r; simpl.
  - split; [contradiction | intros ([| ? ?] & ? & H & _); discriminate].
  - split.
    + intros [H | H].
      * injection H as -> ->. now exists [], r.
      * apply in_map_iff in H. destruct H as ([y r'] & Heq & Hin).
        simpl in Heq; inversion Heq; subst.
        apply IH in Hin. destruct Hin as (l1 & l2 & -> & ->).
        now exists (a :: l1), l2.
    + intros (l1 & l2 & Hl & ->). destruct l1 as [| b l1]; simpl in Hl.
      * injection Hl as -> ->. now left.
      * injection Hl as -> ->. right. apply in_map_iff.
        exists (x, l1 ++ l2). split; [reflexivity |].
        apply IH. now exists l1, l2.
Qed.

Lemma permutations_r_length {A : Type} (r : nat) (l : list A) :
  length l = r -> length (permutations_r r l) = fact r.
Proof.
  revert l; induction r as [| r IH]; intros l Hl; [reflexivity |].
  cbn [permutations_r fact].
  rewrite flat_map_constant_length with (c := fact r).
  - now rewrite selections_length, Hl.
  - intros [x rest] Hin. rewrite length_map. apply IH.
    apply in_selections in Hin. destruct Hin as (l1 & l2 & -> & ->).
    cbn [fst snd] in *. rewrite length_app in *. cbn [length] in *. lia.
Qed.

Lemma permutations_r_sound {A : Type} (r : nat) (l p : list A) :
  length l = r -> In p (permutations_r r l) -> Permutation p l.
Proof.
  revert l p; induction r as [| r IH]; intros l p Hl Hin.
  - destruct l; [| discriminate]. simpl in Hin.
    destruct Hin as [<- | []]. constructor.
  - cbn [permutations_r] in Hin. apply in_flat_map in Hin.
    destruct Hin as ([x rest] & Hsel & Hin). simpl in Hin.
    apply in_map_iff in Hin. destruct Hin as (p' & <- & Hp').
    apply in_selections in Hsel. destruct Hsel as (l1 & l2 & -> & ->).
    apply Permutation_cons_app. apply IH; [| assumption].
    cbn [fst snd] in *. rewrite length_app in *. cbn [length] in *. lia.
Qed.

Lemma permutations_r_complete {A : Type} (r : nat) (l p : list A) :
  length l = r -> Permutation p l -> In p (permutations_r r l).
Proof.
  revert l p; induction r as [| r IH]; intros l p Hl Hp.
  - destruct l; [| discriminate].
    apply Permutation_sym, Permutation_nil in Hp. subst. now left.
  - destruct p as [| x p'].
    + apply Permutation_nil in Hp. subst. discriminate.
    + assert (Hx : In x l)
        by (eapply Permutation_in; [exact Hp | now left]).
      apply in_split in Hx. destruct Hx as (l1 & l2 & ->).
      cbn [permutations_r]. apply in_flat_map.
      exists (x, l1 ++ l2). split.
      * apply in_selections. now exists l1, l2.
      * simpl. apply in_map. apply IH.
        -- cbn [fst snd] in *. rewrite length_app in *. cbn [length] in *. lia.
        -- eapply Permutation_cons_app_inv. exact Hp.
Qed.

(** [permutations(range(k))] lists exactly the permutations of
    [0 .. k-1], and there are [k!] of them. *)
Lemma in_permutations_range (k : nat) (sigma : list nat) :
  In sigma (permutations (range k)) <-> Permutation sigma (range k).
Proof.
  unfold permutations. split.
  - now apply permutations_r_sound.
  - now apply permutations_r_complete.
Qed.

Lemma permutations_range_length (k : nat) :
  length (permutations (range k)) = fact k.
Proof.
  unfold permutations. rewrite permutations_r_length; unfold range;
    now rewrite length_seq.
Qed.

Example permutations_range_3 :
  permutations (range 3)
  = [[0; 1; 2]; [0; 2; 1]; [1; 0; 2]; [1; 2; 0]; [2; 0; 1]; [2; 1; 0]]%nat.
Proof. reflexivity. Qed.

(** ** New-node matching loss *)

Lemma Rsum_const {A : Type} (c : R) (l : list A) :
  Rsum (map (fun _ => c) l) = INR (length l) * c.
Proof.
  induction l as [| x l IH]; [simpl; lra |].
  cbn [map Rsum fold_right length]. fold (Rsum (map (fun _ : A => c) l)).
  rewrite IH, S_INR. lra.
Qed.

Section NodeMatching.

Variable EPSILON : R.
Variable k : nat.
Variable batch : nat.
Variable new_strengths : list (list R).
Variable new_ids : list (list (list R)).
Variable correct_num_new_nodes : list Z.
Variable correct_new_strengths : list (list R).
Variable correct_new_node_ids : list (list (list R)).

Hypothesis shapes :
  node_matching_shapes k batch new_strengths new_ids correct_num_new_nodes
                       correct_new_strengths correct_new_node_ids.

(** For each batch element, [reduced_perm_lls] holds the log-likelihood of
    every permutation of the ground-truth slots. *)
Lemma reduced_perm_lls_nth (i : nat) :
  (i < batch)%nat ->
  nth i (reduced_perm_lls EPSILON k new_strengths new_ids
                          correct_new_strengths correct_new_node_ids) []
  = map (permutation_ll EPSILON (nth i new_strengths []) (nth i new_ids [])
                        (nth i correct_new_strengths [])
                        (nth i correct_new_node_ids []))
        (perm_idxs k).
Proof.
  intros Hi. destruct shapes as (H1 & H2 & H3 & H4 & H5 & _).
  unfold reduced_perm_lls, strength_ll, ids_ll, index_perms.
  rewrite map2_nth with (da := []) (db := [])
    by (rewrite length_map, map2_length, length_map; lia).
  rewrite !map_nth_lt with (d := [])
    by (rewrite map2_length, length_map; lia).
  rewrite !map2_nth with (da := []) (db := [])
    by (rewrite ?length_map; lia).
  rewrite !map_nth_lt with (d := []) by lia.
  rewrite !map_map, map2_map_l, map2_map_r, map2_same.
  apply map_ext. intros sigma. unfold permutation_ll.
  rewrite !map2_map_l. f_equal.
  unfold Rsum2. rewrite map_map2. reflexivity.
Qed.





End NodeMatching.




(** ** Edge loss *)

Lemma list_eq_tabulate {A : Type} (n : nat) (f : nat -> A) (d : A)
      (l : list A) :
  length l = n -> (forall i, (i < n)%nat -> nth i l d = f i) ->
  l = tabulate n f.
Proof.
  intros Hl Hf. unfold tabulate. apply nth_ext with (d := d) (d' := f 0%nat).
  - now rewrite length_map, length_seq.
  - intros i Hi. rewrite map_nth, seq_nth by lia. apply Hf. lia.
Qed.

Lemma tabulate_ext {A : Type} (n : nat) (f g : nat -> A) :
  (forall i, (i < n)%nat -> f i = g i) -> tabulate n f = tabulate n g.
Proof.
  intros H. unfold tabulate. apply map_ext_in. intros i Hi.
  apply in_seq in Hi. apply H. lia.
Qed.

Lemma map_tabulate {A B : Type} (g : A -> B) (n : nat) (f : nat -> A) :
  map g (tabulate n f) = tabulate n (fun i => g (f i)).
Proof. unfold tabulate. now rewrite map_map. Qed.

Section EdgeLoss.

Variable EPSILON : R.
Variables batch n t p : nat.
Variable g : GraphState.

Lemma masked_edge_lls_nth (correct_edges : list (list (list (list R))))
      (b : nat) :
  edge_shapes batch n t p g correct_edges -> (b < batch)%nat ->
  nth b (masked_edge_lls EPSILON g correct_edges) []
  = tabulate n (fun i => tabulate n (fun j => tabulate t (fun k =>
      edge_term EPSILON g correct_edges b i j k))).
Proof.
  intros (HB & HN & Hnp & Hs & (He0 & He) & (Hc0 & Hc)) Hb.
  unfold n_batch in HB.
  specialize (Hs b Hb). destruct (He b Hb) as [He1 He2].
  destruct (Hc b Hb) as [Hc1 Hc2].
  unfold masked_edge_lls, mul_mask_dest, mul_mask_src, edge_lls, crop_edges.
  rewrite HN.
  rewrite map2_nth with (da := []) (db := [])
    by (rewrite ?map2_length, ?length_map; lia).
  rewrite map2_nth with (da := []) (db := [])
    by (rewrite ?map2_length, ?length_map; lia).
  rewrite map2_nth with (da := []) (db := [])
    by (rewrite ?map2_length, ?length_map; lia).
  rewrite map_nth_lt with (d := []) by lia.
  set (cb := nth b correct_edges []) in *.
  set (eb := nth b (edge_strengths g) []) in *.
  set (sb := nth b (node_strengths g) []) in *.
  assert (Hlll : length (map2 (map2 (map2 (bernoulli_ll EPSILON)))
                              (map (firstn n) (firstn n cb)) eb) = n).
  { rewrite map2_length, length_map, length_firstn. lia. }
  apply list_eq_tabulate with (d := []).
  { rewrite length_map, map2_length. lia. }
  intros i Hi. destruct (He2 i Hi) as [Hei1 Hei2].
  destruct (Hc2 i ltac:(lia)) as [Hci1 Hci2].
  rewrite map_nth_lt with (d := []) by (rewrite map2_length; lia).
  rewrite map2_nth with (da := []) (db := 0) by lia.
  rewrite map2_nth with (da := []) (db := [])
    by (rewrite ?length_map, ?length_firstn; lia).
  rewrite map_nth_lt with (d := []) by (rewrite length_firstn; lia).
  rewrite nth_firstn. replace (i <? n)%nat with true
    by (symmetry; apply Nat.ltb_lt; lia).
  set (cbi := nth i cb []) in *. set (ebi := nth i eb []) in *.
  apply list_eq_tabulate with (d := []).
  { rewrite map2_length, length_map, map2_length, length_firstn. lia. }
  intros j Hj. pose proof (Hei2 j Hj) as Heij.
  pose proof (Hci2 j ltac:(lia)) as Hcij.
  rewrite map2_nth with (da := []) (db := 0)
    by (rewrite ?length_map, ?map2_length, ?length_firstn; lia).
  rewrite map_nth_lt with (d := [])
    by (rewrite map2_length, length_firstn; lia).
  rewrite map2_nth with (da := []) (db := [])
    by (rewrite ?length_firstn; lia).
  rewrite nth_firstn. replace (j <? n)%nat with true
    by (symmetry; apply Nat.ltb_lt; lia).
  set (cbij := nth j cbi []) in *. set (ebij := nth j ebi []) in *.
  apply list_eq_tabulate with (d := 0).
  { rewrite !length_map, map2_length. lia. }
  intros k Hk.
  rewrite !map_nth_lt with (d := 0)
    by (rewrite ?length_map, map2_length; lia).
  rewrite map2_nth with (da := 0) (db := 0) by lia.
  reflexivity.
Qed.

Lemma masked_edge_lls_length (correct_edges : list (list (list (list R)))) :
  edge_shapes batch n t p g correct_edges ->
  length (masked_edge_lls EPSILON g correct_edges) = batch.
Proof.
  intros (HB & HN & Hnp & Hs & (He0 & He) & (Hc0 & Hc)).
  unfold n_batch in HB.
  unfold masked_edge_lls, mul_mask_dest, mul_mask_src, edge_lls, crop_edges.
  rewrite !map2_length, length_map. lia.
Qed.

(** The edge loss of batch element [b] is the negative sum, over all node
    pairs and edge types, of the masked log-likelihood terms. *)
Lemma edge_loss_nth (correct_edges : list (list (list (list R)))) (b : nat) :
  edge_shapes batch n t p g correct_edges -> (b < batch)%nat ->
  nth b (edge_loss EPSILON g correct_edges) 0
  = - Rsum (tabulate n (fun i => Rsum (tabulate n (fun j =>
      Rsum (tabulate t (fun k => edge_term EPSILON g correct_edges b i j k)))))).
Proof.
  intros Hsh Hb. unfold edge_loss.
  rewrite map_nth_lt with (d := [])
    by (rewrite masked_edge_lls_length; assumption).
  rewrite masked_edge_lls_nth by assumption.
  unfold Rsum3, Rsum2. rewrite map_tabulate. f_equal. f_equal.
  apply tabulate_ext. intros i _. now rewrite map_tabulate.
Qed.


End EdgeLoss.

Lemma example_edge_shapes :
  edge_shapes 1 2 1 3 absent_node_state example_correct_edges /\
  edge_shapes 1 2 1 3 absent_node_state example_correct_edges'.
Proof.
  unfold edge_shapes, tensor4_shape, n_batch, n_nodes; simpl.
  repeat split; try lia; intros;
    repeat match goal with
           | H : (?x < _)%nat |- _ =>
               is_var x; destruct x; [| apply Nat.succ_lt_mono in H]
           end; simpl; try reflexivity; try lia.
Qed.


(** ** The training function *)

Section TrainProperties.

Context {collaborators : Collaborators}.
Variable self : Config.

(** Without graph supervision [_build] does not read the graph ground
    truth. *)
Lemma build_ignores_graph_inputs
      (snap_to_best using_dropout evaluate_accuracy : bool)
      (params : Params) (srng : Rng) (inputs inputs' : Inputs) :
  input_words inputs = input_words inputs' ->
  query_words inputs = query_words inputs' ->
  correct_output inputs = correct_output inputs' ->
  _build self false snap_to_best using_dropout evaluate_accuracy params
         inputs srng
  = _build self false snap_to_best using_dropout evaluate_accuracy params
           inputs' srng.
Proof.
  destruct inputs, inputs'. cbn [input_words query_words correct_output].
  intros -> -> ->. reflexivity.
Qed.

(** C10: when the model is constructed with [train_with_graph=False], two
    calls of [train] from the same state that differ only in the four graph
    ground-truth arguments return the same loss and [info] and leave the
    same parameters, optimizer state and random stream. *)
Theorem train_ignores_graph_inputs (st : ModelState) (inputs inputs' : Inputs) :
  train_with_graph self = false ->
  input_words inputs = input_words inputs' ->
  query_words inputs = query_words inputs' ->
  correct_output inputs = correct_output inputs' ->
  Model_train self st inputs = Model_train self st inputs'.
Proof.
  intros Hg. destruct inputs, inputs'.
  cbn [input_words query_words correct_output]. intros -> -> ->.
  unfold Model_train, train_fn, info_keys. rewrite Hg. reflexivity.
Qed.

End TrainProperties.

Lemma train_ignores_graph_inputs_witness :
  train_with_graph query_only_config = false /\
  Model_train query_only_config example_state example_inputs
  = Model_train query_only_config example_state example_inputs'.
Proof.
  split; [reflexivity |].
  apply (train_ignores_graph_inputs query_only_config example_state
                                    example_inputs example_inputs');
    reflexivity.
Defined.

(** The two calls of the witness do return a loss. *)
Example query_only_train_returns :
  exists loss train_info st',
    Model_train query_only_config example_state example_inputs
    = Some (loss, train_info, st').
Proof.
  eexists _, _, _.
  cbv -[Rplus Rmult Rdiv Rinv Ropp Rminus IZR exp ln INR Rmax MaxRlist
        Rle_dec example_EPSILON].
  reflexivity.
Qed.

(** ** The recurrence *)

(** Case analysis on the scrutinee at the head of a hypothesis
    [match x with ... end = Some y]. *)
Ltac destruct_head H :=
  match type of H with
  | match ?x with _ => _ end = _ => destruct x eqn:?; try discriminate H
  | (if ?x then _ else _) = _ => destruct x eqn:?; try discriminate H
  end.

Lemma py_last_app_tail {A : Type} (l tail : list A) :
  tail <> [] -> py_last (l ++ tail) = py_last tail.
Proof.
  intros Hne. unfold py_last. rewrite length_app.
  destruct tail as [| x tail]; [congruence |]. simpl length.
  rewrite nth_error_app2 by lia. f_equal. lia.
Qed.

Lemma py_drop_last_app_tail {A : Type} (n : nat) (l tail : list A) :
  (n <= length tail)%nat ->
  py_drop_last n (l ++ tail) = l ++ py_drop_last n tail.
Proof.
  intros Hn. unfold py_drop_last. rewrite length_app, firstn_app.
  rewrite firstn_all2 by lia. f_equal. f_equal. lia.
Qed.

Lemma py_take_last_app_tail {A : Type} (n : nat) (l tail : list A) :
  (n <= length tail)%nat ->
  py_take_last n (l ++ tail) = py_take_last n tail.
Proof.
  intros Hn. unfold py_take_last. rewrite length_app, skipn_app.
  rewrite skipn_all2 by lia. simpl. f_equal. lia.
Qed.

Lemma traverse_map_some {A B C : Type} (f : A -> option B) (g : C -> A)
      (h : C -> B) (l : list C) :
  (forall x, f (g x) = Some (h x)) -> traverse f (map g l) = Some (map h l).
Proof.
  intros H. induction l as [| x l IH]; [reflexivity |].
  simpl. rewrite H. simpl. rewrite IH. reflexivity.
Qed.

(** The columns of rows that are each the concatenation of two parts of
    fixed lengths. *)
Lemma swapaxes01_app {A X : Type} (n1 n2 : nat) (f g : X -> list A)
      (xs : list X) :
  (forall x, In x xs -> length (f x) = n1) ->
  (forall x, In x xs -> length (g x) = n2) ->
  swapaxes01 (n1 + n2) (map (fun x => f x ++ g x) xs)
  = swapaxes01 n1 (map f xs) ++ swapaxes01 n2 (map g xs).
Proof.
  intros Hf Hg. unfold swapaxes01. rewrite seq_app, map_app. f_equal.
  - apply map_ext_in. intros j Hj. apply in_seq in Hj.
    rewrite !flat_map_concat_map, !map_map. f_equal.
    apply map_ext_in. intros x Hx.
    rewrite nth_error_app1 by (rewrite Hf by assumption; lia). reflexivity.
  - simpl.
    replace (seq n1 n2) with (map (Nat.add n1) (seq 0 n2)).
    2:{ clear. rewrite <- (Nat.add_0_r n1) at 2. generalize 0%nat.
        induction n2 as [| n2 IH]; intros s; [reflexivity |].
        simpl. rewrite IH. f_equal. f_equal. lia. }
    rewrite map_map. apply map_ext_in. intros j Hj.
    rewrite !flat_map_concat_map, !map_map. f_equal.
    apply map_ext_in. intros x Hx.
    rewrite nth_error_app2 by (rewrite Hf by assumption; lia).
    rewrite Hf by assumption.
    now replace (n1 + j - n1)%nat with j by lia.
Qed.

Lemma swapaxes01_cons {A X : Type} (n : nat) (a : X -> A)
      (f : X -> list A) (xs : list X) :
  swapaxes01 (S n) (map (fun x => a x :: f x) xs)
  = map a xs :: swapaxes01 n (map f xs).
Proof.
  unfold swapaxes01. cbn [seq map]. f_equal.
  - rewrite flat_map_concat_map, map_map. simpl.
    induction xs as [| x xs IH]; [reflexivity |]. simpl. now rewrite IH.
  - rewrite <- seq_shift, map_map. apply map_ext. intros j.
    rewrite !flat_map_concat_map, !map_map. reflexivity.
Qed.

Lemma swapaxes01_singletons {A X : Type} (f : X -> A) (xs : list X) :
  swapaxes01 1 (map (fun x => [f x]) xs) = [map f xs].
Proof.
  unfold swapaxes01. simpl. f_equal.
  induction xs as [| x xs IH]; [reflexivity |]. simpl. now rewrite IH.
Qed.

Lemma swapaxes01_empties {A X : Type} (xs : list X) :
  swapaxes01 0 (map (fun _ => @nil A) xs) = [].
Proof. reflexivity. Qed.

Section ScanProperties.

Context {collaborators : Collaborators}.
Variable self : Config.
Variables with_correct_graph snap_to_best using_dropout evaluate_accuracy
  : bool.
Variable params : Params.
Variable iter_dropouts : list Tensor.

Lemma scan_fn_layout (input_repr : Slot) (stuff out : list Slot) :
  _scan_fn self with_correct_graph snap_to_best using_dropout
           evaluate_accuracy params iter_dropouts input_repr stuff = Some out ->
  exists pad gstate',
    py_last stuff = Some (IScalar pad) /\
    (with_correct_graph = true ->
     exists node_loss edge_loss overall_accuracy,
       scored_step self with_correct_graph snap_to_best evaluate_accuracy
                   params node_loss edge_loss overall_accuracy /\
       (dynamic_nodes self = true -> node_loss <> None) /\
       (evaluate_accuracy = true -> overall_accuracy <> None) /\
       out = flatten_to_const_size (graphspec self) pad gstate'
             ++ (scored_tail self evaluate_accuracy) node_loss edge_loss overall_accuracy) /\
    (with_correct_graph = false ->
     out = flatten_to_const_size (graphspec self) pad gstate').
Proof.
  unfold _scan_fn, obind. intros H.
  do 8 destruct_head H.
  assert (Hpad : py_last stuff = Some (IScalar n)).
  { assert (Hl2 : py_last l2 = Some (IScalar n)).
    { destruct (py_last l2) as [[] |]; try discriminate. simpl in *.
      congruence. }
    assert (Hsuffix : exists pre, stuff = pre ++ l2).
    { assert (H0 : exists pre, stuff = pre ++ l0).
      { destruct (has_word_node_mapping self).
        - destruct stuff as [| [] rest]; try discriminate.
          injection Heqo0 as _ <-. now exists [Tensor3 x].
        - injection Heqo0 as _ <-. now exists []. }
      assert (H1 : exists pre, l0 = pre ++ l1).
      { destruct with_correct_graph.
        - destruct l0 as [| [] [| [] [| [] [| [] rest]]]]; try discriminate.
          injection Heqo1 as _ <-.
          now exists [ITensor1 x; Tensor2 x0; Tensor3 x1; Tensor4 x2].
        - injection Heqo1 as _ <-. now exists []. }
      assert (H2 : exists pre, l1 = pre ++ l2).
      { destruct using_dropout.
        - destruct (traverse as_mask _); try discriminate.
          injection Heqo2 as _ <-.
          exists (firstn (length iter_dropouts) l1).
          symmetry. apply firstn_skipn.
        - injection Heqo2 as _ <-. now exists []. }
      destruct H0 as (p0' & ->), H1 as (p1' & ->), H2 as (p2' & ->).
      exists (p0' ++ p1' ++ p2'). now rewrite <- !app_assoc. }
    destruct Hsuffix as (pre & ->).
    rewrite py_last_app_tail; [assumption |].
    intros ->. discriminate. }
  destruct_head H.
  match type of H with
  | match ?x with _ => _ end = _ =>
      destruct x as [[g' | g' nl el acc] |] eqn:Hiter; [| | discriminate H]
  end.
  - destruct with_correct_graph eqn:Hwcg; [discriminate H |].
    exists n, g'. split; [assumption |].
    split; [discriminate |]. now injection H as <-.
  - destruct with_correct_graph eqn:Hwcg; [| discriminate H].
    exists n, g'. split; [assumption |]. split; [intros _ | discriminate].
    exists nl, el, acc. unfold scored_tail.
    split; [now exists l, o, g, o0, o1, g' |].
    destruct (dynamic_nodes self), nl as [nl |], evaluate_accuracy,
      acc as [acc |]; try discriminate H;
      injection H as <-; rewrite <- ?app_assoc;
      repeat split; try reflexivity; try discriminate; congruence.
Qed.

Lemma flatten_to_const_size_length (spec : GraphStateSpec) (pad : nat)
      (g : GraphState) :
  length (flatten_to_const_size spec pad g) = 5%nat.
Proof. reflexivity. Qed.

Lemma scan_columns_scored (batch n_sentences : nat)
      (steps : list ScoredStep) :
  Forall (scored_step_ok self with_correct_graph snap_to_best evaluate_accuracy params) steps ->
  swapaxes01 (length (scan_outputs_info self true evaluate_accuracy batch
                                        n_sentences))
             (map (scored_row self evaluate_accuracy) steps)
  = swapaxes01 5 (map (fun st => flatten_to_const_size
                                   (graphspec self) (step_pad st)
                                   (step_gstate st)) steps)
    ++ (scored_columns self evaluate_accuracy) steps.
Proof.
  intros Hok. rewrite Forall_forall in Hok.
  unfold scan_outputs_info, scored_columns.
  rewrite length_app, length_map, flatten_to_const_size_length.
  rewrite (map_ext_in (scored_row self evaluate_accuracy)
             (fun st => flatten_to_const_size (graphspec self) (step_pad st)
                                              (step_gstate st)
                        ++ (if dynamic_nodes self
                            then [Tensor1 (step_node_loss_value st)] else [])
                        ++ [Tensor1 (step_edge_loss st)]
                        ++ (if evaluate_accuracy
                            then [BTensor1 (step_accuracy_value st)]
                            else []))).
  2:{ intros st Hst. destruct (Hok st Hst) as (_ & Hd & Ha).
      unfold scored_row, scored_tail, step_node_loss_value,
        step_accuracy_value.
      destruct (dynamic_nodes self), (step_node_loss st),
        evaluate_accuracy, (step_accuracy st);
        try reflexivity;
        try (exfalso; apply Hd; reflexivity);
        try (exfalso; apply Ha; reflexivity). }
  destruct (dynamic_nodes self), evaluate_accuracy;
    cbn [length app];
    match goal with
    | |- swapaxes01 (5 + ?k) _ = _ =>
        rewrite (swapaxes01_app 5 k) by (intros; reflexivity)
    end;
    f_equal; rewrite ?swapaxes01_cons; reflexivity.
Qed.

Lemma reduce_scan_scored (batch n_sentences : nat)
      (flat_columns : list (list Slot)) (steps : list ScoredStep) :
  reduce_scan self true evaluate_accuracy batch n_sentences
              (flat_columns ++ (scored_columns self evaluate_accuracy) steps)
  = Some (flat_columns,
          (if evaluate_accuracy
           then Some (all_axis0 batch (map step_accuracy_value steps))
           else None),
          Some ((if dynamic_nodes self
                 then reduced_loss batch (map step_node_loss_value steps)
                      + reduced_loss batch (map step_edge_loss steps)
                 else reduced_loss batch (map step_edge_loss steps))
                / INR n_sentences),
          (scored_info self evaluate_accuracy) batch steps).
Proof.
  unfold reduce_scan, scored_columns, scored_info, reduced_loss.
  destruct (dynamic_nodes self), evaluate_accuracy; cbn [app];
    rewrite ?py_last_app_tail by discriminate;
    rewrite ?py_drop_last_app_tail by (simpl; lia);
    rewrite ?py_take_last_app_tail by (simpl; lia);
    cbn [py_last py_drop_last py_take_last length Nat.sub nth_error firstn
         skipn obind];
    rewrite ?app_nil_r;
    rewrite ?(traverse_map_some as_btensor1 _ step_accuracy_value)
      by reflexivity;
    rewrite ?(traverse_map_some as_tensor1 _ step_node_loss_value)
      by reflexivity;
    rewrite ?(traverse_map_some as_tensor1 _ step_edge_loss)
      by reflexivity;
    cbn [obind];
    rewrite ?py_take_last_app_tail by (simpl; lia);
    rewrite ?py_drop_last_app_tail by (simpl; lia);
    rewrite ?py_last_app_tail by discriminate;
    cbn [py_last py_drop_last py_take_last length Nat.sub nth_error firstn
         skipn obind];
    rewrite ?app_nil_r;
    rewrite ?(traverse_map_some as_tensor1 _ step_node_loss_value)
      by reflexivity;
    rewrite ?(traverse_map_some as_tensor1 _ step_edge_loss)
      by reflexivity;
    reflexivity.
Qed.

End ScanProperties.

Section BuildProperties.

Context {collaborators : Collaborators}.
Variable self : Config.

(** What a supervised call of [_iter_fn] returns: the edge loss of the
    state after the edge update against the step's ground-truth edges, and
    a node loss only when nodes are created dynamically. *)
Lemma iter_fn_scored (with_correct_graph snap_to_best evaluate_accuracy : bool)
      (params : Params) (step_nodes : option (list R)) (step_edges : list R)
      (step_acc : option (list bool)) :
  scored_step self with_correct_graph snap_to_best evaluate_accuracy params
              step_nodes step_edges step_acc ->
  (exists gstate input_repr masks correct_edges,
      step_edges
      = edge_loss EPSILON
                  (fst (edge_state_updater_process params gstate input_repr
                                                   masks))
                  correct_edges) /\
  (dynamic_nodes self = false -> step_nodes = None).
Proof.
  intros (input_repr & ref_matrix & gstate & correct & masks & gstate' & H).
  unfold _iter_fn, obind in H.
  repeat destruct_head H.
  all: injection H as <- <- <- <-.
  all: split;
    [match goal with
     | Hq : edge_state_updater_process _ ?a ?b ?c = _ |- _ =>
         exists a, b, c; eexists; rewrite Hq; reflexivity
     end |].
  all: intros Hd; try reflexivity; try congruence.
  all: match goal with
       | H : (if dynamic_nodes self then _ else _) = _ |- _ =>
           rewrite Hd in H; injection H; intros; subst; reflexivity
       end.
Qed.

Lemma answer_query_loss (snap_to_best : bool) (params : Params)
      (inputs : Inputs) (batch n_sentences : nat) (final_gstate : GraphState)
      (query_repr : list (list R)) (query_ref_matrix : list (list (list R)))
      (states_mask : option Tensor) (info0 info1 : list (String.string * R))
      (srng srng' : Rng) (output : list (list (list R)))
      (query_loss : option R) :
  answer_query self snap_to_best params inputs batch n_sentences final_gstate
               query_repr query_ref_matrix states_mask info0 srng
  = (output, query_loss, info1, srng') ->
  if train_with_query self
  then query_loss
       = Some (query_loss_of self output (correct_output inputs) batch) /\
       info1 = dict_set "query_loss"
                        (query_loss_of self output (correct_output inputs)
                                       batch) info0
  else query_loss = None /\ info1 = info0.
Proof.
  unfold answer_query, query_loss_of. intros H.
  destruct (train_with_query self).
  - repeat destruct_head H; injection H as <- <- <- <-; split; reflexivity.
  - injection H as <- <- <- <-. now split.
Qed.

Lemma build_unsupervised (snap_to_best using_dropout evaluate_accuracy : bool)
      (params : Params) (inputs : Inputs) (srng : Rng)
      (r : BuildResult Rng) :
  _build self false snap_to_best using_dropout evaluate_accuracy params inputs
         srng = Some r ->
  let batch := length (input_words inputs) in
  let query_loss :=
    query_loss_of self (final_output r) (correct_output inputs) batch in
  full_loss r = (if train_with_query self then 0 + query_loss else 0) /\
  info r = (if train_with_query self
            then [("query_loss"%string, query_loss)] else []).
Proof.
  unfold _build. intros H.
  destruct (input_transformer_process params (concat (input_words inputs)))
    as [flat_input_reprs flat_ref_matrices].
  destruct (input_transformer_process params (query_words inputs))
    as [query_repr query_ref_matrix].
  destruct (sample_iter_dropouts self using_dropout srng)
    as [[iter_dropouts states_mask] srng1].
  unfold obind in H.
  destruct (theano_scan _ _ _ _) as [all_scan_out |]; [| discriminate].
  cbn [reduce_scan] in H.
  destruct_head H. destruct p as [[final_flat query_repr'] query_ref'].
  destruct_head H.
  destruct (answer_query _ _ _ _ _ _ _ _ _ _ _ _)
    as [[[output query_loss] info1] srng2] eqn:Hq.
  apply answer_query_loss in Hq.
  destruct (train_with_query self).
  - destruct Hq as [-> ->]. injection H as <-. split; reflexivity.
  - destruct Hq as [-> ->]. injection H as <-. split; reflexivity.
Qed.

Lemma combine_fst_snd {A B : Type} (l : list (A * B)) :
  combine (map fst l) (map snd l) = l.
Proof. induction l as [| [a b] l IH]; simpl; congruence. Qed.

End BuildProperties.

Ltac run_model :=
  cbv -[Rplus Rmult Rdiv Rinv Ropp Rminus IZR exp ln INR Rmax MaxRlist
        Rle_dec example_EPSILON];
  reflexivity.

(** The example model trains on the example story. *)
Lemma example_train_returns :
  exists loss train_info st',
    Model_train example_config example_state example_inputs
    = Some (loss, train_info, st').
Proof. eexists _, _, _. run_model. Defined.

Lemma example_build_returns :
  exists r, _build example_config true false true false
                   (state_params example_state) example_inputs
                   (state_srng example_state) = Some r.
Proof. eexists. run_model. Defined.

(** ** Padding *)









Lemma Rsum_tabulate_ext (n : nat) (f g : nat -> R) :
  (forall i, (i < n)%nat -> f i = g i) ->
  Rsum (tabulate n f) = Rsum (tabulate n g).
Proof. intros H. f_equal. now apply tabulate_ext. Qed.

Lemma forallb_tabulate {A : Type} (f : A -> bool) (n : nat) (g : nat -> A) :
  forallb f (tabulate n g)
  = forallb (fun x => x) (tabulate n (fun i => f (g i))).
Proof.
  unfold tabulate. induction (seq 0 n) as [| i l IH]; [reflexivity |].
  simpl. now rewrite IH.
Qed.

Section EdgeAccuracy.

Variable independent_best : R -> R.
Variables batch n t p : nat.
Variable g : GraphState.

Lemma edge_accuracy_length (correct_edges : list (list (list (list R)))) :
  edge_shapes batch n t p g correct_edges ->
  length (edge_accuracy independent_best g correct_edges) = batch.
Proof.
  intros (HB & HN & Hnp & Hs & (He0 & He) & (Hc0 & Hc)).
  unfold n_batch in HB. unfold edge_accuracy, ok_mask, crop_edges.
  rewrite length_map, !map2_length, !length_map. lia.
Qed.

(** The edge accuracy of batch element [b]: every edge between every pair
    of nodes counts as correct. *)
Lemma edge_accuracy_nth (correct_edges : list (list (list (list R))))
      (b : nat) :
  edge_shapes batch n t p g correct_edges -> (b < batch)%nat ->
  nth b (edge_accuracy independent_best g correct_edges) true
  = forallb (fun x => x) (tabulate n (fun i =>
      forallb (fun x => x) (tabulate n (fun j =>
        forallb (fun x => x) (tabulate t (fun k =>
          edge_ok independent_best g correct_edges b i j k)))))).
Proof.
  intros Hsh Hb. pose proof Hsh as (HB & HN & Hnp & Hs & (He0 & He) & (Hc0 & Hc)).
  unfold n_batch in HB.
  specialize (Hs b Hb). destruct (He b Hb) as [He1 He2].
  destruct (Hc b Hb) as [Hc1 Hc2].
  unfold edge_accuracy, ok_mask, crop_edges. rewrite HN.
  rewrite map_nth_lt with (d := [])
    by (rewrite !map2_length, !length_map; lia).
  rewrite map2_nth with (da := []) (db := [])
    by (rewrite ?map2_length, ?length_map; lia).
  rewrite map2_nth with (da := []) (db := [])
    by (rewrite ?map2_length, ?length_map; lia).
  rewrite !map_nth_lt with (d := []) by lia.
  set (cb := nth b correct_edges []) in *.
  set (eb := nth b (edge_strengths g) []) in *.
  set (sb := nth b (node_strengths g) []) in *.
  match goal with
  | |- forallb ?f ?l = _ =>
      replace l with
        (tabulate n (fun i => tabulate n (fun j => tabulate t (fun k =>
           edge_ok independent_best g correct_edges b i j k))))
  end.
  { rewrite forallb_tabulate. f_equal. apply tabulate_ext. intros i _.
    rewrite forallb_tabulate. reflexivity. }
  symmetry. apply list_eq_tabulate with (d := []).
  { rewrite !map2_length, !length_map, length_firstn. lia. }
  intros i Hi. destruct (He2 i Hi) as [Hei1 Hei2].
  destruct (Hc2 i ltac:(lia)) as [Hci1 Hci2].
  rewrite map2_nth with (da := []) (db := [])
    by (rewrite ?map2_length, ?length_map, ?length_firstn; lia).
  rewrite map2_nth with (da := []) (db := [])
    by (rewrite ?length_map, ?length_firstn; lia).
  rewrite !map_nth_lt with (d := []) by (rewrite ?length_firstn; lia).
  rewrite map_nth_lt with (d := 0) by lia.
  rewrite nth_firstn. replace (i <? n)%nat with true
    by (symmetry; apply Nat.ltb_lt; lia).
  set (cbi := nth i cb []) in *. set (ebi := nth i eb []) in *.
  apply list_eq_tabulate with (d := []).
  { rewrite !map2_length, !length_map, length_firstn. lia. }
  intros j Hj. pose proof (Hei2 j Hj) as Heij.
  pose proof (Hci2 j ltac:(lia)) as Hcij.
  rewrite map2_nth with (da := []) (db := true)
    by (rewrite ?map2_length, ?length_map, ?length_firstn; lia).
  rewrite map2_nth with (da := []) (db := [])
    by (rewrite ?length_map, ?length_firstn; lia).
  rewrite map_nth_lt with (d := []) by lia.
  rewrite map_nth_lt with (d := 0) by lia.
  rewrite nth_firstn. replace (j <? n)%nat with true
    by (symmetry; apply Nat.ltb_lt; lia).
  set (cbij := nth j cbi []) in *. set (ebij := nth j ebi []) in *.
  apply list_eq_tabulate with (d := true).
  { rewrite length_map, map2_length, length_map. lia. }
  intros k Hk.
  rewrite map_nth_lt with (d := true)
    by (rewrite map2_length, length_map; lia).
  rewrite map2_nth with (da := 0) (db := 0) by (rewrite ?length_map; lia).
  rewrite map_nth_lt with (d := 0) by lia.
  reflexivity.
Qed.

End EdgeAccuracy.


Section Padding.

Variable EPSILON : R.
Variable independent_best : R -> R.
Variable spec : GraphStateSpec.
Variables batch n t p pad : nat.
Variable g : GraphState.
Variable correct_edges : list (list (list (list R))).

Hypothesis shapes : edge_shapes batch n t p g correct_edges.
Hypothesis fits : (n <= pad <= p)%nat.
Hypothesis edge_types : num_edge_types spec = t.








End Padding.

(** ** The constructor *)


Lemma forallb_no_graph_app (l1 l2 : list Event) :
  forallb (fun e => negb (builds_graph e)) (l1 ++ l2)
  = forallb (fun e => negb (builds_graph e)) l1
    && forallb (fun e => negb (builds_graph e)) l2.
Proof. apply forallb_app. Qed.



(** * Further properties of the code *)

(** ** The aggregate representation in general *)

Lemma tanh_bounds (x : R) : -1 < tanh x < 1.
Proof.
  unfold tanh, sinh, cosh.
  pose proof (exp_pos x) as Hx. pose proof (exp_pos (- x)) as Hx'.
  split.
  - apply Rmult_lt_reg_r with ((exp x + exp (- x)) / 2); [lra |].
    unfold Rdiv at 2. rewrite Rmult_assoc, Rinv_l by lra. lra.
  - apply Rmult_lt_reg_r with ((exp x + exp (- x)) / 2); [lra |].
    unfold Rdiv at 1. rewrite Rmult_assoc, Rinv_l by lra. lra.
Qed.

Lemma vsum_length (w : nat) (rows : list (list R)) :
  Forall (fun r => length r = w) rows -> length (vsum w rows) = w.
Proof.
  unfold vsum. induction 1 as [| r rows Hr _ IH]; simpl.
  - apply repeat_length.
  - rewrite map2_length, IH, Hr. apply Nat.min_id.
Qed.

Lemma vsum_nth (w : nat) (rows : list (list R)) (k : nat) :
  Forall (fun r => length r = w) rows -> (k < w)%nat ->
  nth k (vsum w rows) 0 = Rsum (map (fun r => nth k r 0) rows).
Proof.
  intros Hrows Hk. induction Hrows as [| r rows Hr Hrows IH]; simpl.
  - unfold vsum; simpl. apply nth_repeat.
  - change (fold_right (map2 Rplus) (repeat 0 w) rows) with (vsum w rows).
    rewrite (map2_nth Rplus r (vsum w rows) 0 0 0 k).
    + now rewrite IH.
    + lia.
    + rewrite vsum_length by assumption. lia.
Qed.

Lemma softmax_pos (row : list R) : Forall (fun x => 0 < x) (softmax row).
Proof.
  unfold softmax. apply Forall_forall. intros y Hy.
  apply in_map_iff in Hy. destruct Hy as (x & <- & Hx).
  apply Rdiv_lt_0_compat; [apply exp_pos |].
  apply Rsum_pos.
  - destruct row; [contradiction | discriminate].
  - apply Forall_forall. intros z Hz. apply in_map_iff in Hz.
    destruct Hz as (? & <- & _). apply exp_pos.
Qed.

Lemma softmax_length (row : list R) : length (softmax row) = length row.
Proof. apply length_map. Qed.

Lemma Rsum_map2_weighted {A : Type} (f : A -> R) (ws : list R)
      (xs : list A) :
  length ws = length xs -> ws <> [] ->
  Forall (fun w => 0 < w) ws -> (forall x, -1 < f x < 1) ->
  - Rsum ws < Rsum (map2 (fun w x => w * f x) ws xs) < Rsum ws.
Proof.
  intros Hlen Hne Hpos Hf. revert xs Hlen.
  induction Hpos as [| w ws Hw Hpos IH]; [contradiction |].
  intros [| x xs] Hlen; [discriminate |]. simpl in Hlen.
  injection Hlen as Hlen. simpl.
  assert (Hwx : - w < w * f x < w) by (specialize (Hf x); nra).
  destruct ws as [| w' ws'].
  - destruct xs; [| discriminate]. simpl. lra.
  - assert (Hne' : w' :: ws' <> []) by discriminate.
    specialize (IH Hne' xs Hlen). simpl in IH |- *. lra.
Qed.

Lemma node_activation_width (W : list (list R)) (b obs : list R) :
  Forall (fun r => length r = length b) W ->
  length (node_activation W b obs) = length b.
Proof.
  intros HW. unfold node_activation, do_layer, T_dot. simpl.
  rewrite length_map, map2_length, vsum_length; [apply Nat.min_id |].
  revert W HW. induction obs as [| x obs IH]; intros [| w W] HW; simpl;
    try constructor.
  - rewrite length_map. now inversion HW.
  - apply IH. now inversion HW.
Qed.

Lemma nth_map_default {A B : Type} (f : A -> B) (l : list A) (d : A)
      (d' : B) (k : nat) :
  f d = d' -> nth k (map f l) d' = f (nth k l d).
Proof. intros <-. apply map_nth. Qed.

Lemma process_length (EPSILON : R) (width : nat) (W : list (list R))
      (b : list R) (g : GraphState) :
  length (process EPSILON width W b g) = n_batch g.
Proof.
  unfold process, selector, representations, activation_strengths,
    existence_penalty, activations, reshape3, n_batch.
  rewrite map2_length, !length_map, map2_length, !length_map, length_seq.
  lia.
Qed.

Lemma softmax_shift (c : R) (row : list R) :
  softmax (map (fun x => x + c) row) = softmax row.
Proof.
  unfold softmax. rewrite !map_map.
  assert (Hsum : Rsum (map (fun x => exp (x + c)) row)
                 = exp c * Rsum (map exp row)).
  { induction row as [| x row IH]; simpl; [lra |].
    rewrite IH, exp_plus. lra. }
  rewrite Hsum. apply map_ext_in. intros x Hx. rewrite exp_plus.
  assert (Hpos : 0 < Rsum (map exp row)).
  { apply Rsum_pos.
    - destruct row; [contradiction | discriminate].
    - apply Forall_forall. intros y Hy. apply in_map_iff in Hy.
      destruct Hy as (? & <- & _). apply exp_pos. }
  pose proof (exp_pos c). field. split; lra.
Qed.

Section AggregateInGeneral.

Variable EPSILON : R.
Variable representation_width : nat.
Variable W : list (list R).
Variable b : list R.

(** X1: The attention weight of every node is its strength plus [EPSILON] times
    the exponential of its logit, normalised over the nodes of the batch
    element; it is positive, and the weights of a graph that has nodes sum
    to 1. *)
Theorem aggregate_attention_weights (g : GraphState) (i : nat) :
  0 < EPSILON -> aggregate_shapes g -> (i < n_batch g)%nat ->
  Forall (fun s => 0 <= s) (nth i (node_strengths g) []) ->
  let weights := nth i (selector EPSILON W b g) [] in
  let u := map2 (fun a s => (s + EPSILON) * exp (nth 0 a 0))
                (node_activations W b g i) (nth i (node_strengths g) []) in
  weights = map (fun x => x / Rsum u) u /\
  length weights = n_nodes g /\
  Forall (fun w => 0 < w) weights /\
  ((0 < n_nodes g)%nat -> Rsum weights = 1).
Proof.
  intros He Hg Hi Hs weights u. subst weights.
  assert (Hlen : length (map2 (fun (a : list R) (s : R) =>
                                 nth 0 a 0 + ln (s + EPSILON))
                              (node_activations W b g i)
                              (nth i (node_strengths g) [])) = n_nodes g).
  { rewrite map2_length, node_activations_length by assumption.
    destruct Hg as (_ & _ & Hss & _).
    rewrite (Forall_nth_length (n_nodes g)) by assumption.
    apply Nat.min_id. }
  rewrite selector_nth by assumption. repeat split.
  - now apply softmax_existence_penalty.
  - now rewrite softmax_length.
  - apply softmax_pos.
  - intros Hn. apply softmax_sums_to_one. intros Hnil.
    rewrite Hnil in Hlen. simpl in Hlen. lia.
Qed.

(** X2: The aggregate of a graph that has nodes has one row per batch
    element and [representation_width] columns, and each of its entries
    lies strictly between -1 and 1. *)
Theorem aggregate_output_bounded (g : GraphState) :
  0 < EPSILON -> aggregate_shapes g -> (0 < n_nodes g)%nat ->
  length b = S representation_width ->
  Forall (fun r => length r = S representation_width) W ->
  Forall (Forall (fun s => 0 <= s)) (node_strengths g) ->
  let out := process EPSILON representation_width W b g in
  length out = n_batch g /\
  forall i, (i < n_batch g)%nat ->
    length (nth i out []) = representation_width /\
    forall k, (k < representation_width)%nat ->
      -1 < nth k (nth i out []) 0 < 1.
Proof.
  intros He Hg Hnodes Hb HW Hs out. subst out.
  split; [apply process_length |].
  intros i Hi. rewrite process_nth by assumption.
  set (sel := nth i (selector EPSILON W b g) []).
  set (acts := node_activations W b g i).
  assert (Hacts : length acts = n_nodes g)
    by now apply node_activations_length.
  assert (Hsel : length sel = n_nodes g).
  { unfold sel. rewrite selector_nth, softmax_length, map2_length by assumption.
    fold acts. rewrite Hacts. destruct Hg as (_ & _ & Hss & _).
    rewrite (Forall_nth_length (n_nodes g)) by assumption.
    apply Nat.min_id. }
  assert (Hrows : Forall (fun r => length r = representation_width)
                         (map2 (fun w a => map (fun x => w * tanh x) (tl a))
                               sel acts)).
  { apply Forall_forall. intros r Hr.
    apply (In_nth _ _ []) in Hr. destruct Hr as (j & Hj & <-).
    rewrite map2_length in Hj.
    rewrite map2_nth with (da := 0) (db := []) by lia.
    rewrite length_map. unfold acts, node_activations.
    assert (Hj' : (j < length acts)%nat) by lia.
    unfold acts, node_activations in Hj'. rewrite map2_length in Hj'.
    rewrite map2_nth with (da := []) (db := []) by lia.
    pose proof (node_activation_width W b
                  (nth j (nth i (node_ids g) []) []
                   ++ nth j (nth i (node_states g) []) [])) as Hw.
    rewrite Hb in Hw.
    destruct (node_activation W b _) as [| a0 rest]; simpl in *.
    - specialize (Hw HW). discriminate.
    - specialize (Hw HW). lia. }
  split; [now apply vsum_length |].
  intros k Hk. rewrite vsum_nth by assumption.
  rewrite map_map2.
  rewrite (map2_ext_in _ (fun w a => w * tanh (nth k (tl a) 0))).
  2:{ intros w a _ _.
      apply (nth_map_default (fun x => w * tanh x) (tl a) 0 0 k).
      rewrite tanh_0. lra. }
  destruct (Nat.eq_dec (n_nodes g) 0) as [Hz | Hnz].
  - destruct sel; [| simpl in Hsel; lia]. simpl. lra.
  - assert (Hsum : Rsum sel = 1).
    { unfold sel. rewrite selector_nth by assumption.
      apply softmax_sums_to_one. intros Hnil.
      unfold sel in Hsel. rewrite selector_nth, softmax_length in Hsel
        by assumption.
      rewrite Hnil in Hsel. simpl in Hsel. lia. }
    pose proof (Rsum_map2_weighted (fun a => tanh (nth k (tl a) 0)) sel acts)
      as Hbound.
    rewrite Hsum in Hbound. apply Hbound.
    + lia.
    + intros Hnil. rewrite Hnil in Hsel. simpl in Hsel. lia.
    + unfold sel. rewrite selector_nth by assumption. apply softmax_pos.
    + intros a. apply tanh_bounds.
Qed.

(** X3: When all nodes of a batch element have the same strength, the
    existence penalty cancels in the softmax: the attention weights are the
    softmax of the logits alone. *)
Theorem aggregate_uniform_strengths (g : GraphState) (i : nat) (s : R) :
  0 < EPSILON -> aggregate_shapes g -> (i < n_batch g)%nat -> 0 <= s ->
  (forall j, (j < n_nodes g)%nat ->
             nth j (nth i (node_strengths g) []) 0 = s) ->
  nth i (selector EPSILON W b g) []
  = softmax (map (fun a => nth 0 a 0) (node_activations W b g i)).
Proof.
  intros He Hg Hi Hs Hall. rewrite selector_nth by assumption.
  pose proof (node_activations_length W b g i Hg Hi) as Hacts.
  assert (Hss : length (nth i (node_strengths g) []) = n_nodes g).
  { destruct Hg as (_ & _ & Hss & _). now apply Forall_nth_length. }
  assert (Hrow : map2 (fun (a : list R) (x : R) =>
                         nth 0 a 0 + ln (x + EPSILON))
                      (node_activations W b g i)
                      (nth i (node_strengths g) [])
                 = map (fun x => x + ln (s + EPSILON))
                       (map (fun a => nth 0 a 0)
                            (node_activations W b g i))).
  { apply nth_ext with (d := 0) (d' := 0).
    - rewrite map2_length, !length_map. lia.
    - rewrite map2_length. intros j Hj.
      rewrite map2_nth with (da := []) (db := 0) by lia.
      rewrite map_map.
      rewrite map_nth_lt with (d := []) by lia.
      rewrite Hall by lia. reflexivity. }
  rewrite Hrow. apply softmax_shift.
Qed.

End AggregateInGeneral.

Lemma map2_combine {A B C : Type} (f : A -> B -> C) (la : list A)
      (lb : list B) :
  map2 f la lb = map (fun p => f (fst p) (snd p)) (combine la lb).
Proof.
  revert lb. induction la as [| a la IH]; intros [| x lb]; simpl; auto.
  now rewrite IH.
Qed.

Lemma Rsum_Permutation (l l' : list R) :
  Permutation l l' -> Rsum l = Rsum l'.
Proof. induction 1; simpl; lra. Qed.

Lemma map2_Rplus_swap (x y z : list R) :
  map2 Rplus x (map2 Rplus y z) = map2 Rplus y (map2 Rplus x z).
Proof.
  revert y z. induction x as [| a x IH]; intros [| c y] [| e z]; simpl;
    try reflexivity.
  rewrite IH. f_equal. lra.
Qed.

Lemma vsum_Permutation (w : nat) (rows rows' : list (list R)) :
  Permutation rows rows' -> vsum w rows = vsum w rows'.
Proof.
  unfold vsum. induction 1; simpl.
  - reflexivity.
  - now f_equal.
  - apply map2_Rplus_swap.
  - congruence.
Qed.

Lemma combine_split_maps {A B : Type} (la : list A) (lb : list B) :
  length la = length lb ->
  la = map fst (combine la lb) /\ lb = map snd (combine la lb).
Proof.
  revert lb. induction la as [| a la IH]; intros [| x lb] Hlen; simpl in *;
    try discriminate; auto.
  injection Hlen as Hlen. destruct (IH lb Hlen) as (H1 & H2).
  split; f_equal; assumption.
Qed.

Section AggregateNodeOrder.

Variable EPSILON : R.
Variable representation_width : nat.
Variable W : list (list R).
Variable b : list R.

Lemma process_nth_nodes (g : GraphState) (i : nat) :
  aggregate_shapes g -> (i < n_batch g)%nat ->
  nth i (process EPSILON representation_width W b g) []
  = aggregate_nodes EPSILON representation_width W b (nodes_of g i).
Proof.
  intros Hg Hi. rewrite process_nth, selector_nth by assumption.
  unfold aggregate_nodes, nodes_of, node_activations, softmax.
  rewrite (map2_combine _ (nth i (node_ids g) [])).
  remember (nth i (node_strengths g) []) as ss eqn:Ess.
  remember (combine (nth i (node_ids g) []) (nth i (node_states g) []))
    as nodes eqn:Enodes.
  assert (Hlen : length ss = length nodes).
  { subst ss nodes. rewrite length_combine.
    destruct Hg as (Hids & Hst & Hss & Hii & Hsi).
    rewrite !(Forall_nth_length (n_nodes g)) by (assumption || lia).
    lia. }
  destruct (combine_split_maps ss nodes Hlen) as (Hss & Hnodes).
  set (cn := combine ss nodes) in *. clearbody cn. clear Ess Enodes Hlen.
  subst ss nodes.
  repeat rewrite ?map_map, ?map2_map_l, ?map2_map_r, ?map2_same, ?map_map2.
  reflexivity.
Qed.

Lemma aggregate_nodes_Permutation (nodes nodes' : list (R * (list R * list R))) :
  Permutation nodes nodes' ->
  aggregate_nodes EPSILON representation_width W b nodes
  = aggregate_nodes EPSILON representation_width W b nodes'.
Proof.
  intros Hp. unfold aggregate_nodes.
  rewrite (Rsum_Permutation _ _ (Permutation_map _ Hp)).
  apply vsum_Permutation. now apply Permutation_map.
Qed.

(** X4: The aggregate of a batch element depends on the collection of its
    nodes only, not on the order in which the state lists them. *)
Theorem aggregate_ignores_node_order (g g' : GraphState) (i i' : nat) :
  aggregate_shapes g -> aggregate_shapes g' ->
  (i < n_batch g)%nat -> (i' < n_batch g')%nat ->
  Permutation (nodes_of g i) (nodes_of g' i') ->
  nth i (process EPSILON representation_width W b g) []
  = nth i' (process EPSILON representation_width W b g') [].
Proof.
  intros Hg Hg' Hi Hi' Hp.
  rewrite !process_nth_nodes by assumption.
  now apply aggregate_nodes_Permutation.
Qed.

End AggregateNodeOrder.

Lemma two_node_state_shapes : aggregate_shapes two_node_state.
Proof.
  unfold aggregate_shapes, n_batch, n_nodes; simpl;
    repeat split; repeat constructor.
Qed.

Lemma example_EPSILON_pos : 0 < example_EPSILON.
Proof. unfold example_EPSILON; lra. Qed.

Lemma aggregate_attention_weights_witness :
  0 < example_EPSILON /\
  let weights := nth 0 (selector example_EPSILON example_W example_b
                                 two_node_state) [] in
  let u := map2 (fun a s => (s + example_EPSILON) * exp (nth 0 a 0))
                (node_activations example_W example_b two_node_state 0)
                [1; 0] in
  weights = map (fun x => x / Rsum u) u /\
  length weights = 2%nat /\
  Forall (fun w => 0 < w) weights /\
  ((0 < 2)%nat -> Rsum weights = 1).
Proof.
  split; [exact example_EPSILON_pos |].
  apply (aggregate_attention_weights example_EPSILON example_W example_b
                                     two_node_state 0
                                     example_EPSILON_pos
                                     two_node_state_shapes).
  - unfold n_batch; simpl; lia.
  - simpl. repeat constructor; lra.
Defined.

Lemma aggregate_output_bounded_witness :
  let out := process example_EPSILON 1 example_W example_b two_node_state in
  length out = 1%nat /\
  forall i, (i < 1)%nat ->
    length (nth i out []) = 1%nat /\
    forall k, (k < 1)%nat -> -1 < nth k (nth i out []) 0 < 1.
Proof.
  apply (aggregate_output_bounded example_EPSILON 1 example_W example_b
                                  two_node_state example_EPSILON_pos
                                  two_node_state_shapes).
  - unfold n_nodes; simpl; lia.
  - reflexivity.
  - repeat constructor.
  - simpl. repeat constructor; lra.
Defined.

Lemma aggregate_uniform_strengths_witness :
  0 < example_EPSILON /\
  nth 0 (selector example_EPSILON example_W example_b uniform_state) []
  = softmax (map (fun a => nth 0 a 0)
                 (node_activations example_W example_b uniform_state 0)).
Proof.
  split; [exact example_EPSILON_pos |].
  apply (aggregate_uniform_strengths example_EPSILON example_W example_b
                                     uniform_state 0 1 example_EPSILON_pos).
  - unfold aggregate_shapes, n_batch, n_nodes; simpl;
      repeat split; repeat constructor.
  - unfold n_batch; simpl; lia.
  - lra.
  - unfold n_nodes; intros [| [| j]] Hj; simpl in *; try reflexivity; lia.
Defined.

Lemma aggregate_ignores_node_order_witness :
  Permutation (nodes_of two_node_state 0) (nodes_of two_node_state_swapped 0)
  /\ nth 0 (process example_EPSILON 1 example_W example_b two_node_state) []
     = nth 0 (process example_EPSILON 1 example_W example_b
                      two_node_state_swapped) [].
Proof.
  assert (Hp : Permutation (nodes_of two_node_state 0)
                           (nodes_of two_node_state_swapped 0))
    by (unfold nodes_of; simpl; apply perm_swap).
  split; [exact Hp |].
  apply (aggregate_ignores_node_order example_EPSILON 1 example_W example_b
                                      two_node_state two_node_state_swapped
                                      0 0 two_node_state_shapes).
  - unfold aggregate_shapes, n_batch, n_nodes; simpl;
      repeat split; repeat constructor.
  - unfold n_batch; simpl; lia.
  - unfold n_batch; simpl; lia.
  - exact Hp.
Defined.

(** ** The edge loss and the edge accuracy in general *)

Lemma Rsum_tabulate_le (n : nat) (f g : nat -> R) :
  (forall i, (i < n)%nat -> f i <= g i) ->
  Rsum (tabulate n f) <= Rsum (tabulate n g).
Proof.
  unfold tabulate. intros H.
  assert (Hin : forall i, In i (seq 0 n) -> f i <= g i)
    by (intros i Hi; apply in_seq in Hi; apply H; lia).
  clear H. induction (seq 0 n) as [| i l IH]; simpl; [lra |].
  pose proof (Hin i (or_introl eq_refl)).
  assert (Rsum (map f l) <= Rsum (map g l))
    by (apply IH; intros; apply Hin; now right).
  lra.
Qed.

Lemma Rsum_tabulate_scale (n : nat) (c : R) (f : nat -> R) :
  Rsum (tabulate n (fun i => c * f i)) = c * Rsum (tabulate n f).
Proof.
  unfold tabulate. induction (seq 0 n) as [| i l IH]; simpl; [lra |].
  rewrite IH. lra.
Qed.

Lemma Rsum_tabulate_const (n : nat) (c : R) :
  Rsum (tabulate n (fun _ => c)) = INR n * c.
Proof.
  unfold tabulate. rewrite Rsum_const, length_seq. reflexivity.
Qed.

Lemma Rsum_tabulate_nth (n : nat) (l : list R) :
  length l = n -> Rsum (tabulate n (fun i => nth i l 0)) = Rsum l.
Proof.
  intros Hl. f_equal. symmetry. now apply list_eq_tabulate with (d := 0).
Qed.

Lemma ln_le_compat (x y : R) : 0 < x -> x <= y -> ln x <= ln y.
Proof.
  intros Hx [Hlt | ->]; [| lra]. left. now apply ln_increasing.
Qed.

Section EdgeLossBounds.

Variable EPSILON : R.
Hypothesis EPSILON_pos : 0 < EPSILON.

Lemma bernoulli_ll_le (c s : R) :
  0 <= c <= 1 -> 0 <= s <= 1 -> bernoulli_ll EPSILON c s <= ln (1 + EPSILON).
Proof.
  intros Hc Hs. unfold bernoulli_ll.
  assert (H1 : ln (s + EPSILON) <= ln (1 + EPSILON))
    by (apply ln_le_compat; lra).
  assert (H2 : ln (1 - s + EPSILON) <= ln (1 + EPSILON))
    by (apply ln_le_compat; lra).
  nra.
Qed.

Lemma bernoulli_ll_exact (c : R) :
  c = 0 \/ c = 1 -> bernoulli_ll EPSILON c c = ln (1 + EPSILON).
Proof.
  unfold bernoulli_ll. intros [-> | ->].
  - replace (1 - 0 + EPSILON) with (1 + EPSILON) by lra. lra.
  - replace (1 - 1 + EPSILON) with EPSILON by lra. lra.
Qed.

Variables batch n t p : nat.
Variable g : GraphState.
Variable correct_edges : list (list (list (list R))).
Hypothesis shapes : edge_shapes batch n t p g correct_edges.

Lemma strengths_square (b : nat) :
  (b < batch)%nat ->
  Rsum (tabulate n (fun i => Rsum (tabulate n (fun j =>
    Rsum (tabulate t (fun _ =>
      ln (1 + EPSILON) * nth i (nth b (node_strengths g) []) 0
      * nth j (nth b (node_strengths g) []) 0))))))
  = INR t * ln (1 + EPSILON)
    * (Rsum (nth b (node_strengths g) []) * Rsum (nth b (node_strengths g) [])).
Proof.
  intros Hb. destruct shapes as (_ & _ & _ & Hs & _). specialize (Hs b Hb).
  set (sb := nth b (node_strengths g) []) in *.
  rewrite <- (Rsum_tabulate_nth n sb Hs).
  set (S := Rsum (tabulate n (fun i => nth i sb 0))).
  assert (Hinner : forall i,
             Rsum (tabulate n (fun j => Rsum (tabulate t (fun _ =>
               ln (1 + EPSILON) * nth i sb 0 * nth j sb 0))))
             = (INR t * ln (1 + EPSILON) * S) * nth i sb 0).
  { intros i.
    rewrite (tabulate_ext n _ (fun j => (INR t * ln (1 + EPSILON) * nth i sb 0)
                                        * nth j sb 0)).
    - rewrite Rsum_tabulate_scale. fold S. lra.
    - intros j _. rewrite Rsum_tabulate_const. lra. }
  rewrite (tabulate_ext n _ (fun i => (INR t * ln (1 + EPSILON) * S)
                                      * nth i sb 0))
    by (intros i _; apply Hinner).
  rewrite Rsum_tabulate_scale. fold S. lra.
Qed.

(** X5: The edge loss of a batch element is bounded below: with strengths that
    are not negative and edge strengths and ground truth between 0 and 1,
    it is at least [-T * ln(1 + EPSILON) * (sum of the node strengths)^2],
    [T] being the number of edge types. *)
Theorem edge_loss_lower_bound (b : nat) :
  (b < batch)%nat ->
  (forall i, 0 <= nth i (nth b (node_strengths g) []) 0) ->
  (forall i j k,
      0 <= nth k (nth j (nth i (nth b (edge_strengths g) []) []) []) 0 <= 1) ->
  (forall i j k,
      0 <= nth k (nth j (nth i (nth b correct_edges []) []) []) 0 <= 1) ->
  - (INR t * ln (1 + EPSILON)
     * (Rsum (nth b (node_strengths g) []) * Rsum (nth b (node_strengths g) [])))
  <= nth b (edge_loss EPSILON g correct_edges) 0.
Proof.
  intros Hb Hs He Hc.
  rewrite (edge_loss_nth EPSILON batch n t p g correct_edges b shapes Hb).
  rewrite <- (strengths_square b Hb).
  apply Ropp_le_contravar.
  apply Rsum_tabulate_le. intros i _.
  apply Rsum_tabulate_le. intros j _.
  apply Rsum_tabulate_le. intros k _.
  unfold edge_term.
  pose proof (bernoulli_ll_le _ _ (Hc i j k) (He i j k)) as Hll.
  pose proof (Hs i) as Hi. pose proof (Hs j) as Hj.
  apply Rmult_le_compat_r; [assumption |].
  apply Rmult_le_compat_r; assumption.
Qed.

(** X6: The edge loss of a prediction that equals the ground truth, every
    entry being 0 or 1, is
    [-T * ln(1 + EPSILON) * (sum of the node strengths)^2], the lower bound
    of the loss.  This value is never positive, and it is 0 when there is
    no edge type or the node strengths sum to 0. *)
Theorem edge_loss_of_exact_prediction (b : nat) :
  (b < batch)%nat ->
  (forall i j k, (i < n)%nat -> (j < n)%nat -> (k < t)%nat ->
      let c := nth k (nth j (nth i (nth b correct_edges []) []) []) 0 in
      (c = 0 \/ c = 1) /\
      nth k (nth j (nth i (nth b (edge_strengths g) []) []) []) 0 = c) ->
  let loss := nth b (edge_loss EPSILON g correct_edges) 0 in
  let total := Rsum (nth b (node_strengths g) []) in
  loss = - (INR t * ln (1 + EPSILON) * (total * total)) /\
  loss <= 0 /\
  (t = 0%nat \/ total = 0 -> loss = 0).
Proof.
  intros Hb Hexact loss total.
  assert (Hloss : loss = - (INR t * ln (1 + EPSILON) * (total * total))).
  { unfold loss, total.
    rewrite (edge_loss_nth EPSILON batch n t p g correct_edges b shapes Hb).
    rewrite <- (strengths_square b Hb). f_equal.
    apply Rsum_tabulate_ext. intros i Hi.
    apply Rsum_tabulate_ext. intros j Hj.
    apply Rsum_tabulate_ext. intros k Hk.
    unfold edge_term. destruct (Hexact i j k Hi Hj Hk) as [Hc ->].
    now rewrite bernoulli_ll_exact. }
  split; [exact Hloss |]. rewrite Hloss. split.
  - assert (Hln : 0 < ln (1 + EPSILON))
      by (rewrite <- ln_1; apply ln_increasing; lra).
    pose proof (pos_INR t) as Ht.
    pose proof (Rle_0_sqr total) as Hsq. unfold Rsqr in Hsq.
    assert (0 <= INR t * ln (1 + EPSILON)) by nra. nra.
  - intros [-> | ->]; simpl; ring.
Qed.

End EdgeLossBounds.



Section EdgeScores.

Variable EPSILON : R.
Variable independent_best : R -> R.
Variables batch n t : nat.
Variable g : GraphState.


(** X8: The edge loss and the edge accuracy read the ground truth only on the
    nodes the state has: two ground truths, each padded to any size, that
    agree on these nodes give the same loss and the same accuracy. *)
Theorem edge_scores_read_cropped_truth
        (p p' : nat) (correct_edges correct_edges' : list (list (list (list R)))) :
  edge_shapes batch n t p g correct_edges ->
  edge_shapes batch n t p' g correct_edges' ->
  (forall b i j k, (b < batch)%nat -> (i < n)%nat -> (j < n)%nat ->
     (k < t)%nat ->
     nth k (nth j (nth i (nth b correct_edges []) []) []) 0
     = nth k (nth j (nth i (nth b correct_edges' []) []) []) 0) ->
  edge_loss EPSILON g correct_edges = edge_loss EPSILON g correct_edges' /\
  edge_accuracy independent_best g correct_edges
  = edge_accuracy independent_best g correct_edges'.
Proof.
  intros Hsh Hsh' Hsame. split.
  - apply nth_ext with (d := 0) (d' := 0).
    + unfold edge_loss.
      rewrite !length_map,
        (masked_edge_lls_length EPSILON batch n t p g correct_edges Hsh),
        (masked_edge_lls_length EPSILON batch n t p' g correct_edges' Hsh').
      reflexivity.
    + unfold edge_loss at 1.
      rewrite length_map,
        (masked_edge_lls_length EPSILON batch n t p g correct_edges Hsh).
      intros b Hb.
      rewrite (edge_loss_nth EPSILON batch n t p g correct_edges b Hsh Hb),
        (edge_loss_nth EPSILON batch n t p' g correct_edges' b Hsh' Hb).
      f_equal.
      apply Rsum_tabulate_ext. intros i Hi.
      apply Rsum_tabulate_ext. intros j Hj.
      apply Rsum_tabulate_ext. intros k Hk.
      unfold edge_term. now rewrite Hsame.
  - apply nth_ext with (d := true) (d' := true).
    + now rewrite
        (edge_accuracy_length independent_best batch n t p g correct_edges Hsh),
        (edge_accuracy_length independent_best batch n t p' g correct_edges' Hsh').
    + rewrite
        (edge_accuracy_length independent_best batch n t p g correct_edges Hsh).
      intros b Hb.
      rewrite
        (edge_accuracy_nth independent_best batch n t p g correct_edges b Hsh Hb),
        (edge_accuracy_nth independent_best batch n t p' g correct_edges' b Hsh' Hb).
      f_equal.
      apply tabulate_ext. intros i Hi. f_equal.
      apply tabulate_ext. intros j Hj. f_equal.
      apply tabulate_ext. intros k Hk.
      unfold edge_ok. now rewrite Hsame.
Qed.

End EdgeScores.

Ltac split_indices :=
  repeat match goal with
         | H : (?x < _)%nat |- _ =>
             is_var x; destruct x; [| apply Nat.succ_lt_mono in H]
         end.

Ltac any_index i := destruct i as [| [| [| [| i]]]].

Lemma example_edge_shapes_more :
  edge_shapes 1 2 1 3 exact_edge_state example_correct_edges /\
  edge_shapes 1 2 1 2 absent_node_state example_correct_edges_cropped.
Proof.
  unfold edge_shapes, tensor4_shape, n_batch, n_nodes; simpl.
  repeat split; try lia; intros; split_indices; simpl; try reflexivity;
    try lia.
Qed.

Lemma edge_loss_lower_bound_witness :
  0 < example_EPSILON /\
  edge_shapes 1 2 1 3 absent_node_state example_correct_edges /\
  - (INR 1 * ln (1 + example_EPSILON)
     * (Rsum (nth 0 (node_strengths absent_node_state) [])
        * Rsum (nth 0 (node_strengths absent_node_state) [])))
  <= nth 0 (edge_loss example_EPSILON absent_node_state
                      example_correct_edges) 0.
Proof.
  destruct example_edge_shapes as [Hsh _].
  split; [exact example_EPSILON_pos |]. split; [exact Hsh |].
  apply (edge_loss_lower_bound example_EPSILON example_EPSILON_pos 1 2 1 3
                               absent_node_state example_correct_edges Hsh 0).
  - lia.
  - intros i. any_index i; simpl; lra.
  - intros i j k. any_index i; any_index j; any_index k; simpl; lra.
  - intros i j k.
    any_index i; any_index j; any_index k; simpl; lra.
Defined.

Lemma edge_loss_of_exact_prediction_witness :
  0 < example_EPSILON /\
  edge_shapes 1 2 1 3 exact_edge_state example_correct_edges /\
  let loss := nth 0 (edge_loss example_EPSILON exact_edge_state
                               example_correct_edges) 0 in
  let total := Rsum (nth 0 (node_strengths exact_edge_state) []) in
  loss = - (INR 1 * ln (1 + example_EPSILON) * (total * total)) /\
  loss <= 0 /\
  (1%nat = 0%nat \/ total = 0 -> loss = 0).
Proof.
  destruct example_edge_shapes_more as [Hsh _].
  split; [exact example_EPSILON_pos |]. split; [exact Hsh |].
  apply (edge_loss_of_exact_prediction example_EPSILON example_EPSILON_pos
                                       1 2 1 3 exact_edge_state
                                       example_correct_edges Hsh 0).
  - lia.
  - intros i j k Hi Hj Hk. split_indices; simpl; try lia;
      (split; [lra | reflexivity]).
Defined.


Lemma edge_scores_read_cropped_truth_witness :
  edge_shapes 1 2 1 3 absent_node_state example_correct_edges /\
  edge_shapes 1 2 1 2 absent_node_state example_correct_edges_cropped /\
  edge_loss example_EPSILON absent_node_state example_correct_edges
  = edge_loss example_EPSILON absent_node_state example_correct_edges_cropped
  /\ edge_accuracy (fun x => x) absent_node_state example_correct_edges
     = edge_accuracy (fun x => x) absent_node_state
                     example_correct_edges_cropped.
Proof.
  destruct example_edge_shapes as [Hsh _].
  destruct example_edge_shapes_more as [_ Hsh'].
  split; [exact Hsh |]. split; [exact Hsh' |].
  apply (edge_scores_read_cropped_truth example_EPSILON (fun x => x) 1 2 1
                                        absent_node_state 3 2
                                        example_correct_edges
                                        example_correct_edges_cropped
                                        Hsh Hsh').
  intros b i j k Hb Hi Hj Hk. split_indices; simpl; try reflexivity; lia.
Defined.

(** ** The node loss in general *)

Lemma selections_fst {A : Type} (l : list A) : map fst (selections l) = l.
Proof.
  induction l as [| x xs IH]; simpl; [reflexivity |].
  rewrite map_map. f_equal. exact IH.
Qed.

Lemma selections_NoDup {A : Type} (l : list A) (x : A) (r : list A) :
  NoDup l -> In (x, r) (selections l) -> NoDup r.
Proof.
  intros Hl Hin. apply in_selections in Hin.
  destruct Hin as (l1 & l2 & -> & ->). now apply NoDup_remove_1 in Hl.
Qed.

Lemma NoDup_flat_map_heads {A : Type} (F : list A -> list (list A))
      (sels : list (A * list A)) :
  NoDup (map fst sels) ->
  (forall x r, In (x, r) sels -> NoDup (F r)) ->
  NoDup (flat_map (fun xr => map (cons (fst xr)) (F (snd xr))) sels).
Proof.
  induction sels as [| [x r] sels IH]; simpl; intros Hnd HF.
  - constructor.
  - inversion Hnd as [| ? ? Hx Hnd']; subst. apply NoDup_app.
    + apply NoDup_map_NoDup_ForallPairs.
      * intros a c _ _ Heq. now injection Heq.
      * apply (HF x r). now left.
    + apply IH; [assumption |]. intros y r' Hin. apply (HF y r'). now right.
    + intros p Hp Hp'. apply in_map_iff in Hp. destruct Hp as (q & <- & _).
      apply in_flat_map in Hp'. destruct Hp' as ([y r'] & Hin & Hq).
      apply in_map_iff in Hq. destruct Hq as (q' & Heq & _).
      simpl in Heq. injection Heq as -> _.
      apply Hx. apply in_map_iff. exists (x, r'). now split.
Qed.

Lemma permutations_r_NoDup {A : Type} (r : nat) (l : list A) :
  NoDup l -> NoDup (permutations_r r l).
Proof.
  revert l. induction r as [| r IH]; intros l Hl; simpl.
  - repeat constructor. intros [].
  - apply NoDup_flat_map_heads.
    + now rewrite selections_fst.
    + intros x rest Hin. apply IH. now apply (selections_NoDup l x).
Qed.

Lemma permutations_range_NoDup (k : nat) : NoDup (permutations (range k)).
Proof. apply permutations_r_NoDup. apply seq_NoDup. Qed.

Lemma map_nth_range {A : Type} (d : A) (l : list A) :
  map (fun j => nth j l d) (range (length l)) = l.
Proof.
  symmetry. unfold range.
  exact (list_eq_tabulate (length l) (fun j => nth j l d) d l eq_refl
                          (fun i _ => eq_refl)).
Qed.

(** Composition of a permutation of the ground-truth slots with an
    assignment of slots to candidates. *)
Lemma compose_is_permutation (k : nat) (sigma pi : list nat) :
  Permutation sigma (range k) -> Permutation pi (range k) ->
  Permutation (map (fun j => nth j sigma 0%nat) pi) (range k).
Proof.
  intros Hs Hp.
  assert (Hlen : length sigma = k).
  { rewrite (Permutation_length Hs). apply length_seq. }
  apply Permutation_trans with (map (fun j => nth j sigma 0%nat) (range k)).
  - now apply Permutation_map.
  - rewrite <- Hlen at 1. now rewrite map_nth_range.
Qed.

Lemma compose_injective (k : nat) (sigma pi1 pi2 : list nat) :
  Permutation sigma (range k) ->
  Forall (fun j => (j < k)%nat) pi1 -> Forall (fun j => (j < k)%nat) pi2 ->
  map (fun j => nth j sigma 0%nat) pi1 = map (fun j => nth j sigma 0%nat) pi2 ->
  pi1 = pi2.
Proof.
  intros Hs.
  assert (Hlen : length sigma = k).
  { rewrite (Permutation_length Hs). apply length_seq. }
  assert (Hnd : NoDup sigma).
  { apply (Permutation_NoDup (Permutation_sym Hs)). apply seq_NoDup. }
  revert pi2. induction pi1 as [| a pi1 IH]; intros [| c pi2] H1 H2 Heq;
    simpl in Heq; try discriminate; [reflexivity |].
  injection Heq as Hac Heq.
  inversion H1; inversion H2; subst. f_equal.
  - apply (proj1 (NoDup_nth sigma 0%nat) Hnd); lia.
  - now apply IH.
Qed.

Lemma permutation_entries_lt (k : nat) (pi : list nat) :
  Permutation pi (range k) -> Forall (fun j => (j < k)%nat) pi.
Proof.
  intros Hp. apply Forall_forall. intros j Hj.
  apply (Permutation_in _ Hp) in Hj. apply in_seq in Hj. lia.
Qed.

Lemma compose_permutations (k : nat) (sigma : list nat) :
  Permutation sigma (range k) ->
  Permutation (map (map (fun j => nth j sigma 0%nat)) (permutations (range k)))
              (permutations (range k)).
Proof.
  intros Hs. apply Permutation_map_same_l.
  - apply NoDup_map_NoDup_ForallPairs; [| apply permutations_range_NoDup].
    intros p1 p2 H1 H2 Heq.
    apply in_permutations_range in H1, H2.
    apply (compose_injective k sigma); auto using permutation_entries_lt.
  - intros p Hp. apply in_map_iff in Hp. destruct Hp as (q & <- & Hq).
    apply in_permutations_range in Hq. apply in_permutations_range.
    now apply compose_is_permutation.
Qed.

Lemma MaxRlist_Permutation (l l' : list R) :
  l <> [] -> Permutation l l' -> MaxRlist l = MaxRlist l'.
Proof.
  intros Hne Hp.
  assert (Hne' : l' <> []).
  { intros ->. apply Permutation_sym, Permutation_nil in Hp. contradiction. }
  assert (H1 : In (MaxRlist l) l).
  { apply MaxRlist_P2. destruct l; [contradiction | eexists; now left]. }
  assert (H2 : In (MaxRlist l') l').
  { apply MaxRlist_P2. destruct l'; [contradiction | eexists; now left]. }
  apply Rle_antisym.
  - apply MaxRlist_P1. now apply (Permutation_in _ Hp).
  - apply MaxRlist_P1. now apply (Permutation_in _ (Permutation_sym Hp)).
Qed.

Lemma Rsum_exp_nonneg (l : list R) : 0 <= Rsum (map exp l).
Proof.
  induction l as [| a l IH]; simpl; [lra |]. pose proof (exp_pos a). lra.
Qed.

Lemma exp_le_Rsum_exp (x : R) (l : list R) :
  In x l -> exp x <= Rsum (map exp l).
Proof.
  induction l as [| a l IH]; [contradiction |]. simpl.
  pose proof (Rsum_exp_nonneg l). pose proof (exp_pos a).
  intros [-> | Hin]; [lra |]. specialize (IH Hin). lra.
Qed.

Lemma Rsum_exp_le (l : list R) (m : R) :
  (forall x, In x l -> x <= m) -> Rsum (map exp l) <= INR (length l) * exp m.
Proof.
  induction l as [| a l IH]; intros Hm.
  - simpl. lra.
  - change (length (a :: l)) with (S (length l)). rewrite S_INR. simpl.
    assert (Ha : exp a <= exp m).
    { destruct (Hm a (or_introl eq_refl)) as [Hlt | ->]; [| lra].
      left. now apply exp_increasing. }
    assert (Hl : Rsum (map exp l) <= INR (length l) * exp m)
      by (apply IH; intros x Hx; apply Hm; now right).
    lra.
Qed.

Section NodeLossInGeneral.

Variable EPSILON : R.
Variable k : nat.
Variable batch : nat.
Variable new_strengths : list (list R).
Variable new_ids : list (list (list R)).
Variable correct_num_new_nodes : list Z.

Lemma reduced_perm_lls_length (cs : list (list R)) (ci : list (list (list R))) :
  node_matching_shapes k batch new_strengths new_ids correct_num_new_nodes
                       cs ci ->
  length (reduced_perm_lls EPSILON k new_strengths new_ids cs ci) = batch.
Proof.
  intros (H1 & H2 & H3 & H4 & H5 & _).
  unfold reduced_perm_lls, strength_ll, ids_ll, index_perms.
  rewrite map2_length, !length_map, !map2_length, !length_map. lia.
Qed.

Lemma node_loss_best_nth (cs : list (list R)) (ci : list (list (list R)))
      (i : nat) :
  node_matching_shapes k batch new_strengths new_ids correct_num_new_nodes
                       cs ci ->
  (i < batch)%nat ->
  nth i (node_loss EPSILON k true new_strengths new_ids
                   correct_num_new_nodes cs ci) 0
  = - MaxRlist (map (permutation_ll EPSILON (nth i new_strengths [])
                                    (nth i new_ids []) (nth i cs [])
                                    (nth i ci []))
                    (perm_idxs k)).
Proof.
  intros Hsh Hi. unfold node_loss.
  rewrite map_nth_lt with (d := [])
    by (rewrite reduced_perm_lls_length; assumption).
  now rewrite (reduced_perm_lls_nth EPSILON k batch new_strengths new_ids
                                    correct_num_new_nodes cs ci Hsh i Hi).
Qed.

Lemma node_loss_all_nth (cs : list (list R)) (ci : list (list (list R)))
      (i : nat) :
  node_matching_shapes k batch new_strengths new_ids correct_num_new_nodes
                       cs ci ->
  (i < batch)%nat ->
  nth i (node_loss EPSILON k false new_strengths new_ids
                   correct_num_new_nodes cs ci) 0
  = - (ln (Rsum (map exp
                     (map (permutation_ll EPSILON (nth i new_strengths [])
                                          (nth i new_ids []) (nth i cs [])
                                          (nth i ci []))
                          (perm_idxs k))))
       - T_gammaln (Z.of_nat k - nth i correct_num_new_nodes 0%Z + 1)).
Proof.
  intros Hsh Hi. unfold node_loss, reduce_log_sum.
  pose proof (reduced_perm_lls_length cs ci Hsh) as Hl.
  destruct Hsh as (H1 & H2 & H3 & H4 & H5 & Hrest).
  rewrite map_nth_lt with (d := 0)
    by (rewrite map2_length, !length_map; lia).
  rewrite map2_nth with (da := 0) (db := 0) by (rewrite length_map; lia).
  rewrite map_nth_lt with (d := []) by lia.
  rewrite map_nth_lt with (d := 0%Z) by lia.
  rewrite (reduced_perm_lls_nth EPSILON k batch new_strengths new_ids
                                correct_num_new_nodes cs ci
                                (conj H1 (conj H2 (conj H3 (conj H4
                                   (conj H5 Hrest))))) i Hi).
  reflexivity.
Qed.

Lemma permutation_ll_reordered (ns : list R) (ni : list (list R))
      (cs : list R) (ci : list (list R)) (sigma pi : list nat) :
  Forall (fun j => (j < length sigma)%nat) pi ->
  permutation_ll EPSILON ns ni (map (fun j => nth j cs 0) sigma)
                 (map (fun j => nth j ci []) sigma) pi
  = permutation_ll EPSILON ns ni cs ci (map (fun j => nth j sigma 0%nat) pi).
Proof.
  intros Hpi. unfold permutation_ll. rewrite !map2_map_l.
  rewrite Forall_forall in Hpi. f_equal; f_equal.
  - apply map2_ext_in. intros j s Hj _.
    now rewrite map_nth_lt with (d := 0%nat) by auto.
  - apply map2_ext_in. intros j s Hj _.
    now rewrite map_nth_lt with (d := 0%nat) by auto.
Qed.

(** X9: The node loss does not depend on the order in which the ground truth
    lists the new nodes: reordering the ground-truth slots of a batch
    element leaves its loss unchanged, in both matching modes. *)
Theorem node_loss_ignores_slot_order
        (best_node_match_only : bool)
        (cs cs' : list (list R)) (ci ci' : list (list (list R)))
        (sigma : list nat) (i : nat) :
  node_matching_shapes k batch new_strengths new_ids correct_num_new_nodes
                       cs ci ->
  node_matching_shapes k batch new_strengths new_ids correct_num_new_nodes
                       cs' ci' ->
  (i < batch)%nat -> Permutation sigma (range k) ->
  nth i cs' [] = map (fun j => nth j (nth i cs []) 0) sigma ->
  nth i ci' [] = map (fun j => nth j (nth i ci []) []) sigma ->
  nth i (node_loss EPSILON k best_node_match_only new_strengths new_ids
                   correct_num_new_nodes cs' ci') 0
  = nth i (node_loss EPSILON k best_node_match_only new_strengths new_ids
                     correct_num_new_nodes cs ci) 0.
Proof.
  intros Hsh Hsh' Hi Hs Hcs Hci.
  assert (Hlen : length sigma = k).
  { rewrite (Permutation_length Hs). apply length_seq. }
  set (ll := permutation_ll EPSILON (nth i new_strengths [])
                            (nth i new_ids []) (nth i cs []) (nth i ci [])).
  assert (Hmap : map (permutation_ll EPSILON (nth i new_strengths [])
                                     (nth i new_ids []) (nth i cs' [])
                                     (nth i ci' []))
                     (perm_idxs k)
                 = map ll (map (map (fun j => nth j sigma 0%nat))
                               (perm_idxs k))).
  { rewrite map_map. apply map_ext_in. intros pi Hpi.
    rewrite Hcs, Hci. apply permutation_ll_reordered.
    rewrite Hlen. apply permutation_entries_lt.
    now apply in_permutations_range. }
  assert (Hperm : Permutation
                    (map ll (map (map (fun j => nth j sigma 0%nat))
                                 (perm_idxs k)))
                    (map ll (perm_idxs k))).
  { apply Permutation_map. now apply compose_permutations. }
  destruct best_node_match_only.
  - rewrite !node_loss_best_nth by assumption. fold ll. rewrite Hmap.
    f_equal. apply MaxRlist_Permutation; [| exact Hperm].
    intros Hnil. apply (f_equal (@length R)) in Hnil.
    rewrite !length_map in Hnil. unfold perm_idxs in Hnil.
    rewrite permutations_range_length in Hnil. simpl in Hnil.
    pose proof (lt_O_fact k). lia.
  - rewrite !node_loss_all_nth by assumption. fold ll. rewrite Hmap.
    do 3 f_equal. apply Rsum_Permutation. now apply Permutation_map.
Qed.

(** X10: The two matching modes differ by a bounded amount: when the ground
    truth has [c] new nodes out of [k] slots, the loss over all matchings
    is at most the best-match loss plus [ln((k-c)!)] and at least the
    best-match loss minus [ln(k!) - ln((k-c)!)]. *)
Theorem node_loss_modes_differ_boundedly
        (cs : list (list R)) (ci : list (list (list R))) (i : nat) :
  node_matching_shapes k batch new_strengths new_ids correct_num_new_nodes
                       cs ci ->
  (i < batch)%nat ->
  (0 <= nth i correct_num_new_nodes 0 <= Z.of_nat k)%Z ->
  let c := Z.to_nat (nth i correct_num_new_nodes 0%Z) in
  let best := nth i (node_loss EPSILON k true new_strengths new_ids
                               correct_num_new_nodes cs ci) 0 in
  let all := nth i (node_loss EPSILON k false new_strengths new_ids
                              correct_num_new_nodes cs ci) 0 in
  best - (ln (INR (fact k)) - ln (INR (fact (k - c)))) <= all
  /\ all <= best + ln (INR (fact (k - c))).
Proof.
  intros Hsh Hi Hc c best all. subst best all.
  rewrite node_loss_best_nth, node_loss_all_nth by assumption.
  set (lls := map (permutation_ll EPSILON (nth i new_strengths [])
                                  (nth i new_ids []) (nth i cs [])
                                  (nth i ci [])) (perm_idxs k)).
  unfold T_gammaln.
  replace (Z.to_nat (Z.of_nat k - nth i correct_num_new_nodes 0%Z + 1 - 1))
    with (k - c)%nat by (unfold c; lia).
  assert (Hlen : length lls = fact k).
  { unfold lls, perm_idxs. now rewrite length_map, permutations_range_length. }
  assert (Hne : lls <> []).
  { intros Hnil. rewrite Hnil in Hlen. simpl in Hlen.
    pose proof (lt_O_fact k). lia. }
  assert (Hin : In (MaxRlist lls) lls).
  { apply MaxRlist_P2. destruct lls; [contradiction | eexists; now left]. }
  assert (Hpos : 0 < Rsum (map exp lls)).
  { apply Rlt_le_trans with (exp (MaxRlist lls)); [apply exp_pos |].
    now apply exp_le_Rsum_exp. }
  assert (Hlow : MaxRlist lls <= ln (Rsum (map exp lls))).
  { rewrite <- (ln_exp (MaxRlist lls)) at 1.
    apply ln_le_compat; [apply exp_pos | now apply exp_le_Rsum_exp]. }
  assert (Hhigh : ln (Rsum (map exp lls))
                  <= ln (INR (fact k)) + MaxRlist lls).
  { rewrite <- (ln_exp (MaxRlist lls)) at 1.
    rewrite <- ln_mult by (try apply exp_pos; apply INR_fact_lt_0).
    apply ln_le_compat; [assumption |]. rewrite <- Hlen.
    apply Rsum_exp_le. intros x Hx. now apply MaxRlist_P1. }
  lra.
Qed.

End NodeLossInGeneral.

Lemma example_slot_shapes :
  node_matching_shapes 2 1 example_new_strengths example_new_ids
                       example_one_new_node example_first_slot_strengths
                       example_first_slot_ids /\
  node_matching_shapes 2 1 example_new_strengths example_new_ids
                       example_one_new_node example_second_slot_strengths
                       example_second_slot_ids.
Proof. split; repeat split; repeat constructor. Qed.

Lemma node_loss_ignores_slot_order_witness :
  Permutation [1; 0]%nat (range 2) /\
  forall mode,
    nth 0 (node_loss example_EPSILON 2 mode example_new_strengths
                     example_new_ids example_one_new_node
                     example_second_slot_strengths example_second_slot_ids) 0
    = nth 0 (node_loss example_EPSILON 2 mode example_new_strengths
                       example_new_ids example_one_new_node
                       example_first_slot_strengths example_first_slot_ids) 0.
Proof.
  assert (Hp : Permutation [1; 0]%nat (range 2)) by apply perm_swap.
  split; [exact Hp |]. intros mode.
  destruct example_slot_shapes as [H1 H2].
  apply (node_loss_ignores_slot_order
           example_EPSILON 2 1 example_new_strengths example_new_ids
           example_one_new_node mode
           example_first_slot_strengths example_second_slot_strengths
           example_first_slot_ids example_second_slot_ids
           [1; 0]%nat 0 H1 H2).
  - lia.
  - exact Hp.
  - reflexivity.
  - reflexivity.
Defined.

Lemma node_loss_modes_differ_boundedly_witness :
  let best := nth 0 (node_loss example_EPSILON 2 true example_new_strengths
                               example_new_ids example_one_new_node
                               example_first_slot_strengths
                               example_first_slot_ids) 0 in
  let all := nth 0 (node_loss example_EPSILON 2 false example_new_strengths
                              example_new_ids example_one_new_node
                              example_first_slot_strengths
                              example_first_slot_ids) 0 in
  best - (ln (INR (fact 2)) - ln (INR (fact (2 - 1)))) <= all
  /\ all <= best + ln (INR (fact (2 - 1))).
Proof.
  destruct example_slot_shapes as [H1 _].
  apply (node_loss_modes_differ_boundedly
           example_EPSILON 2 1 example_new_strengths example_new_ids
           example_one_new_node example_first_slot_strengths
           example_first_slot_ids 0 H1).
  - lia.
  - simpl. lia.
Defined.

(** ** The node accuracy *)



Section NodeAccuracy.

Variable EPSILON : R.
Variable independent_best : R -> R.
Variable categorical_best : list R -> list R.
Variable k : nat.
Variable batch : nat.
Variable new_strengths : list (list R).
Variable new_ids : list (list (list R)).
Variable correct_num_new_nodes : list Z.
Variable correct_new_strengths : list (list R).
Variable correct_new_node_ids : list (list (list R)).

Hypothesis shapes :
  node_matching_shapes k batch new_strengths new_ids correct_num_new_nodes
                       correct_new_strengths correct_new_node_ids.



End NodeAccuracy.


(** ** The step function and the scan *)

Section StepFunction.

Context {collaborators : Collaborators}.
Variable self : Config.

(** X12: A call of the step function that returns hands back as many values as
    [outputs_info] has entries, and the values fed back to the next step
    are the five fields of the flattened state, padded to the size that was
    passed as the last argument; the losses and the accuracy are not
    carried over. *)
Theorem scan_fn_returns_match_outputs_info
        (with_correct_graph snap_to_best using_dropout evaluate_accuracy
         : bool)
        (params : Params) (iter_dropouts : list Tensor)
        (input_repr : Slot) (stuff out : list Slot)
        (batch n_sentences : nat) :
  _scan_fn self with_correct_graph snap_to_best using_dropout
           evaluate_accuracy params iter_dropouts input_repr stuff
  = Some out ->
  let outputs_info :=
    scan_outputs_info self with_correct_graph evaluate_accuracy batch
                      n_sentences in
  length out = length outputs_info /\
  exists pad gstate',
    py_last stuff = Some (IScalar pad) /\
    recurrent_outputs outputs_info out
    = flatten_to_const_size (graphspec self) pad gstate'.
Proof.
  intros H outputs_info. subst outputs_info.
  apply scan_fn_layout in H.
  destruct H as (pad & g' & Hpad & Hs & Hu).
  unfold scan_outputs_info.
  destruct with_correct_graph.
  - destruct (Hs eq_refl) as (nl & el & acc & _ & Hnl & Hacc & ->).
    unfold scored_tail.
    split; [| exists pad, g'; split; [exact Hpad |]].
    + rewrite !length_app, length_map, !flatten_to_const_size_length.
      destruct (dynamic_nodes self), nl as [nl |], evaluate_accuracy,
        acc as [acc |]; simpl; try reflexivity;
        try (exfalso; now apply Hnl); try (exfalso; now apply Hacc).
    + unfold flatten_to_const_size.
      destruct (dynamic_nodes self), nl as [nl |], evaluate_accuracy,
        acc as [acc |]; simpl; try reflexivity;
        try (exfalso; now apply Hnl); try (exfalso; now apply Hacc).
  - rewrite (Hu eq_refl).
    split; [| exists pad, g'; split; [exact Hpad |]].
    + now rewrite length_map, !flatten_to_const_size_length.
    + reflexivity.
Qed.

End StepFunction.

Lemma fold_left_min_le (l : list nat) (a : nat) :
  (fold_left Nat.min l a <= a)%nat /\
  forall x, In x l -> (fold_left Nat.min l a <= x)%nat.
Proof.
  revert a. induction l as [| y l IH]; intros a; simpl.
  - split; [lia | intros x []].
  - destruct (IH (Nat.min a y)) as [H1 H2]. split; [lia |].
    intros x [<- | Hx]; [lia | now apply H2].
Qed.

Lemma fold_left_min_app (l1 l2 : list nat) (a : nat) :
  fold_left Nat.min (l1 ++ l2) a
  = fold_left Nat.min l2 (fold_left Nat.min l1 a).
Proof. apply fold_left_app. Qed.

Lemma fold_left_min_same (l : list nat) (a : nat) :
  Forall (fun x => x = a) l -> fold_left Nat.min l a = a.
Proof.
  induction 1 as [| x l -> _ IH]; simpl; [reflexivity |].
  now rewrite Nat.min_id.
Qed.

Lemma n_steps_le (sequences : list (list Slot)) (s : list Slot) :
  In s sequences -> (n_steps sequences <= length s)%nat.
Proof.
  destruct sequences as [| s0 rest]; [intros [] |]. simpl.
  destruct (fold_left_min_le (map (@length Slot) rest) (length s0))
    as [H1 H2].
  intros [<- | Hs]; [exact H1 |]. apply H2. now apply in_map.
Qed.

Lemma swapaxes01_length {A : Type} (n : nat) (t : list (list A)) :
  length (swapaxes01 n t) = n.
Proof. unfold swapaxes01. now rewrite length_map, length_seq. Qed.

Lemma swapaxes01_nth {A : Type} (n : nat) (t : list (list A)) (j : nat) :
  (j < n)%nat ->
  nth j (swapaxes01 n t) []
  = flat_map (fun row => match nth_error row j with
                         | Some x => [x]
                         | None => []
                         end) t.
Proof.
  intros Hj. unfold swapaxes01.
  rewrite map_nth_lt with (d := 0%nat) by (rewrite length_seq; lia).
  now rewrite seq_nth.
Qed.

Section ScanSequences.

Variable self : Config.
Variable with_correct_graph : bool.
Variable inputs : Inputs.
Variable input_reprs : list (list (list R)).
Variable ref_matrices : list (list (list (list R))).
Variable iter_dropouts : list Tensor.

Lemma scan_sequences_without_dropout :
  (with_correct_graph = true ->
   axis1_length (graph_num_new_nodes inputs)
   = axis1_length (input_words inputs) /\
   axis1_length (graph_new_node_strengths inputs)
   = axis1_length (input_words inputs) /\
   axis1_length (graph_new_node_ids inputs)
   = axis1_length (input_words inputs) /\
   axis1_length (graph_new_edges inputs)
   = axis1_length (input_words inputs)) ->
  let base := scan_sequences self with_correct_graph false inputs input_reprs
                             ref_matrices iter_dropouts in
  base <> [] /\
  Forall (fun s => length s = axis1_length (input_words inputs)) base.
Proof.
  intros Hshape. unfold scan_sequences.
  destruct (has_word_node_mapping self), with_correct_graph; simpl;
    (split; [discriminate |]);
    try (destruct (Hshape eq_refl) as (H1 & H2 & H3 & H4));
    repeat constructor; rewrite length_map, swapaxes01_length; congruence.
Qed.

Lemma scan_sequences_with_dropout :
  scan_sequences self with_correct_graph true inputs input_reprs ref_matrices
                 iter_dropouts
  = scan_sequences self with_correct_graph false inputs input_reprs
                   ref_matrices iter_dropouts
    ++ map (fun m => map Mask (axis0 m)) iter_dropouts.
Proof. reflexivity. Qed.

(** X13: The scan runs one step per sentence when dropout is off.  With dropout
    the masks are among the scan's sequences, so the number of steps is the
    smaller of the number of sentences and the length of axis 0 of every
    mask.  (In a supervised build the graph inputs are taken to cover the
    same sentences as the input words.) *)
Theorem scan_step_count (using_dropout : bool) :
  (with_correct_graph = true ->
   axis1_length (graph_num_new_nodes inputs)
   = axis1_length (input_words inputs) /\
   axis1_length (graph_new_node_strengths inputs)
   = axis1_length (input_words inputs) /\
   axis1_length (graph_new_node_ids inputs)
   = axis1_length (input_words inputs) /\
   axis1_length (graph_new_edges inputs)
   = axis1_length (input_words inputs)) ->
  n_steps (scan_sequences self with_correct_graph using_dropout inputs
                          input_reprs ref_matrices iter_dropouts)
  = fold_left Nat.min
              (map (fun m => length (axis0 m))
                   (if using_dropout then iter_dropouts else []))
              (axis1_length (input_words inputs)).
Proof.
  intros Hshape.
  destruct (scan_sequences_without_dropout Hshape) as [Hne Hall].
  destruct using_dropout.
  - rewrite scan_sequences_with_dropout.
    destruct (scan_sequences self with_correct_graph false inputs input_reprs
                             ref_matrices iter_dropouts) as [| s0 rest];
      [contradiction |].
    simpl. rewrite map_app, fold_left_min_app.
    inversion Hall as [| ? ? Hs0 Hrest]; subst.
    rewrite Hs0, (fold_left_min_same (map (@length Slot) rest)).
    + rewrite map_map. f_equal. apply map_ext. intros m.
      apply length_map.
    + apply Forall_forall. intros x Hx. apply in_map_iff in Hx.
      destruct Hx as (s & <- & Hs). rewrite Forall_forall in Hrest.
      now apply Hrest.
  - destruct (scan_sequences self with_correct_graph false inputs input_reprs
                             ref_matrices iter_dropouts) as [| s0 rest];
      [contradiction |].
    simpl. inversion Hall as [| ? ? Hs0 Hrest]; subst.
    rewrite Hs0. apply fold_left_min_same.
    apply Forall_forall. intros x Hx. apply in_map_iff in Hx.
    destruct Hx as (s & <- & Hs). rewrite Forall_forall in Hrest.
    now apply Hrest.
Qed.

(** X14: With dropout, a step of the scan does not receive the masks that were
    sampled before the loop but a slice of each: step [t] is called with
    the entries at position [t] of axis 0 of the masks, after the step's
    slices of the other sequences. *)
Theorem dropout_masks_are_sliced_per_step (t : nat) :
  let sequences := scan_sequences self with_correct_graph true inputs
                                  input_reprs ref_matrices iter_dropouts in
  let others := scan_sequences self with_correct_graph false inputs
                               input_reprs ref_matrices iter_dropouts in
  (t < n_steps sequences)%nat ->
  nth t (swapaxes01 (n_steps sequences) sequences) []
  = nth t (swapaxes01 (n_steps sequences) others) []
    ++ map (fun m => Mask (nth t (axis0 m) (Scalar 0))) iter_dropouts.
Proof.
  intros sequences others Ht.
  rewrite !swapaxes01_nth by assumption.
  unfold sequences. rewrite scan_sequences_with_dropout. fold others.
  rewrite flat_map_app. f_equal.
  assert (Hlen : forall m, In m iter_dropouts -> (t < length (axis0 m))%nat).
  { intros m Hm.
    assert (Hin : In (map Mask (axis0 m)) sequences).
    { unfold sequences. rewrite scan_sequences_with_dropout.
      apply in_or_app. right.
      apply (in_map (fun m => map Mask (axis0 m))). exact Hm. }
    apply n_steps_le in Hin. rewrite length_map in Hin. lia. }
  clear - Hlen. induction iter_dropouts as [| m ms IH]; simpl;
    [reflexivity |].
  rewrite nth_error_map.
  rewrite (nth_error_nth' (axis0 m) (Scalar 0))
    by (apply Hlen; now left).
  simpl. f_equal. apply IH. intros m' Hm'. apply Hlen. now right.
Qed.

End ScanSequences.

Lemma example_step_returns :
  exists out,
    @_scan_fn example_collaborators example_config false false false false
              tt [] (Tensor2 [[0]]) example_step_arguments = Some out.
Proof. eexists. run_model. Defined.

Lemma scan_fn_returns_match_outputs_info_witness :
  exists out,
    @_scan_fn example_collaborators example_config false false false false
              tt [] (Tensor2 [[0]]) example_step_arguments = Some out /\
    let outputs_info :=
      scan_outputs_info example_config false false 1 2
    in
    length out = length outputs_info /\
    exists pad gstate',
      py_last example_step_arguments = Some (IScalar pad) /\
      recurrent_outputs outputs_info out
      = flatten_to_const_size (graphspec example_config) pad gstate'.
Proof.
  destruct example_step_returns as (out & H).
  exists out. split; [exact H |].
  exact (@scan_fn_returns_match_outputs_info
           example_collaborators example_config false false false false tt []
           (Tensor2 [[0]]) example_step_arguments out 1 2 H).
Defined.

Lemma scan_step_count_witness :
  n_steps (scan_sequences example_config true true
                           example_inputs example_input_reprs []
                           [example_mask; Stack [Scalar 1]])
  = 1%nat.
Proof.
  rewrite (scan_step_count example_config true
                            example_inputs example_input_reprs []
                            [example_mask; Stack [Scalar 1]] true).
  - reflexivity.
  - intros _. repeat split.
Defined.

Lemma dropout_masks_are_sliced_per_step_witness :
  let sequences :=
    scan_sequences example_config false true
                    example_inputs example_input_reprs [] [example_mask] in
  (1 < n_steps sequences)%nat /\
  nth 0 (swapaxes01 (n_steps sequences) sequences) []
  = [Tensor2 [[0]]; Mask (Scalar 1)] /\
  nth 1 (swapaxes01 (n_steps sequences) sequences) []
  = [Tensor2 [[0]]; Mask (Scalar 0)].
Proof.
  assert (H1 : (1 < n_steps (scan_sequences example_config false true
                               example_inputs example_input_reprs []
                               [example_mask]))%nat)
    by (vm_compute; lia).
  assert (H0 : (0 < n_steps (scan_sequences example_config false true
                               example_inputs example_input_reprs []
                               [example_mask]))%nat)
    by (vm_compute; lia).
  split; [exact H1 |]. split.
  - rewrite (dropout_masks_are_sliced_per_step
               example_config false example_inputs
               example_input_reprs [] [example_mask] 0 H0).
    reflexivity.
  - rewrite (dropout_masks_are_sliced_per_step
               example_config false example_inputs
               example_input_reprs [] [example_mask] 1 H1).
    reflexivity.
Defined.

Section SupervisedStep.

Context {collaborators : Collaborators}.
Variable self : Config.

(** X15: A supervised step is teacher-forced: the state it returns has the
    ground-truth edges (cropped to the state's nodes) as its edge strengths,
    and with dynamic nodes the new nodes handed to the edge updater are the
    ground truth's.  The proposed nodes and the predicted edges enter the
    losses only. *)
Theorem supervised_step_is_teacher_forced
        (snap_to_best evaluate_accuracy : bool) (params : Params)
        (input_repr : list (list R))
        (ref_matrix : option (list (list (list R))))
        (gstate : GraphState) (c : CorrectGraph)
        (dropout_masks : option (list Tensor)) (r : IterResult) :
  _iter_fn self true snap_to_best evaluate_accuracy params input_repr
           ref_matrix gstate (Some c) dropout_masks = Some r ->
  exists g1 g2 masks node_loss overall_accuracy,
    g2 = fst (edge_state_updater_process
                params
                (if dynamic_nodes self
                 then with_additional_nodes (graphspec self) g1
                                            (correct_new_strengths c)
                                            (correct_new_node_ids c)
                 else g1)
                input_repr masks) /\
    r = IterScored
          (with_updates_edge_strengths
             g2 (crop_edges (n_nodes g2) (correct_edges c)))
          node_loss (edge_loss EPSILON g2 (correct_edges c))
          overall_accuracy /\
    (dynamic_nodes self = false -> node_loss = None).
Proof.
  unfold _iter_fn. intros H.
  destruct (if nodes_mutable self then _ else _) as [ga ma].
  destruct (if has_word_node_mapping self then _ else _) as [gb mb].
  destruct (if negb (intermediate_propagate self =? 0)%nat then _ else _)
    as [gc mc].
  destruct (dynamic_nodes self) eqn:Hdyn.
  - destruct (new_node_adder_get_candidates params gc input_repr
                                            (new_nodes_per_iter self) mc)
      as [[new_strengths new_ids] md].
    simpl in H.
    destruct (edge_state_updater_process params _ input_repr md)
      as [ge me] eqn:He.
    injection H as <-.
    exists gc, ge, md. eexists. eexists.
    rewrite He. repeat split; try reflexivity. discriminate.
  - simpl in H.
    destruct (edge_state_updater_process params gc input_repr mc)
      as [ge me] eqn:He.
    injection H as <-.
    exists gc, ge, mc. eexists. eexists.
    rewrite He. repeat split; reflexivity.
Qed.

End SupervisedStep.

Lemma example_supervised_step_returns :
  exists r,
    @_iter_fn example_collaborators example_config true false false tt
              [[0]] None (create_empty 1 (graphspec example_config))
              (Some example_correct_graph) None = Some r.
Proof. eexists. run_model. Defined.

Lemma supervised_step_is_teacher_forced_witness :
  exists r,
    @_iter_fn example_collaborators example_config true false false tt
              [[0]] None (create_empty 1 (graphspec example_config))
              (Some example_correct_graph) None = Some r /\
    exists g1 g2 masks node_loss overall_accuracy,
      g2 = fst (@edge_state_updater_process
                  example_collaborators tt
                  (with_additional_nodes (graphspec example_config) g1
                                         [[1]] [[[1; 0]]])
                  [[0]] masks) /\
      r = IterScored
            (with_updates_edge_strengths
               g2 (crop_edges (n_nodes g2)
                              (correct_edges example_correct_graph)))
            node_loss
            (edge_loss example_EPSILON g2
                       (correct_edges example_correct_graph))
            overall_accuracy /\
      (dynamic_nodes example_config = false -> node_loss = None).
Proof.
  destruct example_supervised_step_returns as (r & H).
  exists r. split; [exact H |].
  exact (@supervised_step_is_teacher_forced
           example_collaborators example_config false false tt [[0]] None
           (create_empty 1 (graphspec example_config)) example_correct_graph
           None r H).
Defined.

(** ** What a build reports *)

Lemma count_true_bounds (x : list bool) :
  0 <= count_true x <= INR (length x).
Proof.
  unfold count_true. induction x as [| b x IH].
  - simpl. lra.
  - change (length (b :: x)) with (S (length x)). rewrite S_INR. simpl.
    destruct b; lra.
Qed.

Lemma all_axis0_length (cols : nat) (x : list (list bool)) :
  length (all_axis0 cols x) = cols.
Proof. unfold all_axis0. now rewrite length_map, length_seq. Qed.

Lemma all_axis0_nth (cols : nat) (x : list (list bool)) (b : nat) :
  (b < cols)%nat ->
  nth b (all_axis0 cols x) false = true <->
  forall row, In row x -> nth b row true = true.
Proof.
  intros Hb. unfold all_axis0.
  rewrite map_nth_lt with (d := 0%nat) by (rewrite length_seq; lia).
  rewrite seq_nth by lia. simpl. apply forallb_forall.
Qed.

Section BuildReports.

Context {collaborators : Collaborators}.
Variable self : Config.

Lemma build_unsupervised_accuracy
      (snap_to_best using_dropout evaluate_accuracy : bool)
      (params : Params) (inputs : Inputs) (srng : Rng)
      (r : BuildResult Rng) :
  _build self false snap_to_best using_dropout evaluate_accuracy params inputs
         srng = Some r ->
  graph_accurate_list r = None /\
  dict_get "graph_accuracy" (info r) = None.
Proof.
  unfold _build. intros H.
  destruct (input_transformer_process params (concat (input_words inputs)))
    as [flat_input_reprs flat_ref_matrices].
  destruct (input_transformer_process params (query_words inputs))
    as [query_repr query_ref_matrix].
  destruct (sample_iter_dropouts self using_dropout srng)
    as [[iter_dropouts states_mask] srng1].
  unfold obind in H.
  destruct (theano_scan _ _ _ _) as [all_scan_out |]; [| discriminate].
  cbn [reduce_scan] in H.
  destruct_head H. destruct p as [[final_flat query_repr'] query_ref'].
  destruct_head H.
  destruct (answer_query _ _ _ _ _ _ _ _ _ _ _ _)
    as [[[output query_loss] info1] srng2] eqn:Hq.
  apply answer_query_loss in Hq.
  destruct (train_with_query self).
  - destruct Hq as [-> ->]. injection H as <-. split; reflexivity.
  - destruct Hq as [-> ->]. injection H as <-. split; reflexivity.
Qed.

End BuildReports.

Lemma example_eval_build_returns :
  exists r, @_build example_collaborators example_config true false false
                    true tt example_inputs 0%nat = Some r.
Proof. eexists. run_model. Defined.

(** ** The constructor and the query *)

(** X17: Computation graphs are built and functions compiled in [setup] only:
    a constructor that returns does so exactly when [setup] is set, in the
    order train, eval, debug test, fuzzy test, snap test, and one that
    raises has built nothing. *)
Theorem init_builds_graphs_in_setup_only (self : Config) :
  filter builds_graph (fst (__init__ self))
  = match snd (__init__ self) with
    | None => if setup self then Model_setup self else []
    | Some _ => []
    end.
Proof.
  destruct self as [n_in n_out spec irs ors prs pgs k fmt fp wnm dyn mut wipe
                    best ip seqr keep old twg twq stp chk lr].
  destruct fmt as [f | repr], wnm as [| w wnm], dyn, mut, ip as [| ip],
    seqr, twq, stp; reflexivity.
Qed.

Section QueryLoss.

Context {collaborators : Collaborators}.
Variable self : Config.

Lemma Rsum_map2_nonneg {A B : Type} (f : A -> B -> R) (P : A -> Prop)
      (Q : B -> Prop) (la : list A) (lb : list B) :
  (forall a b, P a -> Q b -> 0 <= f a b) ->
  Forall P la -> Forall Q lb -> 0 <= Rsum (map2 f la lb).
Proof.
  intros Hf Ha. revert lb. induction Ha as [| a la Pa Ha IH];
    intros lb Hb; [simpl; lra |].
  destruct Hb as [| b lb Qb Hb]; simpl; [lra |].
  specialize (Hf a b Pa Qb). specialize (IH lb Hb). lra.
Qed.

Lemma binary_crossentropy_nonneg (o t : R) :
  0 < o < 1 -> 0 <= t <= 1 -> 0 <= binary_crossentropy o t.
Proof.
  intros Ho Ht. unfold binary_crossentropy.
  assert (H1 : ln o <= 0).
  { rewrite <- ln_1. apply ln_le_compat; lra. }
  assert (H2 : ln (1 - o) <= 0).
  { rewrite <- ln_1. apply ln_le_compat; lra. }
  nra.
Qed.

Lemma categorical_crossentropy_nonneg (c t : list R) :
  Forall (fun x => 0 < x <= 1) c -> Forall (fun x => 0 <= x) t ->
  0 <= categorical_crossentropy c t.
Proof.
  intros Hc Ht. unfold categorical_crossentropy.
  assert (H : 0 <= Rsum (map2 (fun t c => - (t * ln c)) t c)).
  { apply (Rsum_map2_nonneg _ (fun x => 0 <= x) (fun x => 0 < x <= 1));
      auto.
    intros a b Ha Hb.
    assert (ln b <= 0) by (rewrite <- ln_1; apply ln_le_compat; lra).
    nra. }
  assert (Hneg : forall l1 l2,
             Rsum (map2 (fun t c => - (t * ln c)) l1 l2)
             = - Rsum (map2 (fun t c => t * ln c) l1 l2)).
  { induction l1 as [| a l1 IH]; intros [| b l2]; simpl; try lra.
    rewrite IH. lra. }
  rewrite Hneg in H. lra.
Qed.

(** X18: The query loss is never negative: for an output that holds
    probabilities (strictly between 0 and 1 for the subset format, positive
    and at most 1 otherwise) and a correct output with entries between 0
    and 1, the loss that [_build] adds for the query is at least 0. *)
Theorem query_loss_is_nonnegative
        (snap_to_best : bool) (params : Params) (inputs : Inputs)
        (batch n_sentences : nat) (final_gstate : GraphState)
        (query_repr : list (list R))
        (query_ref_matrix : list (list (list R)))
        (states_mask : option Tensor) (info0 info1 : list (String.string * R))
        (srng srng' : Rng) (output : list (list (list R)))
        (query_loss : option R) :
  answer_query self snap_to_best params inputs batch n_sentences final_gstate
               query_repr query_ref_matrix states_mask info0 srng
  = (output, query_loss, info1, srng') ->
  train_with_query self = true -> (0 < batch)%nat ->
  Forall (Forall (Forall (fun t => 0 <= t <= 1))) (correct_output inputs) ->
  (if output_format_is (output_format self) subset
   then Forall (Forall (Forall (fun o => 0 < o < 1))) output
   else Forall (Forall (Forall (fun o => 0 < o <= 1))) output) ->
  exists q, query_loss = Some q /\ 0 <= q.
Proof.
  intros Hq Htwq Hbatch Hc Ho.
  apply answer_query_loss in Hq. rewrite Htwq in Hq. destruct Hq as [-> _].
  eexists. split; [reflexivity |]. unfold query_loss_of.
  assert (Hb : 0 <= / INR batch).
  { left. apply Rinv_0_lt_compat. now apply lt_0_INR. }
  apply Rmult_le_pos; [| exact Hb].
  destruct (output_format_is (output_format self) subset).
  - unfold Rsum3, Rsum2.
    rewrite !map_map2.
    apply (Rsum_map2_nonneg _ (Forall (Forall (fun o => 0 < o < 1)))
                            (Forall (Forall (fun t => 0 <= t <= 1))));
      auto.
    intros m1 m2 H1 H2. rewrite map_map2.
    apply (Rsum_map2_nonneg _ (Forall (fun o => 0 < o < 1))
                            (Forall (fun t => 0 <= t <= 1))); auto.
    intros r1 r2 Hr1 Hr2.
    apply (Rsum_map2_nonneg _ (fun o => 0 < o < 1)
                            (fun t => 0 <= t <= 1)); auto.
    intros o t. apply binary_crossentropy_nonneg.
  - apply (Rsum_map2_nonneg _ (Forall (fun o => 0 < o <= 1))
                            (Forall (fun t => 0 <= t <= 1))).
    + intros c t Hcc Htt. apply categorical_crossentropy_nonneg; auto.
      eapply Forall_impl; [| exact Htt]. intros; simpl in *; lra.
    + clear - Ho. induction Ho as [| x l Hx _ IH]; simpl;
        [constructor | apply Forall_app; split; assumption].
    + clear - Hc. induction Hc as [| x l Hx _ IH]; simpl;
        [constructor | apply Forall_app; split; assumption].
Qed.

(** X19: With [wipe_node_state] the answer to the query does not depend on the
    node states the graph had after the last sentence: two final states
    that differ in the contents of their node states only give the same
    output, loss and info. *)
Theorem wiped_node_states_do_not_reach_the_query
        (snap_to_best : bool) (params : Params) (inputs : Inputs)
        (batch n_sentences : nat) (final_gstate final_gstate' : GraphState)
        (query_repr : list (list R))
        (query_ref_matrix : list (list (list R)))
        (states_mask : option Tensor) (info : list (String.string * R))
        (srng : Rng) :
  wipe_node_state self = true ->
  node_strengths final_gstate = node_strengths final_gstate' ->
  node_ids final_gstate = node_ids final_gstate' ->
  edge_strengths final_gstate = edge_strengths final_gstate' ->
  map (map (@length R)) (node_states final_gstate)
  = map (map (@length R)) (node_states final_gstate') ->
  answer_query self snap_to_best params inputs batch n_sentences
               final_gstate query_repr query_ref_matrix states_mask info srng
  = answer_query self snap_to_best params inputs batch n_sentences
                 final_gstate' query_repr query_ref_matrix states_mask info
                 srng.
Proof.
  intros Hwipe Hs Hi He Hshape. unfold answer_query. rewrite Hwipe.
  assert (Hz : with_updates_node_states
                 final_gstate
                 (map (map (map (fun _ => 0))) (node_states final_gstate))
               = with_updates_node_states
                   final_gstate'
                   (map (map (map (fun _ => 0))) (node_states final_gstate'))).
  { unfold with_updates_node_states. rewrite Hs, Hi, He. f_equal.
    assert (Hzeros : forall sts : list (list (list R)),
               map (map (map (fun _ => 0))) sts
               = map (map (fun n => repeat 0 n))
                     (map (map (@length R)) sts)).
    { intros sts. rewrite map_map. apply map_ext. intros rows.
      rewrite map_map. apply map_ext. intros row.
      induction row; simpl; congruence. }
    now rewrite !Hzeros, Hshape. }
  now rewrite Hz.
Qed.

End QueryLoss.

Lemma example_answer_returns :
  exists output query_loss info1 srng',
    @answer_query example_collaborators example_config false tt
                  example_inputs 1 2 absent_node_state [[0]] [[]] None []
                  0%nat
    = (output, query_loss, info1, srng').
Proof. eexists _, _, _, _. run_model. Defined.

Lemma query_loss_is_nonnegative_witness :
  exists output query_loss info1 srng',
    @answer_query example_collaborators example_config false tt
                  example_inputs 1 2 absent_node_state [[0]] [[]] None []
                  0%nat
    = (output, query_loss, info1, srng') /\
    exists q, query_loss = Some q /\ 0 <= q.
Proof.
  exists [[[1 / 2; 1 / 2]]]. 
  destruct example_answer_returns as (output & ql & info1 & srng' & H).
  assert (Hout : output = [[[1 / 2; 1 / 2]]]).
  { revert H. cbv -[Rplus Rmult Rdiv Rinv Ropp Rminus IZR exp ln INR].
    intros H. now injection H as <- _ _ _. }
  subst output.
  exists ql, info1, srng'. split; [exact H |].
  apply (@query_loss_is_nonnegative
           example_collaborators example_config false tt example_inputs 1 2
           absent_node_state [[0]] [[]] None [] info1 0%nat srng'
           [[[1 / 2; 1 / 2]]] ql H).
  - reflexivity.
  - lia.
  - simpl. repeat constructor; lra.
  - simpl. repeat constructor; lra.
Defined.

Lemma wiped_node_states_do_not_reach_the_query_witness :
  wipe_node_state example_config = true /\
  @answer_query example_collaborators example_config false tt
                example_inputs 1 2 absent_node_state [[0]] [[]] None []
                0%nat
  = @answer_query example_collaborators example_config false tt
                  example_inputs 1 2 absent_node_state_other_states [[0]]
                  [[]] None [] 0%nat.
Proof.
  split; [reflexivity |].
  apply (@wiped_node_states_do_not_reach_the_query
           example_collaborators example_config false tt example_inputs 1 2
           absent_node_state absent_node_state_other_states [[0]] [[]] None
           [] 0%nat); reflexivity.
Defined.

(** ** The sequence representation *)

Lemma nth_concat_uniform {A : Type} (n : nat) (ls : list (list A)) (d : A)
      (b t : nat) :
  Forall (fun l => length l = n) ls -> (t < n)%nat ->
  nth (b * n + t) (concat ls) d = nth t (nth b ls []) d.
Proof.
  intros Hls Ht. revert b. induction Hls as [| l ls Hl Hls IH]; intros b.
  - assert (Hnil : forall (B : Type) (e : B) i, nth i (@nil B) e = e)
      by (intros B e []; reflexivity).
    cbn [concat]. rewrite (Hnil (list A) []). now rewrite !(Hnil A d).
  - destruct b as [| b]; simpl.
    + rewrite app_nth1 by lia. reflexivity.
    + rewrite app_nth2 by lia.
      replace (n + b * n + t - length l)%nat with (b * n + t)%nat by lia.
      apply IH.
Qed.

Lemma length_concat_uniform {A : Type} (n : nat) (ls : list (list A)) :
  Forall (fun l => length l = n) ls ->
  length (concat ls) = (length ls * n)%nat.
Proof.
  induction 1 as [| l ls Hl _ IH]; simpl; [reflexivity |].
  rewrite length_app, IH, Hl. reflexivity.
Qed.

Lemma swapaxes01_full {A : Type} (n1 : nat) (d : A) (t : list (list A)) :
  Forall (fun row => length row = n1) t ->
  swapaxes01 n1 t = tabulate n1 (fun j => map (fun row => nth j row d) t).
Proof.
  intros Ht. unfold swapaxes01, tabulate. apply map_ext_in.
  intros j Hj. apply in_seq in Hj.
  induction Ht as [| row t Hrow _ IH]; simpl; [reflexivity |].
  rewrite (nth_error_nth' row d) by lia. simpl. now rewrite IH.
Qed.

Lemma repeat_axis0_concat {A : Type} (n : nat) (x : list A) :
  repeat_axis0 n x = concat (map (fun row => repeat row n) x).
Proof. unfold repeat_axis0. apply flat_map_concat_map. Qed.

(** X20: In sequence-representation mode the states of all steps are merged
    into one batch, the query is repeated and the aggregate is split again;
    the three agree on the position of story [b] at step [t], which is
    [b * n_sentences + t]. *)
Theorem sequence_representation_is_aligned
        {A : Type} (batch n : nat) (xs : list (list (list R)))
        (query_repr : list (list R)) (aggregated : list A) :
  length xs = n -> (0 < n)%nat ->
  Forall (fun x => length x = batch) xs ->
  length query_repr = batch -> length aggregated = (batch * n)%nat ->
  exists merged,
    merge_steps batch (map Tensor2 xs) = Some (Tensor2 merged) /\
    length merged = (batch * n)%nat /\
    length (repeat_axis0 n query_repr) = (batch * n)%nat /\
    forall b t (d : A), (b < batch)%nat -> (t < n)%nat ->
      nth (b * n + t) merged [] = nth b (nth t xs []) [] /\
      nth (b * n + t) (repeat_axis0 n query_repr) [] = nth b query_repr [] /\
      nth t (nth b (reshape3 batch n aggregated) []) d
      = nth (b * n + t) aggregated d.
Proof.
  intros Hn Hpos Hxs Hq Hagg.
  exists (concat (swapaxes01 batch xs)).
  assert (Hsw : swapaxes01 batch xs
                = tabulate batch (fun j => map (fun x => nth j x []) xs))
    by now apply swapaxes01_full.
  assert (Hrows : Forall (fun l : list (list R) => length l = n)
                         (swapaxes01 batch xs)).
  { rewrite Hsw. apply Forall_forall. intros l Hl.
    unfold tabulate in Hl. apply in_map_iff in Hl.
    destruct Hl as (j & <- & _). now rewrite length_map. }
  assert (Hrep : Forall (fun l : list (list R) => length l = n)
                        (map (fun row => repeat row n) query_repr)).
  { apply Forall_forall. intros l Hl. apply in_map_iff in Hl.
    destruct Hl as (row & <- & _). apply repeat_length. }
  split; [| split; [| split]].
  - destruct xs as [| x xs']; [simpl in Hn; lia |].
    change (map Tensor2 (x :: xs')) with (Tensor2 x :: map Tensor2 xs').
    cbn [merge_steps].
    change (Tensor2 x :: map Tensor2 xs') with (map Tensor2 (x :: xs')).
    now rewrite (traverse_map_some as_tensor2 Tensor2 (fun x => x))
      by reflexivity; rewrite map_id.
  - rewrite (length_concat_uniform n) by assumption.
    now rewrite swapaxes01_length.
  - rewrite repeat_axis0_concat, (length_concat_uniform n) by assumption.
    now rewrite length_map, Hq.
  - intros b t d Hb Ht. split; [| split].
    + rewrite nth_concat_uniform by assumption.
      rewrite Hsw. unfold tabulate.
      rewrite map_nth_lt with (d := 0%nat) by (rewrite length_seq; lia).
      rewrite seq_nth by lia.
      rewrite map_nth_lt with (d := []) by lia. reflexivity.
    + rewrite repeat_axis0_concat, nth_concat_uniform by assumption.
      rewrite map_nth_lt with (d := []) by lia.
      now apply nth_repeat_lt.
    + unfold reshape3.
      rewrite map_nth_lt with (d := 0%nat) by (rewrite length_seq; lia).
      rewrite seq_nth by lia. simpl.
      rewrite nth_firstn. replace (t <? n)%nat with true
        by (symmetry; apply Nat.ltb_lt; lia).
      rewrite nth_skipn. reflexivity.
Qed.

Lemma sequence_representation_is_aligned_witness :
  exists merged,
    merge_steps 2 (map Tensor2 example_step_strengths)
    = Some (Tensor2 merged) /\
    length merged = (2 * 3)%nat /\
    length (repeat_axis0 3 example_query_reprs) = (2 * 3)%nat /\
    forall b t (d : R), (b < 2)%nat -> (t < 3)%nat ->
      nth (b * 3 + t) merged [] = nth b (nth t example_step_strengths []) []
      /\ nth (b * 3 + t) (repeat_axis0 3 example_query_reprs) []
         = nth b example_query_reprs [] /\
      nth t (nth b (reshape3 2 3 [1; 2; 3; 4; 5; 6]) []) d
      = nth (b * 3 + t) [1; 2; 3; 4; 5; 6] d.
Proof.
  apply (sequence_representation_is_aligned
           2 3 example_step_strengths example_query_reprs
           [1; 2; 3; 4; 5; 6]); try reflexivity; try lia.
  repeat constructor.
Defined.

(** * The recurrence, step by step *)

Lemma flat_map_slices {A : Type} (d : A) (t : nat) (rows : list (list A)) :
  (forall row, In row rows -> (t < length row)%nat) ->
  flat_map (fun row => match nth_error row t with
                       | Some x => [x]
                       | None => []
                       end) rows
  = map (fun row => nth t row d) rows.
Proof.
  induction rows as [| row rows IH]; intros H; [reflexivity |].
  simpl. rewrite (nth_error_nth' row d) by (apply H; now left).
  simpl. f_equal. apply IH. intros r Hr. apply H. now right.
Qed.

Lemma nth_map_slot {A B : Type} (f : A -> B) (l : list A) (d : B) (d' : A)
      (t : nat) :
  (t < length (map f l))%nat -> nth t (map f l) d = f (nth t l d').
Proof.
  intros Ht. rewrite (nth_indep _ d (f d')) by assumption. apply map_nth.
Qed.

Lemma list_as_tabulate {A : Type} (d : A) (l : list A) :
  l = map (fun t => nth t l d) (seq 0 (length l)).
Proof.
  apply nth_ext with (d := d) (d' := d).
  - now rewrite length_map, length_seq.
  - intros n Hn.
    rewrite (nth_indep (map _ _) d (nth 0 l d))
      by (now rewrite length_map, length_seq).
    change (nth 0 l d) with ((fun t => nth t l d) 0%nat).
    rewrite map_nth. now rewrite seq_nth.
Qed.

Section UnrolledProperties.

Context {collaborators : Collaborators}.
Variable self : Config.
Variables with_correct_graph snap_to_best using_dropout evaluate_accuracy
  : bool.
Variable params : Params.
Variable iter_dropouts : list Tensor.
Variable inputs : Inputs.
Variable input_reprs : list (list (list R)).
Variable ref_matrices : list (list (list (list R))).

Lemma scan_slice_is_step_slots (t : nat) :
  let sequences := scan_sequences self with_correct_graph using_dropout
                                  inputs input_reprs ref_matrices
                                  iter_dropouts in
  (t < n_steps sequences)%nat ->
  nth t (swapaxes01 (n_steps sequences) sequences) []
  = step_slots self with_correct_graph using_dropout iter_dropouts inputs
               input_reprs ref_matrices t.
Proof.
  intros sequences Ht. rewrite swapaxes01_nth by assumption.
  assert (Hlen : forall s, In s sequences -> (t < length s)%nat).
  { intros s Hs. apply n_steps_le in Hs. lia. }
  rewrite (flat_map_slices (IScalar 0)) by exact Hlen.
  clear Ht. subst sequences. revert Hlen.
  unfold scan_sequences, step_slots, step_ref_matrix, step_correct,
    step_dropout_masks, step_correct_graph, step_input_repr.
  destruct (has_word_node_mapping self), with_correct_graph, using_dropout;
    cbn [app map correct_num_new_nodes correct_new_strengths
         correct_new_node_ids correct_edges];
    intros Hlen; rewrite ?map_app, ?app_nil_r; cbn [app map];
    repeat match goal with
      | |- context [nth t (map ?f ?l) (IScalar 0)] =>
          rewrite (nth_map_slot f l (IScalar 0) [] t)
            by (apply Hlen; simpl; rewrite ?in_app_iff; simpl; tauto)
      end;
    repeat (f_equal; []); try reflexivity.
  all: rewrite !map_map; apply map_ext_in; intros m Hm;
    apply nth_map_slot; apply Hlen; simpl; rewrite ?in_app_iff; simpl;
    repeat right;
    apply (in_map (fun m => map Mask (axis0 m))); exact Hm.
Qed.


Lemma unflatten_across_scan (pad : nat) (g : GraphState) :
  unflatten_from_const_size (flatten_to_const_size (graphspec self) pad g)
  = Some (across_scan self pad g).
Proof. reflexivity. Qed.


Lemma scan_body_step (t pad : nat) (g : GraphState) (out : list Slot) :
  scan_body self with_correct_graph snap_to_best using_dropout
            evaluate_accuracy params iter_dropouts
            (step_slots self with_correct_graph using_dropout iter_dropouts
                        inputs input_reprs ref_matrices t
             ++ flatten_to_const_size (graphspec self) pad g
             ++ [IScalar pad])
  = Some out ->
  exists r,
    _iter_fn self with_correct_graph snap_to_best evaluate_accuracy params
             (step_input_repr inputs input_reprs t)
             (step_ref_matrix self inputs ref_matrices t)
             (across_scan self pad g)
             (step_correct with_correct_graph inputs t)
             (step_dropout_masks using_dropout iter_dropouts t)
    = Some r /\
    iter_result_ok self with_correct_graph evaluate_accuracy r /\
    out = iter_result_row self evaluate_accuracy pad r.
Proof.
  unfold step_slots. cbn [app scan_body]. unfold _scan_fn.
  cbn [as_tensor2 obind].
  unfold step_ref_matrix, step_correct, step_dropout_masks.
  set (flat := flatten_to_const_size (graphspec self) pad g).
  assert (Hflat : forall pre : list Slot,
             py_drop_last 1 (pre ++ flat ++ [IScalar pad]) = pre ++ flat /\
             py_last (pre ++ flat ++ [IScalar pad]) = Some (IScalar pad)).
  { intros pre. rewrite !app_assoc. split.
    - rewrite py_drop_last_app_tail by (simpl; lia). apply app_nil_r.
    - now rewrite py_last_app_tail by discriminate. }
  assert (Hmasks : forall rest : list Slot,
             let masks := map (fun m => nth t (axis0 m) (Scalar 0))
                              iter_dropouts in
             traverse as_mask (firstn (length iter_dropouts)
                                      (map Mask masks ++ rest))
             = Some masks /\
             skipn (length iter_dropouts) (map Mask masks ++ rest) = rest).
  { intros rest masks.
    assert (Hl : length (map Mask masks) = length iter_dropouts)
      by (unfold masks; now rewrite !length_map).
    rewrite <- Hl. rewrite firstn_app, Nat.sub_diag, firstn_all.
    rewrite skipn_app, Nat.sub_diag, skipn_all. simpl.
    rewrite app_nil_r. split; [| reflexivity].
    rewrite (traverse_map_some as_mask Mask (fun m => m)) by reflexivity.
    now rewrite map_id. }
  destruct (has_word_node_mapping self), with_correct_graph eqn:Hwcg,
    using_dropout; cbn [app obind].
  all: try (destruct (Hmasks (flat ++ [IScalar pad])) as [-> ->]).
  all: cbn [obind].
  all: destruct (Hflat []) as [Hd Hl]; cbn [app] in Hd, Hl;
    rewrite Hd, Hl; cbn [obind as_iscalar];
    unfold flat; rewrite unflatten_across_scan; cbn [obind].
  all: unfold step_correct_graph; cbn [correct_num_new_nodes
         correct_new_strengths correct_new_node_ids correct_edges].
  all: unfold obind at 1.
  all: match goal with
       | |- match ?x with _ => _ end = _ -> _ =>
           destruct x as [[g' | g' nl el acc] |]; try discriminate
       end.
  all: intros H; eexists; split; [reflexivity |].
  all: unfold iter_result_row, iter_result_ok, scored_tail; cbn [iter_result_state].
  all: first
         [ injection H as <-; split; [reflexivity | now rewrite app_nil_r]
         | destruct (dynamic_nodes self), nl as [nl |], evaluate_accuracy,
             acc as [acc |]; try discriminate H; cbn [obind] in H;
           injection H as <-; rewrite <- ?app_assoc;
           repeat split; try reflexivity; try discriminate; congruence ].
Qed.

End UnrolledProperties.

Section UnrolledScan.

Context {collaborators : Collaborators}.
Variable self : Config.
Variables with_correct_graph snap_to_best using_dropout evaluate_accuracy
  : bool.
Variable params : Params.
Variable iter_dropouts : list Tensor.
Variable inputs : Inputs.
Variable input_reprs : list (list (list R)).
Variable ref_matrices : list (list (list (list R))).

Lemma recurrent_outputs_row (batch n pad : nat) (r : IterResult) :
  iter_result_ok self with_correct_graph evaluate_accuracy r ->
  recurrent_outputs
    (scan_outputs_info self with_correct_graph evaluate_accuracy batch n)
    (iter_result_row self evaluate_accuracy pad r)
  = flatten_to_const_size (graphspec self) pad (iter_result_state r).
Proof.
  unfold iter_result_ok, iter_result_row, scan_outputs_info, scored_tail,
    flatten_to_const_size.
  destruct r as [g | g nl el acc]; cbn [iter_result_state].
  - intros ->. reflexivity.
  - intros (-> & Hnl & Hacc).
    destruct (dynamic_nodes self), nl as [nl |], evaluate_accuracy,
      acc as [acc |]; simpl; try reflexivity;
      try (exfalso; now apply Hnl); try (exfalso; now apply Hacc).
Qed.

Lemma initial_outputs_info (batch n : nat) :
  initial_outputs
    (scan_outputs_info self with_correct_graph evaluate_accuracy batch n)
  = flatten_to_const_size
      (graphspec self) (pad_graph_size_of self n)
      (if dynamic_nodes self
       then create_empty batch (graphspec self)
       else create_full_unique batch (graphspec self)).
Proof.
  unfold scan_outputs_info, flatten_to_const_size, initial_outputs.
  destruct with_correct_graph, (dynamic_nodes self), evaluate_accuracy;
    reflexivity.
Qed.

(** The loop of the scan calls [_iter_fn] once per step, on the step's
    slices and on the state flattened by the step before. *)
Lemma scan_loop_unrolled (batch n pad : nat) (ts : list nat)
      (g : GraphState) (rows : list (list Slot)) :
  scan_loop (scan_body self with_correct_graph snap_to_best using_dropout
                       evaluate_accuracy params iter_dropouts)
            (scan_outputs_info self with_correct_graph evaluate_accuracy
                               batch n)
            [IScalar pad]
            (map (step_slots self with_correct_graph using_dropout
                             iter_dropouts inputs input_reprs ref_matrices)
                 ts)
            (flatten_to_const_size (graphspec self) pad g)
  = Some rows ->
  exists results,
    unrolled_steps self with_correct_graph snap_to_best using_dropout
                   evaluate_accuracy params iter_dropouts inputs input_reprs
                   ref_matrices pad ts (across_scan self pad g)
    = Some results /\
    Forall (iter_result_ok self with_correct_graph evaluate_accuracy)
           results /\
    rows = map (iter_result_row self evaluate_accuracy pad) results.
Proof.
  revert g rows. induction ts as [| t ts IH]; intros g rows H.
  - injection H as <-. exists []. repeat split. constructor.
  - cbn [map scan_loop] in H. unfold obind at 1 in H.
    destruct (scan_body _ _ _ _ _ _ _ _) as [out |] eqn:Hbody;
      [| discriminate].
    apply scan_body_step in Hbody. destruct Hbody as (r & Hr & Hok & ->).
    rewrite (recurrent_outputs_row batch n pad r Hok) in H.
    unfold obind in H.
    destruct (scan_loop _ _ _ _ _) as [more |] eqn:Hmore; [| discriminate].
    injection H as <-.
    destruct (IH _ _ Hmore) as (results & Hres & Hoks & ->).
    exists (r :: results). cbn [unrolled_steps]. rewrite Hr.
    cbn [obind]. rewrite Hres. cbn [obind].
    repeat split. now constructor.
Qed.

(** Every result of the unrolled steps is what a call of [_iter_fn]
    returned. *)
Lemma unrolled_steps_calls (pad : nat) (ts : list nat) (g : GraphState)
      (results : list IterResult) :
  unrolled_steps self with_correct_graph snap_to_best using_dropout
                 evaluate_accuracy params iter_dropouts inputs input_reprs
                 ref_matrices pad ts g
  = Some results ->
  length results = length ts /\
  Forall (fun r =>
            exists input_repr ref_matrix gstate correct dropout_masks,
              _iter_fn self with_correct_graph snap_to_best
                       evaluate_accuracy params input_repr ref_matrix gstate
                       correct dropout_masks = Some r)
         results.
Proof.
  revert g results. induction ts as [| t ts IH]; intros g results H.
  - injection H as <-. split; [reflexivity | constructor].
  - cbn [unrolled_steps] in H. unfold obind in H.
    destruct (_iter_fn _ _ _ _ _ _ _ _ _ _) as [r |] eqn:Hr;
      [| discriminate].
    destruct (unrolled_steps _ _ _ _ _ _ _ _ _ _ _ _ _) as [more |] eqn:Hm;
      [| discriminate].
    injection H as <-. destruct (IH _ _ Hm) as [Hlen Hall].
    split; [simpl; congruence |]. constructor; [| exact Hall].
    do 5 eexists. exact Hr.
Qed.

(** The scan of the recurrence, unrolled. *)
Lemma theano_scan_unrolled (batch n pad : nat) (g : GraphState)
      (all_scan_out : list (list Slot)) :
  let sequences := scan_sequences self with_correct_graph using_dropout
                                  inputs input_reprs ref_matrices
                                  iter_dropouts in
  let outputs_info := scan_outputs_info self with_correct_graph
                                        evaluate_accuracy batch n in
  initial_outputs outputs_info
  = flatten_to_const_size (graphspec self) pad g ->
  theano_scan (scan_body self with_correct_graph snap_to_best using_dropout
                         evaluate_accuracy params iter_dropouts)
              sequences outputs_info [IScalar pad]
  = Some all_scan_out ->
  exists results,
    unrolled_steps self with_correct_graph snap_to_best using_dropout
                   evaluate_accuracy params iter_dropouts inputs input_reprs
                   ref_matrices pad (seq 0 (n_steps sequences))
                   (across_scan self pad g)
    = Some results /\
    Forall (iter_result_ok self with_correct_graph evaluate_accuracy)
           results /\
    all_scan_out
    = swapaxes01 (length outputs_info)
                 (map (iter_result_row self evaluate_accuracy pad) results).
Proof.
  intros sequences outputs_info Hinit H. unfold theano_scan in H.
  rewrite Hinit in H.
  assert (Hslices : swapaxes01 (n_steps sequences) sequences
                    = map (step_slots self with_correct_graph using_dropout
                                      iter_dropouts inputs input_reprs
                                      ref_matrices)
                          (seq 0 (n_steps sequences))).
  { rewrite (list_as_tabulate [] (swapaxes01 (n_steps sequences) sequences)).
    rewrite swapaxes01_length. apply map_ext_in. intros t Ht.
    apply in_seq in Ht. apply scan_slice_is_step_slots.
    destruct Ht as [_ Ht]. exact Ht. }
  rewrite Hslices in H. unfold obind in H.
  destruct (scan_loop _ _ _ _ _) as [rows |] eqn:Hloop; [| discriminate].
  injection H as <-.
  apply scan_loop_unrolled in Hloop.
  destruct Hloop as (results & Hres & Hok & ->).
  exists results. repeat split; assumption.
Qed.

End UnrolledScan.

Section BuildUnrolled.

Context {collaborators : Collaborators}.
Variable self : Config.

Lemma build_scan_unrolled
      (with_correct_graph snap_to_best using_dropout evaluate_accuracy : bool)
      (params : Params) (inputs : Inputs) (srng : Rng)
      (all_scan_out : list (list Slot)) :
  build_scan self with_correct_graph snap_to_best using_dropout
             evaluate_accuracy params inputs srng = Some all_scan_out ->
  exists results,
    build_steps self with_correct_graph snap_to_best using_dropout
                evaluate_accuracy params inputs srng = Some results /\
    Forall (iter_result_ok self with_correct_graph evaluate_accuracy)
           results /\
    length results
    = n_steps (build_sequences self with_correct_graph using_dropout params
                               inputs srng) /\
    all_scan_out
    = swapaxes01
        (length (scan_outputs_info self with_correct_graph evaluate_accuracy
                                   (length (input_words inputs))
                                   (axis1_length (input_words inputs))))
        (map (iter_result_row
                self evaluate_accuracy
                (pad_graph_size_of self (axis1_length (input_words inputs))))
             results).
Proof.
  unfold build_scan, build_steps, build_sequences. intros H.
  apply theano_scan_unrolled with (g := initial_gstate self inputs) in H;
    [| apply initial_outputs_info].
  destruct H as (results & Hres & Hok & ->).
  exists results. repeat split; try assumption.
  apply unrolled_steps_calls in Hres. destruct Hres as [Hlen _].
  now rewrite Hlen, length_seq.
Qed.

(** A build that returns has run its scan. *)
Lemma build_runs_scan
      (with_correct_graph snap_to_best using_dropout evaluate_accuracy : bool)
      (params : Params) (inputs : Inputs) (srng : Rng)
      (r : BuildResult Rng) :
  _build self with_correct_graph snap_to_best using_dropout evaluate_accuracy
         params inputs srng = Some r ->
  exists all_scan_out,
    build_scan self with_correct_graph snap_to_best using_dropout
               evaluate_accuracy params inputs srng = Some all_scan_out.
Proof.
  unfold _build, build_scan, build_sequences, build_input_reprs,
    build_ref_matrices, build_iter_dropouts. intros H.
  destruct (input_transformer_process params (concat (input_words inputs)))
    as [flat_input_reprs flat_ref_matrices].
  destruct (input_transformer_process params (query_words inputs))
    as [query_repr query_ref_matrix].
  destruct (sample_iter_dropouts self using_dropout srng)
    as [[iter_dropouts states_mask] srng1].
  cbn [fst snd]. unfold obind in H.
  destruct (theano_scan _ _ _ _) as [all_scan_out |]; [| discriminate].
  now exists all_scan_out.
Qed.

(** A supervised build, in terms of the steps of its own scan: the graph
    loss, the accuracy and the reported values are made of what [_iter_fn]
    returned at these steps. *)
Lemma build_supervised_unrolled
      (snap_to_best using_dropout evaluate_accuracy : bool)
      (params : Params) (inputs : Inputs) (srng : Rng)
      (r : BuildResult Rng) :
  _build self true snap_to_best using_dropout evaluate_accuracy params inputs
         srng = Some r ->
  exists results,
    build_steps self true snap_to_best using_dropout evaluate_accuracy params
                inputs srng = Some results /\
    Forall (iter_result_ok self true evaluate_accuracy) results /\
    length results
    = n_steps (build_sequences self true using_dropout params inputs srng) /\
    let batch := length (input_words inputs) in
    let n_sentences := axis1_length (input_words inputs) in
    let node_loss := reduced_loss batch (map iter_result_node_loss results) in
    let edge_loss := reduced_loss batch (map iter_result_edge_loss results) in
    let accurate := all_axis0 batch (map iter_result_accuracy results) in
    let avg_graph_loss :=
      (if dynamic_nodes self then node_loss + edge_loss else edge_loss)
      / INR n_sentences in
    let query_loss :=
      query_loss_of self (final_output r) (correct_output inputs) batch in
    let graph_info :=
      (if evaluate_accuracy
       then [("graph_accuracy"%string, count_true accurate / INR batch)]
       else [])
      ++ (if dynamic_nodes self then [("node_loss"%string, node_loss)]
          else [])
      ++ [("edge_loss"%string, edge_loss)] in
    full_loss r = (if train_with_query self
                   then 0 + avg_graph_loss + query_loss
                   else 0 + avg_graph_loss) /\
    info r = (if train_with_query self
              then dict_set "query_loss" query_loss graph_info
              else graph_info) /\
    graph_accurate_list r
    = (if evaluate_accuracy then Some accurate else None).
Proof.
  intros H. destruct (build_runs_scan _ _ _ _ _ _ _ _ H) as (out & Hscan).
  destruct (build_scan_unrolled _ _ _ _ _ _ _ _ Hscan)
    as (results & Hres & Hok & Hlen & Hout).
  exists results. split; [exact Hres |]. split; [exact Hok |].
  split; [exact Hlen |].
  set (pad := pad_graph_size_of self (axis1_length (input_words inputs)))
    in *.
  set (to_step := fun r : IterResult =>
         match r with
         | IterScored g nl el acc => mkScoredStep pad g nl el acc
         | IterState g => mkScoredStep pad g None [] None
         end).
  assert (Hrows : map (iter_result_row self evaluate_accuracy pad) results
                  = map (scored_row self evaluate_accuracy)
                        (map to_step results)).
  { rewrite map_map. apply map_ext_in. intros x Hx.
    rewrite Forall_forall in Hok. specialize (Hok x Hx).
    destruct x as [g | g nl el acc]; [discriminate Hok | reflexivity]. }
  assert (Hsteps : Forall (scored_step_ok self true snap_to_best
                                          evaluate_accuracy params)
                          (map to_step results)).
  { unfold build_steps in Hres. apply unrolled_steps_calls in Hres.
    destruct Hres as [_ Hcalls]. apply Forall_map.
    rewrite Forall_forall in *. intros x Hx.
    specialize (Hok x Hx). specialize (Hcalls x Hx).
    destruct x as [g | g nl el acc]; [discriminate Hok |].
    destruct Hok as (_ & Hnl & Hacc).
    destruct Hcalls as (a1 & a2 & a3 & a4 & a5 & Hcall).
    split; [| split; assumption].
    now exists a1, a2, a3, a4, a5, g. }
  assert (Hnl : map step_node_loss_value (map to_step results)
                = map iter_result_node_loss results).
  { rewrite map_map. apply map_ext. now intros [g | g [nl |] el acc]. }
  assert (Hel : map step_edge_loss (map to_step results)
                = map iter_result_edge_loss results).
  { rewrite map_map. apply map_ext. now intros [g | g nl el acc]. }
  assert (Hacc : map step_accuracy_value (map to_step results)
                 = map iter_result_accuracy results).
  { rewrite map_map. apply map_ext. now intros [g | g nl el [acc |]]. }
  revert H. unfold _build.
  revert Hscan. unfold build_scan, build_sequences, build_input_reprs,
    build_ref_matrices, build_iter_dropouts.
  destruct (input_transformer_process params (concat (input_words inputs)))
    as [flat_input_reprs flat_ref_matrices].
  destruct (input_transformer_process params (query_words inputs))
    as [query_repr query_ref_matrix].
  destruct (sample_iter_dropouts self using_dropout srng)
    as [[iter_dropouts states_mask] srng1].
  cbn [fst snd]. intros -> H. cbn [obind] in H.
  rewrite Hout, Hrows in H.
  rewrite (scan_columns_scored self true snap_to_best evaluate_accuracy
                               params) in H by assumption.
  unfold obind at 1 in H. rewrite reduce_scan_scored in H.
  rewrite Hnl, Hel, Hacc in H. unfold scored_info in H.
  rewrite Hnl, Hel, Hacc in H.
  unfold obind in H.
  destruct_head H. destruct p as [[final_flat query_repr'] query_ref'].
  destruct_head H.
  destruct (answer_query _ _ _ _ _ _ _ _ _ _ _ _)
    as [[[output query_loss] info1] srng2] eqn:Hq.
  apply answer_query_loss in Hq.
  destruct (train_with_query self).
  - destruct Hq as [-> ->]. injection H as <-. repeat split.
  - destruct Hq as [-> ->]. injection H as <-. repeat split.
Qed.

End BuildUnrolled.

Section UnrolledSteps.

Context {collaborators : Collaborators}.
Variable self : Config.
Variables with_correct_graph snap_to_best using_dropout evaluate_accuracy
  : bool.
Variable params : Params.
Variable iter_dropouts : list Tensor.
Variable inputs : Inputs.
Variable input_reprs : list (list (list R)).
Variable ref_matrices : list (list (list (list R))).

(** Step [k] of the unrolled recurrence is the call of [_iter_fn] on the
    slices at its position and on the state that the step before handed
    over (for the first step, the initial state). *)
Lemma unrolled_steps_nth (pad : nat) (ts : list nat) (g : GraphState)
      (results : list IterResult) (k : nat) (res : IterResult) :
  unrolled_steps self with_correct_graph snap_to_best using_dropout
                 evaluate_accuracy params iter_dropouts inputs input_reprs
                 ref_matrices pad ts g
  = Some results ->
  nth_error results k = Some res ->
  exists t gk,
    nth_error ts k = Some t /\
    (k = 0%nat -> gk = g) /\
    (forall k' prev, k = S k' -> nth_error results k' = Some prev ->
                     gk = across_scan self pad (iter_result_state prev)) /\
    _iter_fn self with_correct_graph snap_to_best evaluate_accuracy params
             (step_input_repr inputs input_reprs t)
             (step_ref_matrix self inputs ref_matrices t) gk
             (step_correct with_correct_graph inputs t)
             (step_dropout_masks using_dropout iter_dropouts t)
    = Some res.
Proof.
  revert g results k. induction ts as [| t ts IH]; intros g results k H Hk.
  - injection H as <-. now destruct k.
  - cbn [unrolled_steps] in H. unfold obind in H.
    destruct (_iter_fn _ _ _ _ _ _ _ _ _ _) as [r |] eqn:Hr;
      [| discriminate].
    destruct (unrolled_steps _ _ _ _ _ _ _ _ _ _ _ _ _) as [more |] eqn:Hm;
      [| discriminate].
    injection H as <-. destruct k as [| k].
    + injection Hk as <-. exists t, g. repeat split; [| exact Hr].
      intros k' prev Hk'. discriminate.
    + cbn [nth_error] in Hk.
      destruct (IH _ _ _ Hm Hk) as (t' & gk & Ht' & H0 & HS & Hcall).
      exists t', gk. split; [exact Ht' |]. split; [discriminate |].
      split; [| exact Hcall].
      intros k' prev Heq Hprev. injection Heq as <-.
      destruct k as [| k].
      * injection Hprev as <-. now apply H0.
      * cbn [nth_error] in Hprev. now apply (HS k).
Qed.

End UnrolledSteps.

Section SupervisedSteps.

Context {collaborators : Collaborators}.
Variable self : Config.

(** What a supervised call of [_iter_fn] returns: the state after the edge
    update with the ground-truth edges in place of the predicted ones, and
    the edge loss of the predicted edges. *)
Lemma iter_fn_supervised
      (snap_to_best evaluate_accuracy : bool) (params : Params)
      (input_repr : list (list R))
      (ref_matrix : option (list (list (list R))))
      (gstate : GraphState) (c : CorrectGraph)
      (dropout_masks : option (list Tensor)) (r : IterResult) :
  _iter_fn self true snap_to_best evaluate_accuracy params input_repr
           ref_matrix gstate (Some c) dropout_masks = Some r ->
  exists g1 g2 masks node_loss overall_accuracy,
    g2 = fst (edge_state_updater_process params g1 input_repr masks) /\
    r = IterScored
          (with_updates_edge_strengths
             g2 (crop_edges (n_nodes g2) (correct_edges c)))
          node_loss (edge_loss EPSILON g2 (correct_edges c))
          overall_accuracy.
Proof.
  unfold _iter_fn. intros H.
  destruct (if nodes_mutable self then _ else _) as [ga ma].
  destruct (if has_word_node_mapping self then _ else _) as [gb mb].
  destruct (if negb (intermediate_propagate self =? 0)%nat then _ else _)
    as [gc mc].
  destruct (dynamic_nodes self) eqn:Hdyn.
  - destruct (new_node_adder_get_candidates params gc input_repr
                                            (new_nodes_per_iter self) mc)
      as [[new_strengths new_ids] md].
    simpl in H.
    destruct (edge_state_updater_process params _ input_repr md)
      as [ge me] eqn:He.
    injection H as <-.
    eexists _, ge, md. eexists. eexists.
    rewrite He. split; reflexivity.
  - simpl in H.
    destruct (edge_state_updater_process params gc input_repr mc)
      as [ge me] eqn:He.
    injection H as <-.
    exists gc, ge, mc. eexists. eexists.
    rewrite He. split; reflexivity.
Qed.

End SupervisedSteps.

(** ** The losses of a training call *)

Section TotalLoss.

Context {collaborators : Collaborators}.
Variable self : Config.

Lemma unrolled_no_node_loss
      (with_correct_graph snap_to_best using_dropout evaluate_accuracy : bool)
      (params : Params) (inputs : Inputs) (srng : Rng)
      (results : list IterResult) (batch : nat) :
  build_steps self with_correct_graph snap_to_best using_dropout
              evaluate_accuracy params inputs srng = Some results ->
  dynamic_nodes self = false ->
  reduced_loss batch (map iter_result_node_loss results) = 0.
Proof.
  intros Hres Hd. unfold build_steps in Hres.
  apply unrolled_steps_calls in Hres. destruct Hres as [_ Hcalls].
  unfold reduced_loss, Rsum2.
  replace (Rsum (map Rsum (map iter_result_node_loss results))) with 0.
  - unfold Rdiv. apply Rmult_0_l.
  - induction Hcalls as [| x xs Hx _ IH]; [reflexivity |].
    simpl. rewrite <- IH.
    destruct x as [g | g nl el acc]; simpl; [lra |].
    destruct Hx as (a1 & a2 & a3 & a4 & a5 & Hcall).
    assert (Hs : scored_step self with_correct_graph snap_to_best
                             evaluate_accuracy params nl el acc)
      by (now exists a1, a2, a3, a4, a5, g).
    apply iter_fn_scored in Hs. destruct Hs as [_ Hnone].
    rewrite (Hnone Hd). simpl. lra.
Qed.

(** C6: the loss that a training call returns is the graph-construction
    loss (node loss plus edge loss, each summed over the steps of the call's
    own scan and over the batch and divided by the batch size, then divided
    by the sentence count) plus the query-answer loss of the call's output;
    the graph term is absent when [train_with_graph] is disabled and the
    query term when [train_with_query] is disabled.  The steps are those of
    the recurrence over the story: one call of [_iter_fn] per entry of the
    shortest sequence, each on the state of the step before; without
    dynamic nodes no step has a node loss. *)
Theorem total_loss_composition (st st' : ModelState) (inputs : Inputs)
        (loss : R) (train_info : list (String.string * R)) :
  Model_train self st inputs = Some (loss, train_info, st') ->
  exists r : BuildResult Rng,
    _build self (train_with_graph self) false true false (state_params st)
           inputs (state_srng st) = Some r /\
    let batch := length (input_words inputs) in
    let n_sentences := axis1_length (input_words inputs) in
    let query_loss :=
      query_loss_of self (final_output r) (correct_output inputs) batch in
    if train_with_graph self then
      exists results : list IterResult,
        build_steps self true false true false (state_params st) inputs
                    (state_srng st) = Some results /\
        length results
        = n_steps (build_sequences self true true (state_params st) inputs
                                   (state_srng st)) /\
        let node_loss :=
          reduced_loss batch (map iter_result_node_loss results) in
        let edge_loss :=
          reduced_loss batch (map iter_result_edge_loss results) in
        (dynamic_nodes self = false -> node_loss = 0) /\
        loss = (node_loss + edge_loss) / INR n_sentences
               + (if train_with_query self then query_loss else 0) /\
        train_info
        = (if dynamic_nodes self then [("node_loss"%string, node_loss)]
           else [])
          ++ [("edge_loss"%string, edge_loss)]
          ++ (if train_with_query self
              then [("query_loss"%string, query_loss)] else [])
    else
      loss = (if train_with_query self then query_loss else 0) /\
      train_info = (if train_with_query self
                    then [("query_loss"%string, query_loss)] else []).
Proof.
  unfold Model_train, train_fn, info_keys, obind. intros H.
  destruct (_build self (train_with_graph self) false true false
                   (state_params st) inputs (state_srng st))
    as [r |] eqn:Hb; [| discriminate].
  destruct (Adam _ _ _ _) as [params' opt']. injection H as <- <- _.
  rewrite combine_fst_snd. exists r. split; [reflexivity |]. cbv zeta.
  destruct (train_with_graph self) eqn:Hg.
  - apply build_supervised_unrolled in Hb.
    destruct Hb as (results & Hres & _ & Hlen & Hloss & Hinfo & _).
    cbv zeta in Hloss, Hinfo.
    exists results. split; [exact Hres |]. split; [exact Hlen |].
    pose proof (unrolled_no_node_loss
                  true false true false (state_params st) inputs
                  (state_srng st) results (length (input_words inputs)) Hres)
      as Hnone.
    split; [exact Hnone |].
    rewrite Hloss, Hinfo.
    destruct (dynamic_nodes self), (train_with_query self);
      rewrite ?Hnone by reflexivity; rewrite ?Rplus_0_l, ?Rplus_0_r;
      split; reflexivity.
  - apply build_unsupervised in Hb. destruct Hb as [Hloss Hinfo].
    cbv zeta in Hloss, Hinfo. rewrite Hloss, Hinfo.
    destruct (train_with_query self); rewrite ?Rplus_0_l; split; reflexivity.
Qed.

End TotalLoss.

Lemma total_loss_composition_witness :
  exists loss train_info st',
    Model_train example_config example_state example_inputs
    = Some (loss, train_info, st') /\
    exists r : BuildResult nat,
      @_build example_collaborators example_config true false true false tt
              example_inputs 0%nat = Some r /\
      exists results : list IterResult,
        @build_steps example_collaborators example_config true false true
                     false tt example_inputs 0%nat = Some results /\
        length results = 2%nat /\
        let query_loss :=
          query_loss_of example_config (final_output r)
                        (correct_output example_inputs) 1 in
        let node_loss :=
          reduced_loss 1 (map iter_result_node_loss results) in
        let edge_loss :=
          reduced_loss 1 (map iter_result_edge_loss results) in
        (dynamic_nodes example_config = false -> node_loss = 0) /\
        loss = (node_loss + edge_loss) / INR 2 + query_loss /\
        train_info = [("node_loss"%string, node_loss);
                      ("edge_loss"%string, edge_loss);
                      ("query_loss"%string, query_loss)].
Proof.
  destruct example_train_returns as (loss & train_info & st' & H).
  exists loss, train_info, st'. split; [exact H |].
  exact (@total_loss_composition example_collaborators example_config
                                 example_state st' example_inputs loss
                                 train_info H).
Defined.

(** ** The edge loss *)

(** C4, as stated, fails: for one node of strength 1 whose edge to itself is
    predicted with strength 1/2 and is in the ground truth, the code's edge
    loss is [-ln(1/2 + EPSILON)], a positive number, while the negative sum
    of the binary cross-entropy is [ln(1/2)], a negative one; and the code's
    loss is not the cross-entropy itself either, whose logarithm is not
    shifted by [EPSILON]. *)
Lemma edge_loss_is_not_negated_crossentropy :
  edge_shapes 1 1 1 1 half_edge_state half_edge_truth /\
  nth 0 (edge_loss example_EPSILON half_edge_state half_edge_truth) 0
  = - ln (1 / 2 + example_EPSILON) /\
  claimed_edge_loss 1 1 half_edge_state half_edge_truth 0 = ln (1 / 2) /\
  claimed_edge_loss 1 1 half_edge_state half_edge_truth 0 < 0 /\
  0 < nth 0 (edge_loss example_EPSILON half_edge_state half_edge_truth) 0 /\
  nth 0 (edge_loss example_EPSILON half_edge_state half_edge_truth) 0
  <> claimed_edge_loss 1 1 half_edge_state half_edge_truth 0 /\
  nth 0 (edge_loss example_EPSILON half_edge_state half_edge_truth) 0
  <> - claimed_edge_loss 1 1 half_edge_state half_edge_truth 0.
Proof.
  assert (Heps : 0 < example_EPSILON < 1 / 4)
    by (unfold example_EPSILON; lra).
  assert (Hcode : nth 0 (edge_loss example_EPSILON half_edge_state
                                   half_edge_truth) 0
                  = - ln (1 / 2 + example_EPSILON)).
  { cbv -[Rplus Rmult Rdiv Rinv Ropp Rminus IZR ln example_EPSILON].
    ring. }
  assert (Hclaim : claimed_edge_loss 1 1 half_edge_state half_edge_truth 0
                   = ln (1 / 2)).
  { cbv -[Rplus Rmult Rdiv Rinv Ropp Rminus IZR ln example_EPSILON].
    ring. }
  assert (Hneg : ln (1 / 2) < 0)
    by (rewrite <- ln_1; apply ln_increasing; lra).
  assert (Hneg' : ln (1 / 2 + example_EPSILON) < 0)
    by (rewrite <- ln_1; apply ln_increasing; lra).
  assert (Hlt : ln (1 / 2) < ln (1 / 2 + example_EPSILON))
    by (apply ln_increasing; lra).
  split.
  { unfold edge_shapes, tensor4_shape, n_batch, n_nodes; simpl.
    repeat split; try lia; intros;
      repeat match goal with
             | H : (?x < _)%nat |- _ =>
                 is_var x; destruct x; [| apply Nat.succ_lt_mono in H]
             end; simpl; try reflexivity; try lia. }
  rewrite Hcode, Hclaim. repeat split; lra.
Qed.

Section EdgeLossReported.

Context {collaborators : Collaborators}.
Variable self : Config.

(** C4 (amended): in a supervised build, the edge loss of every step of the
    scan is, for each batch element, the negative sum over all node pairs
    and edge types of the log-likelihood of the ground-truth edge strength
    [c] under the predicted edge strength [e], with both logarithms shifted
    by [EPSILON], [c * ln (e + EPSILON) + (1 - c) * ln (1 - e + EPSILON)],
    multiplied by the strengths of the source and the destination node; the
    ground truth is the step's slice of [graph_new_edges], and the predicted
    strengths are those the edge updater gave at this step.  The edge loss
    that the build reports is the sum of these losses over the steps of its
    scan and the batch, divided by the batch size. *)
Theorem edge_loss_masked_and_reported
        (snap_to_best using_dropout evaluate_accuracy : bool)
        (params : Params) (inputs : Inputs) (srng : Rng)
        (r : BuildResult Rng) :
  _build self true snap_to_best using_dropout evaluate_accuracy params inputs
         srng = Some r ->
  exists results : list IterResult,
    build_steps self true snap_to_best using_dropout evaluate_accuracy params
                inputs srng = Some results /\
    length results
    = n_steps (build_sequences self true using_dropout params inputs srng) /\
    (forall t res,
        nth_error results t = Some res ->
        let correct_edges := correct_edges (step_correct_graph inputs t) in
        exists g1 g2 masks,
          g2 = fst (edge_state_updater_process
                      params g1
                      (step_input_repr inputs (build_input_reprs params inputs)
                                       t)
                      masks) /\
          iter_result_state res
          = with_updates_edge_strengths
              g2 (crop_edges (n_nodes g2) correct_edges) /\
          iter_result_edge_loss res = edge_loss EPSILON g2 correct_edges /\
          forall batch n ty p b,
            edge_shapes batch n ty p g2 correct_edges -> (b < batch)%nat ->
            let c := fun i j k =>
              nth k (nth j (nth i (nth b correct_edges []) []) []) 0 in
            let e := fun i j k =>
              nth k (nth j (nth i (nth b (edge_strengths g2) []) []) []) 0 in
            let s := fun i => nth i (nth b (node_strengths g2) []) 0 in
            nth b (iter_result_edge_loss res) 0
            = - Rsum (tabulate n (fun i => Rsum (tabulate n (fun j =>
                Rsum (tabulate ty (fun k =>
                  (c i j k * ln (e i j k + EPSILON)
                   + (1 - c i j k) * ln (1 - e i j k + EPSILON))
                  * s i * s j))))))) /\
    dict_get "edge_loss" (info r)
    = Some (Rsum2 (map iter_result_edge_loss results)
            / INR (length (input_words inputs))).
Proof.
  intros Hb. apply build_supervised_unrolled in Hb.
  destruct Hb as (results & Hres & _ & Hlen & _ & Hinfo & _).
  cbv zeta in Hinfo.
  exists results. split; [exact Hres |]. split; [exact Hlen |]. split.
  - intros t res Ht correct_edges.
    unfold build_steps in Hres.
    destruct (unrolled_steps_nth _ _ _ _ _ _ _ _ _ _ _ _ _ _ _ _ Hres Ht)
      as (t' & gk & Ht' & _ & _ & Hcall).
    assert (t' = t).
    { apply nth_error_nth with (d := 0%nat) in Ht'.
      assert (Hlt : (t < length results)%nat)
        by (apply nth_error_Some; congruence).
      apply unrolled_steps_calls in Hres. destruct Hres as [Hl _].
      rewrite length_seq in Hl. rewrite seq_nth in Ht' by lia. lia. }
    subst t'. apply iter_fn_supervised in Hcall.
    destruct Hcall as (g1 & g2 & masks & nl & acc & Hg2 & ->).
    exists g1, g2, masks. split; [exact Hg2 |]. split; [reflexivity |].
    split; [reflexivity |].
    intros batch n ty p b Hsh Hlt c e s. cbn [iter_result_edge_loss].
    apply (edge_loss_nth EPSILON batch n ty p); assumption.
  - rewrite Hinfo. unfold reduced_loss.
    destruct (train_with_query self), evaluate_accuracy, (dynamic_nodes self);
      reflexivity.
Qed.

End EdgeLossReported.

Lemma edge_loss_masked_and_reported_witness :
  exists r,
    _build example_config true false true false (state_params example_state)
           example_inputs (state_srng example_state) = Some r /\
    exists results : list IterResult,
      @build_steps example_collaborators example_config true false true false
                   tt example_inputs 0%nat = Some results /\
      length results = 2%nat /\
      (forall t res,
          nth_error results t = Some res ->
          let correct_edges :=
            correct_edges (step_correct_graph example_inputs t) in
          exists g1 g2 masks,
            g2 = fst (@edge_state_updater_process
                        example_collaborators tt g1
                        (step_input_repr
                           example_inputs
                           (@build_input_reprs example_collaborators tt
                                               example_inputs) t)
                        masks) /\
            iter_result_state res
            = with_updates_edge_strengths
                g2 (crop_edges (n_nodes g2) correct_edges) /\
            iter_result_edge_loss res
            = edge_loss example_EPSILON g2 correct_edges /\
            forall batch n ty p b,
              edge_shapes batch n ty p g2 correct_edges -> (b < batch)%nat ->
              let c := fun i j k =>
                nth k (nth j (nth i (nth b correct_edges []) []) []) 0 in
              let e := fun i j k =>
                nth k (nth j (nth i (nth b (edge_strengths g2) []) []) []) 0
              in
              let s := fun i => nth i (nth b (node_strengths g2) []) 0 in
              nth b (iter_result_edge_loss res) 0
              = - Rsum (tabulate n (fun i => Rsum (tabulate n (fun j =>
                  Rsum (tabulate ty (fun k =>
                    (c i j k * ln (e i j k + example_EPSILON)
                     + (1 - c i j k) * ln (1 - e i j k + example_EPSILON))
                    * s i * s j))))))) /\
      dict_get "edge_loss" (info r)
      = Some (Rsum2 (map iter_result_edge_loss results) / INR 1).
Proof.
  destruct example_build_returns as (r & H).
  exists r. split; [exact H |].
  exact (@edge_loss_masked_and_reported
           example_collaborators example_config false true false tt
           example_inputs 0%nat r H).
Defined.

(** ** Padding of the loop-carried state *)



Section PaddingOfTheRecurrence.

Context {collaborators : Collaborators}.
Variable self : Config.


End PaddingOfTheRecurrence.


(** ** The graph accuracy *)

Section GraphAccuracy.

Context {collaborators : Collaborators}.
Variable self : Config.

(** X16: A build reports the graph accuracy exactly when it is supervised and
    asked to evaluate it.  A story then counts as accurate when every step
    of the build's scan was accurate for it, and [info["graph_accuracy"]]
    is the number of accurate stories divided by the batch size, a value
    between 0 and 1. *)
Theorem graph_accuracy_reported
        (with_correct_graph snap_to_best using_dropout evaluate_accuracy
         : bool)
        (params : Params) (inputs : Inputs) (srng : Rng)
        (r : BuildResult Rng) :
  _build self with_correct_graph snap_to_best using_dropout
         evaluate_accuracy params inputs srng = Some r ->
  (0 < length (input_words inputs))%nat ->
  let batch := length (input_words inputs) in
  if with_correct_graph && evaluate_accuracy then
    exists results accurate,
      build_steps self with_correct_graph snap_to_best using_dropout
                  evaluate_accuracy params inputs srng = Some results /\
      length results
      = n_steps (build_sequences self with_correct_graph using_dropout params
                                 inputs srng) /\
      graph_accurate_list r = Some accurate /\
      length accurate = batch /\
      (forall b, (b < batch)%nat ->
         nth b accurate false = true <->
         forall res, In res results ->
                     nth b (iter_result_accuracy res) true = true) /\
      dict_get "graph_accuracy" (info r)
      = Some (count_true accurate / INR batch) /\
      0 <= count_true accurate / INR batch <= 1
  else
    graph_accurate_list r = None /\
    dict_get "graph_accuracy" (info r) = None.
Proof.
  intros H Hbatch batch.
  destruct with_correct_graph; [| now apply build_unsupervised_accuracy in H].
  apply build_supervised_unrolled in H.
  destruct H as (results & Hres & _ & Hlen & _ & Hinfo & Hacc).
  cbv zeta in Hinfo, Hacc. fold batch in Hacc, Hinfo.
  destruct evaluate_accuracy; cbn [andb].
  - exists results, (all_axis0 batch (map iter_result_accuracy results)).
    split; [exact Hres |]. split; [exact Hlen |]. split; [exact Hacc |].
    split; [apply all_axis0_length |]. split; [| split].
    + intros b Hb. rewrite all_axis0_nth by assumption. split.
      * intros Hall res Hin. apply Hall. now apply in_map.
      * intros Hall row Hrow. apply in_map_iff in Hrow.
        destruct Hrow as (res & <- & Hin). now apply Hall.
    + rewrite Hinfo.
      destruct (train_with_query self); reflexivity.
    + pose proof (count_true_bounds
                    (all_axis0 batch (map iter_result_accuracy results)))
        as [Hlo Hhi].
      rewrite all_axis0_length in Hhi.
      assert (Hn : 0 < INR batch) by (apply lt_0_INR; exact Hbatch).
      split.
      * apply Rmult_le_reg_r with (INR batch); [exact Hn |].
        unfold Rdiv. rewrite Rmult_assoc, Rinv_l by lra. lra.
      * apply Rmult_le_reg_r with (INR batch); [exact Hn |].
        unfold Rdiv. rewrite Rmult_assoc, Rinv_l by lra. lra.
  - split; [exact Hacc |]. rewrite Hinfo.
    destruct (train_with_query self), (dynamic_nodes self); reflexivity.
Qed.

End GraphAccuracy.

Lemma graph_accuracy_reported_witness :
  exists r,
    @_build example_collaborators example_config true false false true tt
            example_inputs 0%nat = Some r /\
    exists results accurate,
      @build_steps example_collaborators example_config true false false true
                   tt example_inputs 0%nat = Some results /\
      length results = 2%nat /\
      graph_accurate_list r = Some accurate /\
      length accurate = 1%nat /\
      (forall b, (b < 1)%nat ->
         nth b accurate false = true <->
         forall res, In res results ->
                     nth b (iter_result_accuracy res) true = true) /\
      dict_get "graph_accuracy" (info r)
      = Some (count_true accurate / INR 1) /\
      0 <= count_true accurate / INR 1 <= 1.
Proof.
  destruct example_eval_build_returns as (r & H).
  exists r. split; [exact H |].
  apply (@graph_accuracy_reported example_collaborators example_config
                                  true false false true tt example_inputs
                                  0%nat r H).
  simpl. lia.
Defined.
